(** * DefConfigPrinter (examples/print_detailed_defconfig.py)

    A shallow embedding of the [DefConfigPrinter] class: the assignment
    loader ([load_config]), the name-keyed table it feeds, the construction
    of the annotated node tree ([make_node_tree]), the per-level templates
    ([generate_print_format]) and the printer ([print_node_tree] and the
    functions it calls).

    Python objects of class [DefConfigPrinter.Node] live in an object store
    (a list indexed by address), because the code links them by reference
    ([parent], [next], [list]) and updates them in place.  The Kconfig
    library itself is an external collaborator: what the printer reads from
    it is an interface ([Kconfiglib]), and what the printer does to it is
    the history of [load_config] calls it has received. *)

From Stdlib Require Import ZArith Ascii String.
From stdpp Require Import base option list strings pretty gmap.

Local Open Scope string_scope.
Local Open Scope list_scope.
Local Open Scope nat_scope.

(** ** Results of fallible code *)

Inductive error : Type :=
| OSError (filename : string)   (* a file cannot be opened *)
| KconfigError (filename : string)  (* kconfiglib: a snapshot file is not UTF-8 *)
| UnicodeDecodeError            (* reading a file that is not UTF-8 *)
| IndexError                    (* list index out of range *)
| KeyError (key : string)       (* str.format: unknown field name *)
| ValueError                    (* str.format: malformed template *)
| AttributeError                (* attribute access on None *)
| Unsupported                   (* str.format feature outside the model *)
| Dangling                      (* an address outside the object store *)
| OutOfFuel.                    (* the bound given to a loop was too small *)

Inductive result (A : Type) : Type :=
| Ok (a : A)
| Err (e : error).
Arguments Ok {A} a.
Arguments Err {A} e.

Definition result_bind {A B} (f : A → result B) (r : result A) : result B :=
  match r with
  | Ok a => f a
  | Err e => Err e
  end.

#[global] Instance result_mbind : MBind result := @result_bind.
#[global] Instance result_mret : MRet result := @Ok.

Definition is_Ok {A} (r : result A) : Prop := ∃ a, r = Ok a.

(** ** Strings

    Characters are code points; the model covers the code points below 256.
    [isspace] is Python's [str.isspace] on them. *)

Definition isspace (c : ascii) : bool :=
  let n := nat_of_ascii c in
  ((9 <=? n)%nat && (n <=? 13)%nat) || ((28 <=? n)%nat && (n <=? 32)%nat)
  || (n =? 133)%nat || (n =? 160)%nat.

Definition str_nonempty (s : string) : bool :=
  match s with
  | EmptyString => false
  | String _ _ => true
  end.

(** [s.rstrip()] *)
Fixpoint rstrip (s : string) : string :=
  match s with
  | EmptyString => EmptyString
  | String c r =>
      match rstrip r with
      | EmptyString => if isspace c then EmptyString else String c EmptyString
      | r' => String c r'
      end
  end.

Fixpoint str_mem (c : ascii) (chars : string) : bool :=
  match chars with
  | EmptyString => false
  | String d r => if Ascii.eqb c d then true else str_mem c r
  end.

(** [s.lstrip(chars)] *)
Fixpoint lstrip (chars s : string) : string :=
  match s with
  | EmptyString => EmptyString
  | String c r => if str_mem c chars then lstrip chars r else s
  end.

(** [sep.join(l)] *)
Definition join (sep : string) (l : list string) : string := String.concat sep l.

(** [s * n] for a string [s] and an integer [n] *)
Fixpoint str_repeat (s : string) (n : nat) : string :=
  match n with
  | O => EmptyString
  | S n' => s +:+ str_repeat s n'
  end.

Definition str_mul (s : string) (n : Z) : string := str_repeat s (Z.to_nat n).

Fixpoint str_take (n : nat) (s : string) : string :=
  match n, s with
  | S n', String c r => String c (str_take n' r)
  | _, _ => EmptyString
  end.

(** [s[:k]] with Python's treatment of a negative bound *)
Definition str_slice_to (s : string) (k : Z) : string :=
  if (0 <=? k)%Z then str_take (Z.to_nat k) s
  else str_take (Z.to_nat (Z.of_nat (String.length s) + k)) s.

Definition newline : string := String (ascii_of_nat 10) EmptyString.

(** ** The external collaborator

    [Kconfig.load_config(filename, replace, verbose)] is recorded as a call;
    the state of the Kconfig object is the history of these calls. *)

Record kconf_call : Type := KCall {
  call_file : string;
  call_replace : bool;
  call_verbose : option bool;
}.

Definition kconf_state : Type := list kconf_call.

(** What [Kconfig._open_config(filename)] and the iteration over the file
    it returns give.  kconfiglib opens a snapshot file as UTF-8 text. *)
Inductive config_file : Type :=
| NoFile                        (* the file cannot be opened *)
| NotText                       (* it opens, but its bytes are not UTF-8 *)
| Lines (lines : list string).  (* the lines that the iteration yields *)

(** What the printer reads from kconfiglib.  [set_match] and [unset_match]
    are [Kconfig._set_match] and [Kconfig._unset_match]; [open_config] is
    [Kconfig._open_config] followed by the reading of the file;
    [expr_value] and [config_string] depend on the values the Kconfig
    object holds, that is on the calls it has received. *)
Class Kconfiglib : Type := {
  Symbol : Type;
  Choice : Type;
  Expr : Type;
  sym_name : Symbol → string;
  sym_nodes : Symbol → bool;
  config_string : kconf_state → Symbol → string;
  choice_name : Choice → option string;
  expr_value : kconf_state → Expr → Z;
  set_match : string → option (string * string);
  unset_match : string → option string;
  syms_get : string → option Symbol;
  open_config : string → config_file;
}.

Section Loader.
Context `{KL : Kconfiglib}.

(** The dict [config_info] built for one assignment line. *)
Record config_info : Type := ConfigInfo {
  ci_name : string;
  ci_line : string;
  ci_symbol : option Symbol;
  ci_comment : string;
}.

(** [re.compile(r"^#").match] *)
Definition comment_match (line : string) : bool :=
  match line with
  | String c _ => Ascii.eqb c "#"%char
  | EmptyString => false
  end.

(** [sym] when [sym and sym.nodes] *)
Definition symbol_of (name : string) : option Symbol :=
  match syms_get name with
  | Some sym => if sym_nodes sym then Some sym else None
  | None => None
  end.

(** One iteration of the loop over the lines of a file; the loop state is
    [(config_list, comment_lines)]. *)
Definition scan_line (st : list config_info * list string) (line : string)
  : list config_info * list string :=
  let '(config_list, comment_lines) := st in
  let line := rstrip line in
  match set_match line with
  | Some (name, val) =>
      (config_list ++ [ConfigInfo name line (symbol_of name) (join newline comment_lines)], [])
  | None =>
      match unset_match line with
      | Some name =>
          (config_list ++ [ConfigInfo name line (symbol_of name) (join newline comment_lines)], [])
      | None =>
          if comment_match line then (config_list, comment_lines ++ [line])
          else (config_list, [])
      end
  end.

Definition scan_lines (lines : list string) (st : list config_info * list string)
  : list config_info * list string :=
  foldl scan_line st lines.

(** The [config_list] that [load_config] builds from the lines of a file. *)
Definition scan (lines : list string) : list config_info :=
  fst (scan_lines lines ([], [])).

(** [for config_info in config_list: d[config_info["name"]] = config_info] *)
Definition dict_store (d : gmap string config_info) (config_list : list config_info)
  : gmap string config_info :=
  foldl (λ d ci, <[ci_name ci := ci]> d) d config_list.

End Loader.

(** ** Python's [str.format] with keyword arguments

    The model covers replacement fields that are a plain keyword name
    ([{prompt}]) and the escapes [{{] and [}}].  A field that is empty or a
    number asks for a positional argument, of which there is none
    ([IndexError]); a field with a conversion, a format specification, an
    attribute or an index is outside the model ([Unsupported]). *)

Inductive fmt_state : Type :=
| FText                      (* in literal text *)
| FOpen                      (* just after a left brace *)
| FField (name : string)     (* inside a replacement field *)
| FClose.                    (* just after a right brace in literal text *)

Definition is_digit (c : ascii) : bool :=
  let n := nat_of_ascii c in (48 <=? n)%nat && (n <=? 57)%nat.

Fixpoint all_digits (s : string) : bool :=
  match s with
  | EmptyString => true
  | String c r => is_digit c && all_digits r
  end.

Definition field_special (c : ascii) : bool := str_mem c "{.[]!:".

Definition result_map {A B} (f : A → B) (r : result A) : result B :=
  match r with
  | Ok a => Ok (f a)
  | Err e => Err e
  end.

Definition format_lookup (kwargs : gmap string string) (name : string) : result string :=
  if all_digits name then Err IndexError
  else match kwargs !! name with
       | Some v => Ok v
       | None => Err (KeyError name)
       end.

Fixpoint format_from (kwargs : gmap string string) (st : fmt_state) (s : string)
  : result string :=
  match s with
  | EmptyString =>
      match st with
      | FText => Ok EmptyString
      | _ => Err ValueError
      end
  | String c r =>
      match st with
      | FText =>
          if Ascii.eqb c "{"%char then format_from kwargs FOpen r
          else if Ascii.eqb c "}"%char then format_from kwargs FClose r
          else result_map (String c) (format_from kwargs FText r)
      | FOpen =>
          if Ascii.eqb c "{"%char then result_map (String c) (format_from kwargs FText r)
          else if Ascii.eqb c "}"%char then Err IndexError
          else if field_special c then Err Unsupported
          else format_from kwargs (FField (String c EmptyString)) r
      | FField name =>
          if Ascii.eqb c "}"%char then
            v ← format_lookup kwargs name;
            result_map (String.append v) (format_from kwargs FText r)
          else if field_special c then Err Unsupported
          else format_from kwargs (FField (name +:+ String c EmptyString)) r
      | FClose =>
          if Ascii.eqb c "}"%char then result_map (String c) (format_from kwargs FText r)
          else Err ValueError
      end
  end.

(** [template.format] applied to the keyword arguments [kwargs] *)
Definition format (template : string) (kwargs : gmap string string) : result string :=
  format_from kwargs FText template.

(** ** Python's slice assignment [a[i:j] = b] on a list *)

Definition slice_bound {A} (a : list A) (i : Z) : nat :=
  let n := Z.of_nat (length a) in
  Z.to_nat (if (i <? 0)%Z then Z.max (i + n) 0 else Z.min i n).

Definition slice_assign {A} (a : list A) (i j : Z) (b : list A) : list A :=
  let i' := slice_bound a i in
  let j' := Nat.max i' (slice_bound a j) in
  take i' a ++ b ++ drop j' a.

(** ** Output streams *)

(** Where a [print] call writes: [sys.stdout] or the opened output file. *)
Inductive stream : Type :=
| Stdout
| OutFile.

#[global] Instance stream_eq_dec : EqDecision stream.
Proof. solve_decision. Defined.

(** The writes made so far, oldest first. *)
Abbreviation output := (list (stream * string)) (only parsing).

(** [print(text, file=file)] *)
Definition print_to (file : stream) (text : string) (out : output) : output :=
  out ++ [(file, text +:+ newline)].

(** The text that has reached a stream. *)
Definition written (s : stream) (out : output) : string :=
  String.concat "" (snd <$> filter (λ w, w.1 = s) out).

(** ** The data model *)

(** Addresses in the object store. *)
Abbreviation addr := nat (only parsing).

Section Printer.
Context `{KL : Kconfiglib}.

(** [menu_node.item]: a [Symbol], a [Choice], or one of the constants
    [MENU] and [COMMENT]. *)
Inductive Item : Type :=
| ItemSymbol (sym : Symbol)
| ItemChoice (ch : Choice)
| MENU
| COMMENT.

(** The attributes of a kconfiglib [MenuNode] that the printer reads, apart
    from its links. *)
Record menu_data : Type := MenuData {
  mn_item : Item;
  mn_is_menuconfig : bool;
  mn_prompt : option string;     (* [prompt[0]] when [prompt] is set *)
  mn_help : option string;
  mn_dep : Expr;
  mn_filename : string;
  mn_linenr : Z;
}.

(** A reference to a kconfiglib [MenuNode]: [MNone] is [None], and
    [MNode d l n] is a node whose [list] is [l] and whose [next] is [n]. *)
Inductive MenuNode : Type :=
| MNone
| MNode (d : menu_data) (mn_list mn_next : MenuNode).

(** The [Kconfig] object: its menu tree and the [load_config] calls made
    on it. *)
Record Kconfig : Type := MkKconfig {
  kconf_top_node : MenuNode;
  kconf_calls : kconf_state;
}.


(** [DefConfigPrinter.Node]; references to other nodes are addresses in
    the object store. *)
Record Node : Type := MkNode {
  menu_node : menu_data;
  parent : option addr;
  level : nat;
  next : option addr;
  list_ : option addr;
  defined : bool;
  config : option config_info;
  is_symbol : bool;
  is_choice : bool;
  is_menu : bool;
  prompt : option string;
  help : option string;
}.

(** [self.print_format_params] *)
Record format_params : Type := FormatParams {
  fp_print_first_level : Z;
  fp_print_max_column : Z;
  fp_print_comment : bool;
  fp_print_help : bool;
  fp_print_orig_config : bool;
  fp_print_location : bool;
  fp_prompt_indent_char : string;
  fp_separator_indent_char : string;
  fp_info_indent_char : string;
  fp_separator_char_list : list string;
  fp_separator_format : string;
  fp_prompt_format : string;
  fp_help_format : string;
  fp_help_line_format : string;
  fp_orig_config_format : string;
  fp_location_format : string;
  fp_menu_end_format : string;
}.

(** One entry of a [params] dict given to [generate_print_format]. *)
Inductive param : Type :=
| P_print_first_level (v : Z)
| P_print_max_column (v : Z)
| P_print_comment (v : bool)
| P_print_help (v : bool)
| P_print_orig_config (v : bool)
| P_print_location (v : bool)
| P_prompt_indent_char (v : string)
| P_separator_indent_char (v : string)
| P_info_indent_char (v : string)
| P_separator_char_list (v : list string)
| P_separator_format (v : string)
| P_prompt_format (v : string)
| P_help_format (v : string)
| P_help_line_format (v : string)
| P_orig_config_format (v : string)
| P_location_format (v : string)
| P_menu_end_format (v : string).

Definition set_param (f : format_params) (x : param) : format_params :=
  let '(FormatParams a b c d e g h i j k l m n o p q r) := f in
  match x with
  | P_print_first_level v => FormatParams v b c d e g h i j k l m n o p q r
  | P_print_max_column v => FormatParams a v c d e g h i j k l m n o p q r
  | P_print_comment v => FormatParams a b v d e g h i j k l m n o p q r
  | P_print_help v => FormatParams a b c v e g h i j k l m n o p q r
  | P_print_orig_config v => FormatParams a b c d v g h i j k l m n o p q r
  | P_print_location v => FormatParams a b c d e v h i j k l m n o p q r
  | P_prompt_indent_char v => FormatParams a b c d e g v i j k l m n o p q r
  | P_separator_indent_char v => FormatParams a b c d e g h v j k l m n o p q r
  | P_info_indent_char v => FormatParams a b c d e g h i v k l m n o p q r
  | P_separator_char_list v => FormatParams a b c d e g h i j v l m n o p q r
  | P_separator_format v => FormatParams a b c d e g h i j k v m n o p q r
  | P_prompt_format v => FormatParams a b c d e g h i j k l v n o p q r
  | P_help_format v => FormatParams a b c d e g h i j k l m v o p q r
  | P_help_line_format v => FormatParams a b c d e g h i j k l m n v p q r
  | P_orig_config_format v => FormatParams a b c d e g h i j k l m n o v q r
  | P_location_format v => FormatParams a b c d e g h i j k l m n o p v r
  | P_menu_end_format v => FormatParams a b c d e g h i j k l m n o p q v
  end.

(** [self.print_format_params.update(params)] *)
Definition update_params (f : format_params) (params : list param) : format_params :=
  foldl set_param f params.

(** The per-level templates, in the order in which the loop of
    [generate_print_format] appends them. *)
Record templates : Type := Templates {
  t_prompt : string;
  t_menu_end : string;
  t_help : string;
  t_help_line : string;
  t_orig_config : string;
  t_location : string;
}.

(** The [DefConfigPrinter] object.  [heap] is the store of the [Node]
    objects created so far. *)
Record DefConfigPrinter : Type := MkPrinter {
  kconf : Kconfig;
  defined_config_list : list config_info;
  defined_config_dict : gmap string config_info;
  max_level : nat;
  level_size : nat;
  top_node : option addr;
  heap : list Node;
  print_format_params : format_params;
  print_first_level : Z;
  print_comment : bool;
  print_help : bool;
  print_orig_config : bool;
  print_location : bool;
  print_prompt_format : list string;
  print_menu_end_format : list string;
  print_location_format : list string;
  print_help_format : list string;
  print_help_line_format : list string;
  print_orig_config_format : list string;
}.

(** *** Updates of the printer's attributes *)

Definition set_kconf (self : DefConfigPrinter) (k : Kconfig) : DefConfigPrinter :=
  MkPrinter k (defined_config_list self) (defined_config_dict self) (max_level self)
    (level_size self) (top_node self) (heap self) (print_format_params self)
    (print_first_level self) (print_comment self) (print_help self)
    (print_orig_config self) (print_location self) (print_prompt_format self)
    (print_menu_end_format self) (print_location_format self) (print_help_format self)
    (print_help_line_format self) (print_orig_config_format self).

Definition set_tables (self : DefConfigPrinter) (l : list config_info)
    (d : gmap string config_info) : DefConfigPrinter :=
  MkPrinter (kconf self) l d (max_level self)
    (level_size self) (top_node self) (heap self) (print_format_params self)
    (print_first_level self) (print_comment self) (print_help self)
    (print_orig_config self) (print_location self) (print_prompt_format self)
    (print_menu_end_format self) (print_location_format self) (print_help_format self)
    (print_help_line_format self) (print_orig_config_format self).

Definition set_max_level (self : DefConfigPrinter) (m : nat) : DefConfigPrinter :=
  MkPrinter (kconf self) (defined_config_list self) (defined_config_dict self) m
    (level_size self) (top_node self) (heap self) (print_format_params self)
    (print_first_level self) (print_comment self) (print_help self)
    (print_orig_config self) (print_location self) (print_prompt_format self)
    (print_menu_end_format self) (print_location_format self) (print_help_format self)
    (print_help_line_format self) (print_orig_config_format self).

Definition set_level_size (self : DefConfigPrinter) (m : nat) : DefConfigPrinter :=
  MkPrinter (kconf self) (defined_config_list self) (defined_config_dict self)
    (max_level self) m (top_node self) (heap self) (print_format_params self)
    (print_first_level self) (print_comment self) (print_help self)
    (print_orig_config self) (print_location self) (print_prompt_format self)
    (print_menu_end_format self) (print_location_format self) (print_help_format self)
    (print_help_line_format self) (print_orig_config_format self).

Definition set_top_node (self : DefConfigPrinter) (r : option addr) : DefConfigPrinter :=
  MkPrinter (kconf self) (defined_config_list self) (defined_config_dict self)
    (max_level self) (level_size self) r (heap self) (print_format_params self)
    (print_first_level self) (print_comment self) (print_help self)
    (print_orig_config self) (print_location self) (print_prompt_format self)
    (print_menu_end_format self) (print_location_format self) (print_help_format self)
    (print_help_line_format self) (print_orig_config_format self).

Definition set_heap (self : DefConfigPrinter) (h : list Node) : DefConfigPrinter :=
  MkPrinter (kconf self) (defined_config_list self) (defined_config_dict self)
    (max_level self) (level_size self) (top_node self) h (print_format_params self)
    (print_first_level self) (print_comment self) (print_help self)
    (print_orig_config self) (print_location self) (print_prompt_format self)
    (print_menu_end_format self) (print_location_format self) (print_help_format self)
    (print_help_line_format self) (print_orig_config_format self).

Definition set_formats (self : DefConfigPrinter) (f : format_params)
    (ts : list templates) : DefConfigPrinter :=
  MkPrinter (kconf self) (defined_config_list self) (defined_config_dict self)
    (max_level self) (level_size self) (top_node self) (heap self) f
    (fp_print_first_level f) (fp_print_comment f) (fp_print_help f)
    (fp_print_orig_config f) (fp_print_location f) (t_prompt <$> ts)
    (t_menu_end <$> ts) (t_location <$> ts) (t_help <$> ts)
    (t_help_line <$> ts) (t_orig_config <$> ts).

(** *** Updates of a [Node] in the store *)

Definition with_defined (n : Node) (b : bool) : Node :=
  MkNode (menu_node n) (parent n) (level n) (next n) (list_ n) b (config n)
    (is_symbol n) (is_choice n) (is_menu n) (prompt n) (help n).

Definition with_config (n : Node) (c : option config_info) : Node :=
  MkNode (menu_node n) (parent n) (level n) (next n) (list_ n) (defined n) c
    (is_symbol n) (is_choice n) (is_menu n) (prompt n) (help n).

Definition with_list (n : Node) (r : option addr) : Node :=
  MkNode (menu_node n) (parent n) (level n) (next n) r (defined n) (config n)
    (is_symbol n) (is_choice n) (is_menu n) (prompt n) (help n).

Definition with_next (n : Node) (r : option addr) : Node :=
  MkNode (menu_node n) (parent n) (level n) r (list_ n) (defined n) (config n)
    (is_symbol n) (is_choice n) (is_menu n) (prompt n) (help n).

(** [Node.__init__] *)
Definition new_Node (d : menu_data) (parent_node : option addr) (lvl : nat) : Node :=
  {| menu_node := d;
     parent := parent_node;
     level := lvl;
     next := None;
     list_ := None;
     defined := false;
     config := None;
     is_symbol := match mn_item d with ItemSymbol _ => true | _ => false end;
     is_choice := match mn_item d with ItemChoice _ => true | _ => false end;
     is_menu := match mn_item d with MENU => true | _ => mn_is_menuconfig d end;
     prompt := mn_prompt d;
     help := mn_help d |}.

(** ** Loading *)

(** [self.kconf.load_config(filename, replace, verbose)]: the call is
    recorded.  It fails when the file cannot be opened, and kconfiglib
    turns the decoding error of a file that is not UTF-8 into its
    [KconfigError]. *)
Definition kconf_load_config (filename : string) (replace : bool)
    (verbose : option bool) (k : Kconfig) : result Kconfig :=
  match open_config filename with
  | NoFile => Err (OSError filename)
  | NotText => Err (KconfigError filename)
  | Lines _ => Ok (MkKconfig (kconf_top_node k) (kconf_calls k ++ [KCall filename replace verbose]))
  end.

(** The loop of [preload_config_files]; [replace] is its local variable. *)
Fixpoint preload_loop (defconfig_files : list string) (replace : bool)
    (verbose : option bool) (k : Kconfig) : result Kconfig :=
  match defconfig_files with
  | [] => Ok k
  | defconfig_file :: rest =>
      k ← kconf_load_config defconfig_file replace verbose k;
      preload_loop rest false verbose k
  end.

Definition preload_config_files (defconfig_files : list string)
    (verbose : option bool) (self : DefConfigPrinter) : result DefConfigPrinter :=
  k ← preload_loop defconfig_files true verbose (kconf self);
  Ok (set_kconf self k).

(** [load_config]: the file is read through [self.kconf._open_config];
    the printer is updated after the last line has been read. *)
Definition load_config (defconfig_file : string) (self : DefConfigPrinter)
  : result DefConfigPrinter :=
  match open_config defconfig_file with
  | NoFile => Err (OSError defconfig_file)
  | NotText => Err UnicodeDecodeError
  | Lines lines =>
      let config_list := scan lines in
      Ok (set_tables self (defined_config_list self ++ config_list)
            (dict_store (defined_config_dict self) config_list))
  end.

(** ** Building the annotated tree *)

(** [while parent and parent.defined is False: ...]; [fuel] bounds the
    number of iterations. *)
Fixpoint mark_parents (fuel : nat) (h : list Node) (parent_node : option addr)
  : result (list Node) :=
  match parent_node with
  | None => Ok h
  | Some a =>
      match h !! a with
      | None => Err Dangling
      | Some n =>
          if defined n then Ok h
          else match fuel with
               | O => Err OutOfFuel
               | S fuel' => mark_parents fuel' (<[a := with_defined n true]> h) (parent n)
               end
      end
  end.

(** [menu_node.item.name] when the item is a [Symbol] or a [Choice]; the
    name of a [Choice] may be [None], which is a key of no entry. *)
Definition item_name (it : Item) : option string :=
  match it with
  | ItemSymbol sym => Some (sym_name sym)
  | ItemChoice ch => choice_name ch
  | MENU | COMMENT => None
  end.

(** The body of [if expr_value(curr_node.menu_node.dep) > 0: ...] for the
    node at address [curr]. *)
Definition match_config (self : DefConfigPrinter) (d : menu_data) (curr : addr)
    (parent_node : option addr) (h : list Node) : result (list Node) :=
  if (0 <? expr_value (kconf_calls (kconf self)) (mn_dep d))%Z then
    match item_name (mn_item d) with
    | Some name =>
        match defined_config_dict self !! name with
        | Some ci =>
            let h := alter (λ n, with_config (with_defined n true) (Some ci)) curr h in
            mark_parents (length h) h parent_node
        | None => Ok h
        end
    | None => Ok h
    end
  else Ok h.

(** [if self.max_level < level: self.max_level = level] *)
Definition update_max_level (self : DefConfigPrinter) (lvl : nat) : DefConfigPrinter :=
  if (max_level self <? lvl)%nat then set_max_level self lvl else self.

(** The [while menu_node:] loop of [make_node_tree], with its local
    variables [first_node] and [prev_node]; the recursive call on
    [menu_node.list] is followed by the end of the callee, which updates
    [max_level] and returns its [first_node]. *)
Fixpoint make_node_loop (menu : MenuNode) (parent_node : option addr) (lvl : nat)
    (first_node prev_node : option addr) (self : DefConfigPrinter)
  : result (DefConfigPrinter * option addr) :=
  match menu with
  | MNone => Ok (self, first_node)
  | MNode d mlist mnext =>
      let curr_node := length (heap self) in
      let h := heap self ++ [new_Node d parent_node lvl] in
      h ← match_config self d curr_node parent_node h;
      let self := set_heap self h in
      self ← match mlist with
              | MNone => Ok self
              | MNode _ _ _ =>
                  '(self, r) ← make_node_loop mlist (Some curr_node) (S lvl) None None self;
                  let self := update_max_level self (S lvl) in
                  Ok (set_heap self (alter (λ n, with_list n r) curr_node (heap self)))
              end;
      let self := match prev_node with
                  | Some p => set_heap self (alter (λ n, with_next n (Some curr_node)) p (heap self))
                  | None => self
                  end in
      let first_node := match prev_node with
                        | Some _ => first_node
                        | None => Some curr_node
                        end in
      make_node_loop mnext parent_node lvl first_node (Some curr_node) self
  end.

Definition make_node_tree (menu : MenuNode) (parent_node : option addr) (lvl : nat)
    (self : DefConfigPrinter) : result (DefConfigPrinter * option addr) :=
  '(self, first_node) ← make_node_loop menu parent_node lvl None None self;
  Ok (update_max_level self lvl, first_node).

(** ** The per-level templates *)

(** [for x in l: r = f(r, x)] for a fallible body *)
Fixpoint mapM {A B} (f : A → result B) (l : list A) : result (list B) :=
  match l with
  | [] => Ok []
  | x :: r => y ← f x; ys ← mapM f r; Ok (y :: ys)
  end.

Fixpoint foldM {A B} (f : B → A → result B) (b : B) (l : list A) : result B :=
  match l with
  | [] => Ok b
  | x :: r => b' ← f b x; foldM f b' r
  end.

(** The body of the loop [for level in range(self.level_size)]. *)
Definition level_templates (f : format_params) (separator_char_list : list string)
    (lvl : nat) : result templates :=
  sep ← match separator_char_list !! lvl with
         | Some c => Ok c
         | None => Err IndexError
         end;
  let format_params : gmap string string :=
    list_to_map
      [ ("prompt_indent", str_repeat (fp_prompt_indent_char f) lvl);
        ("separator_indent", str_repeat (fp_separator_indent_char f) lvl);
        ("info_indent", str_repeat (fp_info_indent_char f) lvl);
        ("separator_line", str_mul sep (fp_print_max_column f));
        ("prompt", "{prompt}");
        ("help", "{help}");
        ("help_line", "{help_line}");
        ("config", "{config}");
        ("filename", "{filename}");
        ("linenr", "{linenr}") ] in
  separator ← format (fp_separator_format f) format_params;
  let format_params :=
    <["separator" := str_slice_to separator (fp_print_max_column f - 1)]> format_params in
  prompt_format ← format (fp_prompt_format f) format_params;
  menu_end_format ← format (fp_menu_end_format f) format_params;
  help_format ← format (fp_help_format f) format_params;
  help_line_format ← format (fp_help_line_format f) format_params;
  location_format ← format (fp_location_format f) format_params;
  orig_config_format ← format (fp_orig_config_format f) format_params;
  Ok (Templates prompt_format menu_end_format help_format help_line_format
        orig_config_format location_format).

Definition generate_print_format (params : list param) (self : DefConfigPrinter)
  : result DefConfigPrinter :=
  let f := update_params (print_format_params self) params in
  let first := fp_print_first_level f in
  let separator_char_list :=
    slice_assign (replicate (level_size self) "") first
      (first + Z.of_nat (length (fp_separator_char_list f)))
      (fp_separator_char_list f) in
  ts ← mapM (level_templates f separator_char_list) (seq 0 (level_size self));
  Ok (set_formats self f ts).

Definition load_config_files (defconfig_files : list string) (replace : bool)
    (verbose : option bool) (self : DefConfigPrinter) : result DefConfigPrinter :=
  k ← foldM (λ k defconfig_file, kconf_load_config defconfig_file replace verbose k)
        (kconf self) defconfig_files;
  let self := set_kconf self k in
  self ← foldM (λ self defconfig_file, load_config defconfig_file self)
           self defconfig_files;
  let self := set_max_level self 0 in
  '(self, r) ← make_node_tree (kconf_top_node (kconf self)) None 0 self;
  let self := set_top_node self r in
  let self := set_level_size self (max_level self + 1) in
  generate_print_format [] self.

(** The defaults of [__init__]. *)
Definition default_format_params : format_params :=
  {| fp_print_first_level := 1;
     fp_print_max_column := 80;
     fp_print_comment := false;
     fp_print_help := false;
     fp_print_orig_config := false;
     fp_print_location := false;
     fp_prompt_indent_char := "#";
     fp_separator_indent_char := "#";
     fp_info_indent_char := "#";
     fp_separator_char_list := [];
     fp_separator_format := "{separator_indent} {separator_line}";
     fp_prompt_format :=
       "#{separator}" +:+ newline +:+ "#{prompt_indent} {prompt}" +:+ newline +:+ "#{separator}";
     fp_help_format :=
       "#{info_indent} help" +:+ newline +:+ "{help}" +:+ newline +:+ "#{info_indent}";
     fp_help_line_format := "#{info_indent}     {help_line}";
     fp_orig_config_format := "#{info_indent} {config}";
     fp_location_format :=
       "#{info_indent} {filename} : {linenr}" +:+ newline +:+ "#{info_indent}";
     fp_menu_end_format := "#{prompt_indent} end of {prompt}" +:+ newline |}.

(** The attributes that [DefConfigPrinter.__init__] sets before it calls
    [generate_print_format], for an already parsed Kconfig tree; the warning
    options only configure the Kconfig object. *)
Definition blank (top : MenuNode) : DefConfigPrinter :=
  {| kconf := MkKconfig top [];
     defined_config_list := [];
     defined_config_dict := ∅;
     max_level := 0;
     level_size := 0;
     top_node := None;
     heap := [];
     print_format_params := default_format_params;
     print_first_level := 1;
     print_comment := false;
     print_help := false;
     print_orig_config := false;
     print_location := false;
     print_prompt_format := [];
     print_menu_end_format := [];
     print_location_format := [];
     print_help_format := [];
     print_help_line_format := [];
     print_orig_config_format := [] |}.

(** [DefConfigPrinter.__init__] *)
Definition init (top : MenuNode) : result DefConfigPrinter :=
  generate_print_format [] (blank top).

(** ** Printing *)

Definition is_linebreak (c : ascii) : bool :=
  let n := nat_of_ascii c in
  ((10 <=? n)%nat && (n <=? 13)%nat) || ((28 <=? n)%nat && (n <=? 30)%nat)
  || (n =? 133)%nat.

(** [s.splitlines()]; [cur] is the line being read. *)
Fixpoint splitlines_from (cur : string) (s : string) : list string :=
  match s with
  | EmptyString => if str_nonempty cur then [cur] else []
  | String c r =>
      if is_linebreak c then
        if (nat_of_ascii c =? 13)%nat then
          match r with
          | String d r' =>
              if (nat_of_ascii d =? 10)%nat then cur :: splitlines_from "" r'
              else cur :: splitlines_from "" r
          | EmptyString => cur :: splitlines_from "" r
          end
        else cur :: splitlines_from "" r
      else splitlines_from (cur +:+ String c EmptyString) r
  end.

Definition splitlines (s : string) : list string := splitlines_from "" s.

(** Truth value of an attribute that is [None] or a string. *)
Definition truthy (o : option string) : bool :=
  match o with
  | Some s => str_nonempty s
  | None => false
  end.

(** [l[i]] *)
Definition index {A} (l : list A) (i : nat) : result A :=
  match l !! i with
  | Some x => Ok x
  | None => Err IndexError
  end.

Definition text_of (o : option string) : string :=
  match o with
  | Some s => s
  | None => "None"
  end.

Definition print_node_config (self : DefConfigPrinter) (node : Node) (file : stream)
    (out : output) : result output :=
  match config node with
  | Some ci => Ok (print_to file (ci_line ci) out)
  | None =>
      if is_symbol node then
        match mn_item (menu_node node) with
        | ItemSymbol sym =>
            let config :=
              lstrip "# " (rstrip (config_string (kconf_calls (kconf self)) sym)) in
            fmt ← index (print_orig_config_format self) (level node);
            text ← format fmt {[ "config" := config ]};
            Ok (print_to file text out)
        | _ => Err AttributeError
        end
      else Ok out
  end.

Definition print_node_prompt (self : DefConfigPrinter) (node : Node) (file : stream)
    (out : output) : result output :=
  fmt ← index (print_prompt_format self) (level node);
  text ← format fmt {[ "prompt" := text_of (prompt node) ]};
  Ok (print_to file text out).

Definition print_node_help (self : DefConfigPrinter) (node : Node) (file : stream)
    (out : output) : result output :=
  help_line_format ← index (print_help_line_format self) (level node);
  help_format ← index (print_help_format self) (level node);
  match help node with
  | None => Err AttributeError
  | Some help =>
      help_lines ← mapM (λ help_line, format help_line_format {[ "help_line" := help_line ]})
                     (splitlines help);
      text ← format help_format {[ "help" := join newline help_lines ]};
      Ok (print_to file text out)
  end.

Definition print_node_location (self : DefConfigPrinter) (node : Node) (file : stream)
    (out : output) : result output :=
  let filename := mn_filename (menu_node node) in
  let linenr := mn_linenr (menu_node node) in
  fmt ← index (print_location_format self) (level node);
  text ← format fmt (<[ "filename" := filename ]> {[ "linenr" := pretty linenr ]});
  Ok (print_to file text out).

(** [print(comment)] names no file: the text goes to [sys.stdout]. *)
Definition print_node_comment (self : DefConfigPrinter) (node : Node) (file : stream)
    (out : output) : result output :=
  match config node with
  | Some ci => Ok (print_to Stdout (ci_comment ci) out)
  | None => Ok out
  end.

(** [print_menu_node]; [print_node_tree] is the function it calls on
    [node.list]. *)
Definition print_menu_node
    (print_node_tree : option addr → bool → stream → output → result output)
    (self : DefConfigPrinter) (node : Node) (force_print : bool) (file : stream)
    (out : output) : result output :=
  let need_new_line := false in
  '(out, need_new_line) ←
    ((if truthy (prompt node) then
        out ← print_node_prompt self node file out;
        out ← (if print_help self && truthy (help node)
                then print_node_help self node file out else Ok out);
        out ← (if print_location self
                then print_node_location self node file out else Ok out);
        Ok (out, true)
      else Ok (out, need_new_line)) : result (output * bool));
  out ← (if print_comment self then print_node_comment self node file out else Ok out);
  '(out, need_new_line) ←
    ((if bool_decide (is_Some (config node)) || print_orig_config self || force_print then
        out ← print_node_config self node file out;
        Ok (out, true)
      else Ok (out, need_new_line)) : result (output * bool));
  let out := if (need_new_line : bool) then print_to file "" out else (out : output) in
  out ← (match list_ node with
          | Some _ => print_node_tree (list_ node) (is_choice node) file out
          | None => Ok out
          end);
  if truthy (prompt node) then
    fmt ← index (print_menu_end_format self) (level node);
    text ← format fmt {[ "prompt" := text_of (prompt node) ]};
    Ok (print_to file text out)
  else Ok out.

Definition print_config_node
    (print_node_tree : option addr → bool → stream → output → result output)
    (self : DefConfigPrinter) (node : Node) (force_print : bool) (file : stream)
    (out : output) : result output :=
  let need_new_line := false in
  '(out, need_new_line) ←
    ((if truthy (prompt node) then
        out ← print_node_prompt self node file out;
        out ← (if print_help self && truthy (help node)
                then print_node_help self node file out else Ok out);
        out ← (if print_location self
                then print_node_location self node file out else Ok out);
        Ok (out, true)
      else Ok (out, need_new_line)) : result (output * bool));
  out ← (if print_comment self then print_node_comment self node file out else Ok out);
  '(out, need_new_line) ←
    ((if bool_decide (is_Some (config node)) || print_orig_config self || force_print then
        out ← print_node_config self node file out;
        Ok (out, true)
      else Ok (out, need_new_line)) : result (output * bool));
  let out := if (need_new_line : bool) then print_to file "" out else (out : output) in
  match list_ node with
  | Some _ => print_node_tree (list_ node) false file out
  | None => Ok out
  end.

(** [print_node_tree]; each iteration of its loop uses one unit of [fuel]. *)
Fixpoint print_node_tree (fuel : nat) (self : DefConfigPrinter) (node : option addr)
    (force_print : bool) (file : stream) (out : output) : result output :=
  match node with
  | None => Ok out
  | Some a =>
      match fuel with
      | O => Err OutOfFuel
      | S fuel' =>
          match heap self !! a with
          | None => Err Dangling
          | Some n =>
              out ← (if defined n || force_print then
                       if is_menu n
                       then print_menu_node (print_node_tree fuel' self) self n force_print file out
                       else print_config_node (print_node_tree fuel' self) self n force_print file out
                     else Ok out);
              print_node_tree fuel' self (next n) force_print file out
          end
      end
  end.

(** [DefConfigPrinter.print] *)
Definition print (fuel : nat) (params : list param) (file : stream)
    (self : DefConfigPrinter) : result (DefConfigPrinter * output) :=
  self ← (match params with
           | [] => generate_print_format params self
           | _ => Ok self
           end);
  out ← (if (print_first_level self =? 1)%Z then
           match top_node self with
           | None => Err AttributeError
           | Some a =>
               match heap self !! a with
               | None => Err Dangling
               | Some top => print_node_tree fuel self (list_ top) false file []
               end
           end
         else print_node_tree fuel self (top_node self) false file []);
  Ok (self, out).

End Printer.

(** ** The command-line driver

    [main] reads the environment and the command line, sets up the
    environment of kconfiglib, builds a printer, loads the files and
    prints.  The argument parser, the constructor of the Kconfig object and
    the output file are collaborators; the [options] that [main] passes to
    the printer only switch on a warning of the Kconfig object. *)

(** [repr(s)] for a string: the quotes are single unless the string has a
    single quote and no double quote; the backslash, the quote in use and
    the characters that are not printable are escaped. *)
Definition double_quote : ascii := ascii_of_nat 34.

Definition hex_digit (n : nat) : ascii :=
  ascii_of_nat (if (n <? 10)%nat then 48 + n else 87 + n).

Definition isprintable (c : ascii) : bool :=
  let n := nat_of_ascii c in
  ((32 <=? n)%nat && (n <? 127)%nat) || ((161 <=? n)%nat && negb (n =? 173)%nat).

Definition repr_char (quote c : ascii) : string :=
  let n := nat_of_ascii c in
  if Ascii.eqb c quote || Ascii.eqb c "\"%char then String "\"%char (String c "")
  else if (n =? 9)%nat then "\t"
  else if (n =? 10)%nat then "\n"
  else if (n =? 13)%nat then "\r"
  else if isprintable c then String c ""
  else String "\"%char (String "x"%char
         (String (hex_digit (n / 16)) (String (hex_digit (n mod 16)) ""))).

Fixpoint repr_chars (quote : ascii) (s : string) : string :=
  match s with
  | EmptyString => EmptyString
  | String c r => repr_char quote c +:+ repr_chars quote r
  end.

Definition str_repr (s : string) : string :=
  let quote :=
    if str_mem "'"%char s && negb (str_mem double_quote s) then double_quote
    else "'"%char in
  String quote (repr_chars quote s +:+ String quote "").

(** [repr(l)] for a list of strings, which is also the text that an
    f-string gives for it. *)
Definition list_repr (l : list string) : string :=
  "[" +:+ join ", " (str_repr <$> l) +:+ "]".

(** [s.startswith(p)] *)
Definition startswith (s p : string) : bool := String.prefix p s.

(** [s.endswith("/")] *)
Fixpoint ends_with_slash (s : string) : bool :=
  match s with
  | EmptyString => false
  | String c EmptyString => Ascii.eqb c "/"%char
  | String _ r => ends_with_slash r
  end.

(** [os.path.join(a, b)] on a POSIX system *)
Definition path_join (a b : string) : string :=
  if startswith b "/" then b
  else if negb (str_nonempty a) || ends_with_slash a then a +:+ b
  else a +:+ "/" +:+ b.

(** What the parser finds on a command line that it accepts: the
    positional arguments, and for every option its value, or [None] when
    the option is absent. *)
Record command_line : Type := CommandLine {
  cl_load_files : list string;
  cl_merge : option (list string);
  cl_preload : option (list string);
  cl_kconfig : option string;
  cl_output : option string;
  cl_arch : option string;
  cl_srcarch : option string;
  cl_srctree : option string;
  cl_cross_compile : option string;
  cl_cc : option string;
  cl_ld : option string;
  cl_separator : bool;
  cl_with_help : bool;
  cl_with_orig_config : bool;
  cl_with_location : bool;
  cl_with_comment : bool;
  cl_verbose : bool;
}.

(** The namespace that [parser.parse_args()] returns. *)
Record arguments : Type := ParsedArgs {
  args_load_files : list string;
  args_merge : option (list string);
  args_preload : option (list string);
  args_kconfig : string;
  args_output : option string;
  args_arch : option string;
  args_srcarch : option string;
  args_srctree : string;
  args_cross_compile : string;
  args_cc : string;
  args_ld : string;
  args_separator : bool;
  args_with_help : bool;
  args_with_orig_config : bool;
  args_with_location : bool;
  args_with_comment : bool;
  args_verbose : bool;
}.

(** How [parser.parse_args()] ends: it returns, or it ends the program
    with [sys.exit(code)] after the writes [out], as argparse does for [-h]
    (the help text, status 0) and for a command line that the parser
    rejects (status 2). *)
Inductive parsed (A : Type) : Type :=
| Accepted (a : A)
| Stopped (code : Z) (out : output).
Arguments Accepted {A} a.
Arguments Stopped {A} code out.

(** The namespace for a command line that the parser of [main] accepts: an
    absent option has the [default] of its [add_argument] call, or [None]
    where no default is given. *)
Definition namespace (kconfig_file : string) (output_file arch : option string)
    (srctree cross_compile cc ld : string) (cl : command_line) : arguments :=
  {| args_load_files := cl_load_files cl;
     args_merge := cl_merge cl;
     args_preload := cl_preload cl;
     args_kconfig := default kconfig_file (cl_kconfig cl);
     args_output := match cl_output cl with Some o => Some o | None => output_file end;
     args_arch := match cl_arch cl with Some a => Some a | None => arch end;
     args_srcarch := cl_srcarch cl;
     args_srctree := default srctree (cl_srctree cl);
     args_cross_compile := default cross_compile (cl_cross_compile cl);
     args_cc := default cc (cl_cc cl);
     args_ld := default ld (cl_ld cl);
     args_separator := cl_separator cl;
     args_with_help := cl_with_help cl;
     args_with_orig_config := cl_with_orig_config cl;
     args_with_location := cl_with_location cl;
     args_with_comment := cl_with_comment cl;
     args_verbose := cl_verbose cl |}.

(** The namespace that the first part of [main] gets for an accepted
    command line: the defaults are taken from the environment. *)
Definition main_args (environ : gmap string string) (cl : command_line) : arguments :=
  let output_file : option string := None in
  let arch := environ !! "ARCH" in
  let srctree := "." in
  let kconfig_file := "Kconfig" in
  let cross_compile := default "" (environ !! "CROSS_COMPILE") in
  let cc := default (cross_compile +:+ "gcc") (environ !! "CC") in
  let ld := default (cross_compile +:+ "ld") (environ !! "LD") in
  namespace kconfig_file output_file arch srctree cross_compile cc ld cl.

(** [x if x else []] *)
Definition or_empty (x : option (list string)) : list string :=
  match x with
  | Some (y :: l) => y :: l
  | _ => []
  end.

(** The [if]/[elif] chain that gives [srcarch]. *)
Definition source_arch (args_srcarch arch : option string) : option string :=
  match args_srcarch with
  | Some s => Some s
  | None =>
      if bool_decide (arch = Some "i386") then Some "x86"
      else if bool_decide (arch = Some "x86_64") then Some "x86"
      else if bool_decide (arch = Some "sparc32") then Some "sparc"
      else if bool_decide (arch = Some "sparc64") then Some "sparc"
      else if bool_decide (arch = Some "parisc64") then Some "parisc"
      else arch
  end.

(** [if not tool.startswith(cross_compile): tool = f"{cross_compile}{tool}"],
    under [if cross_compile != ""] *)
Definition cross_tool (cross_compile tool : string) : string :=
  if str_nonempty cross_compile then
    if startswith tool cross_compile then tool else cross_compile +:+ tool
  else tool.

Section Driver.
Context `{KL : Kconfiglib}.

(** How a run of [main] ends: [sys.exit(code)], of [main] or of argparse,
    after the writes [out]; an exception of kconfiglib or of the printer
    that escapes; the [TypeError] of [os.environ[name] = None]; or the
    return of [main], with the environment, the printer and the writes. *)
Inductive outcome : Type :=
| Exit (code : Z) (out : output)
| Raise (e : error)
| RaiseTypeError
| Return (environ : gmap string string) (printer : DefConfigPrinter)
    (out : output).

(** What argparse makes of the command line, [sys.argv] without the name
    of the program, for the parser that [main] builds in the given
    environment. *)
Variable argparse : gmap string string → list string → parsed command_line.

(** [Kconfig(filename)]: the menu tree that kconfiglib parses from the
    file, in the environment that [main] has set up. *)
Variable new_Kconfig : gmap string string → string → result MenuNode.

(** Whether [open(output_file, "w")] succeeds. *)
Variable writable : string → bool.

(** [for line in lines: print(line)] *)
Definition print_lines (lines : list string) (out : output)
  : output :=
  foldl (λ out line, print_to Stdout line out) out lines.

(** The lines that [main] prints with [--verbose]. *)
Definition verbose_lines (arch cross_compile cc ld : string) (srcarch : option string)
    (srctree kconfig_file : string) (preload_files load_files merge_files : list string)
    (output_file : option string) : list string :=
  [ "## export ARCH=" +:+ arch;
    "## export CROSS_COMPILE=" +:+ cross_compile;
    "## export CC=" +:+ cc;
    "## export LD=" +:+ ld;
    "## export SRCARCH=" +:+ text_of srcarch;
    "## export srctree=" +:+ srctree;
    "## kconfig file = " +:+ kconfig_file;
    "## preload defconfig files = " +:+ list_repr preload_files;
    "## load defconfig files    = " +:+ list_repr load_files;
    "## merge defconfig files   = " +:+ list_repr merge_files;
    "## output file = " +:+ text_of output_file ].

(** The [format_params] dict that [main] builds from the flags. *)
Definition main_format_params (separator with_help with_orig_config with_location
    with_comment : bool) : list param :=
  (if separator then [P_separator_char_list ["="; "-"]] else []) ++
  (if with_help then [P_print_help true] else []) ++
  (if with_orig_config then [P_print_orig_config true] else []) ++
  (if with_location then [P_print_location true] else []) ++
  (if with_comment then [P_print_comment true] else []).

(** The second part of [main], from the parsed arguments on; [fuel] is the
    bound given to the loops of the printer. *)
Definition main_body (fuel : nat) (environ : gmap string string) (args : arguments)
  : outcome :=
  let load_files := or_empty (Some (args_load_files args)) in
  let merge_files := or_empty (args_merge args) in
  let preload_files := or_empty (args_preload args) in
  let output_file := args_output args in
  let kconfig_file := args_kconfig args in
  let arch := args_arch args in
  let srctree := args_srctree args in
  let cross_compile := args_cross_compile args in
  let cc := args_cc args in
  let ld := args_ld args in
  let separator := args_separator args in
  let with_help := args_with_help args in
  let with_orig_config := args_with_orig_config args in
  let with_location := args_with_location args in
  let with_comment := args_with_comment args in
  let verbose := args_verbose args in
  let srcarch := source_arch (args_srcarch args) arch in
  let cc := cross_tool cross_compile cc in
  let ld := cross_tool cross_compile ld in
  match arch with
  | None => Exit 1 (print_to Stdout "Error: Architecture is not specified." [])
  | Some arch =>
      let out :=
        if verbose then
          print_lines
            (verbose_lines arch cross_compile cc ld srcarch srctree kconfig_file
               preload_files load_files merge_files output_file) []
        else [] in
      let environ := <["ARCH" := arch]> environ in
      match srcarch with
      | None => RaiseTypeError
      | Some srcarch =>
          let environ := <["SRCARCH" := srcarch]> environ in
          let environ := <["CC" := cc]> environ in
          let environ := <["LD" := ld]> environ in
          let environ := <["srctree" := srctree]> environ in
          let run : result (DefConfigPrinter * output) :=
            top ← new_Kconfig environ (path_join srctree kconfig_file);
            printer ← init top;
            printer ← preload_config_files preload_files None printer;
            printer ← load_config_files load_files true None printer;
            printer ← load_config_files merge_files false None printer;
            let format_params :=
              main_format_params separator with_help with_orig_config with_location
                with_comment in
            printer ← generate_print_format format_params printer;
            match output_file with
            | None => print fuel [] Stdout printer
            | Some name =>
                if writable name then print fuel [] OutFile printer
                else Err (OSError name)
            end in
          match run with
          | Ok (printer, printed) => Return environ printer (out ++ printed)
          | Err e => Raise e
          end
      end
  end.

(** [parser.parse_args()], for the parser that [main] builds. *)
Definition parse_args (environ : gmap string string) (argv : list string)
  : parsed arguments :=
  match argparse environ argv with
  | Accepted cl => Accepted (main_args environ cl)
  | Stopped code out => Stopped code out
  end.

Definition main (fuel : nat) (environ : gmap string string) (argv : list string)
  : outcome :=
  match parse_args environ argv with
  | Accepted args => main_body fuel environ args
  | Stopped code out => Exit code out
  end.

End Driver.

(** ** A concrete collaborator

    Used to run the model on concrete inputs. *)

Module Concrete.

Fixpoint strip_prefix (p s : string) : option string :=
  match p with
  | EmptyString => Some s
  | String c p' =>
      match s with
      | String d s' => if Ascii.eqb c d then strip_prefix p' s' else None
      | EmptyString => None
      end
  end.

(** Splits [s] before the first occurrence of [c]. *)
Fixpoint split_at (c : ascii) (s : string) : option (string * string) :=
  match s with
  | EmptyString => None
  | String d r =>
      if Ascii.eqb c d then Some (EmptyString, s)
      else match split_at c r with
           | Some (a, b) => Some (String d a, b)
           | None => None
           end
  end.

(** Modelled from the spec: [Kconfig._set_match] is not in the sources; the
    spec gives the assignment syntax as [CONFIG_<NAME>=<value>]. *)
Definition spec_set_match (line : string) : option (string * string) :=
  match strip_prefix "CONFIG_" line with
  | Some rest =>
      match split_at "="%char rest with
      | Some (String c name, String _ val) => Some (String c name, val)
      | _ => None
      end
  | None => None
  end.

(** Modelled from the spec: [Kconfig._unset_match] is not in the sources;
    the spec gives the unset syntax as [# CONFIG_<NAME> is not set]. *)
Definition spec_unset_match (line : string) : option string :=
  match strip_prefix "# CONFIG_" line with
  | Some rest =>
      match split_at " "%char rest with
      | Some (String c name, tail) =>
          match strip_prefix " is not set" tail with
          | Some _ => Some (String c name)
          | None => None
          end
      | _ => None
      end
  | None => None
  end.

(** A collaborator whose symbols and choices are their names, whose
    dependency expressions are their values, and whose files are given by
    [files]. *)
Definition kconfiglib (files : list (string * config_file)) : Kconfiglib :=
  {| Symbol := string;
     Choice := option string;
     Expr := Z;
     sym_name := λ s, s;
     sym_nodes := λ _, true;
     config_string := λ _ s, "# CONFIG_" +:+ s +:+ " is not set" +:+ newline;
     choice_name := λ c, c;
     expr_value := λ _ e, e;
     set_match := spec_set_match;
     unset_match := spec_unset_match;
     syms_get := λ s, Some s;
     open_config := λ f, default NoFile ((list_to_map files : gmap string config_file) !! f) |}.

End Concrete.

(** ** Notions used to state the properties *)

Section Notions.
Context `{KL : Kconfiglib}.

(** Number of nodes of a menu forest. *)
Fixpoint size (menu : MenuNode) : nat :=
  match menu with
  | MNone => 0
  | MNode _ ml mn => S (size ml + size mn)
  end.

(** The reference to the first node of a forest stored from [base] on. *)
Definition head (base : addr) (menu : MenuNode) : option addr :=
  match menu with
  | MNone => None
  | MNode _ _ _ => Some base
  end.

(** The deepest level for which [make_node_tree] is called below a forest
    at level [lvl] (0 when there is none). *)
Fixpoint deep (lvl : nat) (menu : MenuNode) : nat :=
  match menu with
  | MNone => 0
  | MNode _ ml mn =>
      Nat.max (match ml with
               | MNone => 0
               | MNode _ _ _ => Nat.max (S lvl) (deep (S lvl) ml)
               end)
              (deep lvl mn)
  end.

(** The nodes reachable from [ptr] in the store [h] mirror the forest
    [menu]: the node for the k-th external node (in the order of the
    traversal) is the k-th one stored from [base] on, it refers to that
    external node, its [list] and [next] lead to the mirrors of the external
    [list] and [next], and its [parent] and [level] are those of its place. *)
Fixpoint mirrors (h : list Node) (parent_node : option addr) (lvl : nat)
    (base : addr) (menu : MenuNode) (ptr : option addr) : Prop :=
  match menu with
  | MNone => ptr = None
  | MNode d ml mn =>
      ptr = Some base ∧
      ∃ n, h !! base = Some n ∧
           menu_node n = d ∧ parent n = parent_node ∧ level n = lvl ∧
           mirrors h (Some base) (S lvl) (S base) ml (list_ n) ∧
           mirrors h parent_node lvl (S base + size ml) mn (next n)
  end.

(** [b] is a strict ancestor of [a]: it is reached from [a] by following
    [parent] one or more times. *)
Inductive ancestor (h : list Node) : addr → addr → Prop :=
| ancestor_parent a n b :
    h !! a = Some n → parent n = Some b → ancestor h b a
| ancestor_up a n p b :
    h !! a = Some n → parent n = Some p → ancestor h b p → ancestor h b a.

(** [a] is a node of the tree whose first node is [ptr]: it is reached by
    following [list] and [next]. *)
Inductive reach (h : list Node) : option addr → addr → Prop :=
| reach_here a n : h !! a = Some n → reach h (Some a) a
| reach_list a n b : h !! a = Some n → reach h (list_ n) b → reach h (Some a) b
| reach_next a n b : h !! a = Some n → reach h (next n) b → reach h (Some a) b.

(** The attributes of a node that are fixed once its subtree is built. *)
Definition static (n : Node) :=
  (menu_node n, parent n, level n, list_ n, config n,
   (is_symbol n, is_choice n, is_menu n, prompt n, help n)).

(** From address [k] on, a [parent] reference leads to an earlier node, not
    before [k]. *)
Definition wf_from (k : nat) (h : list Node) : Prop :=
  ∀ a n p, h !! a = Some n → parent n = Some p → k ≤ a → k ≤ p < a.

(** From address [k] on, the parent of a defined node is defined, unless it
    is the node [x] that the propagation loop is about to mark. *)
Definition pclosed_exc (k : nat) (h : list Node) (x : option addr) : Prop :=
  ∀ a n p, h !! a = Some n → k ≤ a → defined n = true → parent n = Some p →
    Some p = x ∨ ∃ np, h !! p = Some np ∧ defined np = true.

Definition pclosed (k : nat) (h : list Node) : Prop := pclosed_exc k h None.

(** From address [k] on, a node is defined because it carries an assignment
    or because one of its children is defined. *)
Definition justified (k : nat) (h : list Node) : Prop :=
  ∀ a n, h !! a = Some n → k ≤ a → defined n = true →
    is_Some (config n) ∨
    ∃ c nc, k ≤ c ∧ h !! c = Some nc ∧ parent nc = Some a ∧ defined nc = true.

(** [n'] is a later state of the node [n]. *)
Definition keeps (n n' : Node) : Prop :=
  static n' = static n ∧ (defined n = true → defined n' = true).

(** The store [h'] is a later state of the store [h]: every node of [h] is
    kept, except that the node [x], if any, has got [b] as its [next];
    below address [k] no [defined] flag has changed. *)
Definition heap_step (k : nat) (x : option addr) (b : addr) (h h' : list Node) : Prop :=
  ∀ a n, h !! a = Some n →
    ∃ n', h' !! a = Some n' ∧ keeps n n' ∧
          next n' = (if decide (x = Some a) then Some b else next n) ∧
          (a < k → defined n' = defined n).

(** What [make_node_loop] returns: the [first_node] of the loop. *)
Definition loop_result (menu : MenuNode) (first_node prev_node : option addr)
    (base : addr) : option addr :=
  match menu with
  | MNone => first_node
  | MNode _ _ _ =>
      match prev_node with
      | Some _ => first_node
      | None => Some base
      end
  end.

(** The node whose [next] the loop sets first: [prev_node], when the loop
    runs at all. *)
Definition linked (menu : MenuNode) (prev_node : option addr) : option addr :=
  match menu with
  | MNone => None
  | MNode _ _ _ => prev_node
  end.

(** The attributes other than the store and [max_level] are the same. *)
Definition same_attrs (self self' : DefConfigPrinter) : Prop :=
  set_max_level (set_heap self' (heap self)) (max_level self) = self.

(** The state [self'] in which [make_node_loop] leaves the printer when it
    is run in the state [self]. *)
Record loop_post (k : nat) (menu : MenuNode) (parent_node : option addr) (lvl : nat)
    (prev_node : option addr) (self self' : DefConfigPrinter) : Prop := LoopPost {
  lp_attrs : same_attrs self self';
  lp_max : max_level self' = Nat.max (max_level self) (deep lvl menu);
  lp_len : length (heap self') = length (heap self) + size menu;
  lp_wf : wf_from k (heap self');
  lp_closed : pclosed k (heap self');
  lp_old : heap_step k (linked menu prev_node) (length (heap self)) (heap self) (heap self');
  lp_mirrors :
    mirrors (heap self') parent_node lvl (length (heap self)) menu
      (head (length (heap self)) menu);
  lp_config :
    ∀ a n ci, length (heap self) ≤ a → heap self' !! a = Some n → config n = Some ci →
      ∃ name, defined_config_dict self !! name = Some ci;
  lp_just : justified k (heap self');
}.

(** The state after the children of the node at [b] have been built and
    stored in its [list]. *)
Record children_post (k : nat) (d : menu_data) (ml : MenuNode) (pn : option addr)
    (lvl : nat) (self self4 : DefConfigPrinter) : Prop := ChildrenPost {
  cp_attrs : same_attrs self self4;
  cp_max : max_level self4 =
           Nat.max (max_level self)
             (match ml with MNone => 0 | MNode _ _ _ => Nat.max (S lvl) (deep (S lvl) ml) end);
  cp_len : length (heap self4) = S (length (heap self)) + size ml;
  cp_wf : wf_from k (heap self4);
  cp_closed : pclosed k (heap self4);
  cp_old : heap_step k None 0 (heap self) (heap self4);
  cp_node : ∃ n, heap self4 !! length (heap self) = Some n ∧ menu_node n = d ∧
                 parent n = pn ∧ level n = lvl ∧
                 list_ n = head (S (length (heap self))) ml ∧ next n = None;
  cp_mirrors : mirrors (heap self4) (Some (length (heap self))) (S lvl)
                 (S (length (heap self))) ml (head (S (length (heap self))) ml);
  cp_config : ∀ a n ci, length (heap self) ≤ a → heap self4 !! a = Some n →
                config n = Some ci → ∃ name, defined_config_dict self !! name = Some ci;
  cp_just : justified k (heap self4);
}.

(** [make_node_loop] returns on [menu], whatever its other arguments, in
    every state that the construction has reached. *)
Definition loop_ok (menu : MenuNode) : Prop :=
  ∀ k pn lvl first prev self,
    wf_from k (heap self) → pclosed k (heap self) → justified k (heap self) →
    k ≤ length (heap self) →
    (∀ p, pn = Some p → k ≤ p < length (heap self)) →
    (∀ p, prev = Some p → p < length (heap self)) →
    ∃ self', make_node_loop menu pn lvl first prev self =
               Ok (self', loop_result menu first prev (length (heap self))) ∧
             loop_post k menu pn lvl prev self self'.

(** Steps of the construction never reset a [defined] flag. *)
Definition defined_kept (h h' : list Node) : Prop :=
  ∀ a n, h !! a = Some n → defined n = true →
    ∃ n', h' !! a = Some n' ∧ defined n' = true.

(** *** The loader *)

(** What the loop of [load_config] does with a line. *)
Inductive line_kind : Type :=
| Assignment (name : string)   (* matched by [set_match] or [unset_match] *)
| CommentLine                  (* otherwise, begins with the comment marker *)
| OtherLine.                   (* anything else *)

Definition classify (line : string) : line_kind :=
  match set_match (rstrip line) with
  | Some (name, _) => Assignment name
  | None =>
      match unset_match (rstrip line) with
      | Some name => Assignment name
      | None => if comment_match (rstrip line) then CommentLine else OtherLine
      end
  end.

Definition is_comment (line : string) : Prop := classify line = CommentLine.

(** The text of a line as the file has it, without its line terminator. *)
Fixpoint chomp (line : string) : string :=
  match line with
  | EmptyString => EmptyString
  | String c r =>
      match r with
      | EmptyString => if (nat_of_ascii c =? 10)%nat then EmptyString else line
      | String _ _ => String c (chomp r)
      end
  end.

(** The records of a list of files, in the order in which
    [load_config_files] stores them. *)
Definition records_of (files : list string) : list config_info :=
  flat_map (λ f, match open_config f with
                 | Lines lines => scan lines
                 | _ => []
                 end) files.

(** The last record for [name] in a list of records. *)
Definition last_record (name : string) (records : list config_info) : option config_info :=
  last (filter (λ ci, ci_name ci = name) records).

(** Every entry of the table is a record of some readable file. *)
Definition from_files (self : DefConfigPrinter) : Prop :=
  ∀ name ci, defined_config_dict self !! name = Some ci →
    ∃ f lines, open_config f = Lines lines ∧ ci ∈ scan lines.

(** Modelled from the spec: [Kconfig.load_config] is not in the sources; the
    spec gives the fold of a file into a table as [load(records, replace)]:
    with [replace] the table is cleared first, and then every record
    overwrites the entry of its name. *)
Definition table_load {V : Type} (records : list (string * V)) (replace : bool)
    (t : gmap string V) : gmap string V :=
  foldl (λ t r, <[r.1 := r.2]> t) (if replace then ∅ else t) records.

(** Modelled from the spec: the table of the Kconfig object after the calls
    it has received, when [content] gives the records of a file. *)
Definition kconf_table {V : Type} (content : string → list (string * V))
    (calls : kconf_state) : gmap string V :=
  foldl (λ t c, table_load (content (call_file c)) (call_replace c) t) ∅ calls.

(** The calls that [preload_config_files] makes. *)
Definition preload_calls (files : list string) (verbose : option bool) : list kconf_call :=
  match files with
  | [] => []
  | f :: rest => KCall f true verbose :: ((λ g, KCall g false verbose) <$> rest)
  end.

(** The templates have one entry for each level up to [max_level], and
    every node of the annotated tree finds its templates. *)
Definition lookups_ok (self : DefConfigPrinter) : Prop :=
  (length (print_prompt_format self) = max_level self + 1 ∧
   length (print_menu_end_format self) = max_level self + 1 ∧
   length (print_help_format self) = max_level self + 1 ∧
   length (print_help_line_format self) = max_level self + 1 ∧
   length (print_orig_config_format self) = max_level self + 1 ∧
   length (print_location_format self) = max_level self + 1) ∧
  ∀ a, reach (heap self) (top_node self) a →
    ∃ n, heap self !! a = Some n ∧ level n ≤ max_level self ∧
         is_Ok (index (print_prompt_format self) (level n)) ∧
         is_Ok (index (print_menu_end_format self) (level n)) ∧
         is_Ok (index (print_help_format self) (level n)) ∧
         is_Ok (index (print_help_line_format self) (level n)) ∧
         is_Ok (index (print_orig_config_format self) (level n)) ∧
         is_Ok (index (print_location_format self) (level n)).


End Notions.

(** ** Further notions *)

(** *** Templates *)

(** Text without braces: [str.format] copies it. *)
Fixpoint brace_free (s : string) : bool :=
  match s with
  | EmptyString => true
  | String c r => negb (Ascii.eqb c "{"%char) && negb (Ascii.eqb c "}"%char) && brace_free r
  end.

(** A field name that the model of [str.format] reads up to its closing brace. *)
Fixpoint field_chars (s : string) : bool :=
  match s with
  | EmptyString => true
  | String c r => negb (field_special c) && negb (Ascii.eqb c "}"%char) && field_chars r
  end.

(** A template as a sequence of literal text, replacement fields and
    escaped braces. *)
Inductive seg : Type :=
| Lit (s : string)
| Field (name : string)
| LBrace
| RBrace.

(** The literal text has no brace, and the field has a plain name. *)
Definition seg_ok (x : seg) : bool :=
  match x with
  | Lit s => brace_free s
  | Field n => str_nonempty n && field_chars n
  | LBrace | RBrace => true
  end.

(** The template string of a sequence. *)
Fixpoint render (l : list seg) : string :=
  match l with
  | [] => ""
  | Lit s :: r => s +:+ render r
  | Field n :: r => "{" +:+ n +:+ "}" +:+ render r
  | LBrace :: r => "{{" +:+ render r
  | RBrace :: r => "}}" +:+ render r
  end.

(** The sequence with its fields replaced by the keyword arguments. *)
Fixpoint subst (kw : gmap string string) (l : list seg) : result string :=
  match l with
  | [] => Ok ""
  | Lit s :: r => result_map (String.append s) (subst kw r)
  | Field n :: r => v ← format_lookup kw n; result_map (String.append v) (subst kw r)
  | LBrace :: r => result_map (String.append "{") (subst kw r)
  | RBrace :: r => result_map (String.append "}") (subst kw r)
  end.

(** The names of the replacement fields of a sequence. *)
Definition fields_of (l : list seg) : list string :=
  flat_map (λ x, match x with Field n => [n] | _ => [] end) l.

Section MoreNotions.
Context `{KL : Kconfiglib}.

(** The template [t] can be filled in by any keyword arguments that give
    the [keys]. *)
Definition fills (t : string) (keys : list string) : Prop :=
  ∀ kw : gmap string string, (∀ k, k ∈ keys → is_Some (kw !! k)) → is_Ok (format t kw).

(** The seven format strings are those that [__init__] sets. *)
Definition default_formats (f : format_params) : Prop :=
  fp_separator_format f = fp_separator_format default_format_params ∧
  fp_prompt_format f = fp_prompt_format default_format_params ∧
  fp_help_format f = fp_help_format default_format_params ∧
  fp_help_line_format f = fp_help_line_format default_format_params ∧
  fp_orig_config_format f = fp_orig_config_format default_format_params ∧
  fp_location_format f = fp_location_format default_format_params ∧
  fp_menu_end_format f = fp_menu_end_format default_format_params.

(** The separator of a level whose separator character is [c], as the
    default [separator_format] gives it, cut to the column limit. *)
Definition separator_of (f : format_params) (c : string) (lvl : nat) : string :=
  str_slice_to
    (str_repeat (fp_separator_indent_char f) lvl +:+ " " +:+ str_mul c (fp_print_max_column f))
    (fp_print_max_column f - 1).

(** The templates of a level under the default format strings. *)
Definition default_templates (f : format_params) (c : string) (lvl : nat) : templates :=
  let prompt_indent := str_repeat (fp_prompt_indent_char f) lvl in
  let info_indent := str_repeat (fp_info_indent_char f) lvl in
  let separator := separator_of f c lvl in
  {| t_prompt := "#" +:+ separator +:+ newline +:+
                 "#" +:+ prompt_indent +:+ " {prompt}" +:+ newline +:+
                 "#" +:+ separator;
     t_menu_end := "#" +:+ prompt_indent +:+ " end of {prompt}" +:+ newline;
     t_help := "#" +:+ info_indent +:+ " help" +:+ newline +:+ "{help}" +:+ newline +:+
               "#" +:+ info_indent;
     t_help_line := "#" +:+ info_indent +:+ "     {help_line}";
     t_orig_config := "#" +:+ info_indent +:+ " {config}";
     t_location := "#" +:+ info_indent +:+ " {filename} : {linenr}" +:+ newline +:+
                   "#" +:+ info_indent |}.

(** The local [separator_char_list] of [generate_print_format] for [n]
    levels. *)
Definition separator_chars (f : format_params) (n : nat) : list string :=
  slice_assign (replicate n "") (fp_print_first_level f)
    (fp_print_first_level f + Z.of_nat (length (fp_separator_char_list f)))
    (fp_separator_char_list f).

(** The templates of all the levels under the default format strings. *)
Definition default_level_templates (f : format_params) (n : nat) : list templates :=
  (λ lvl, default_templates f (default "" (separator_chars f n !! lvl)) lvl) <$> seq 0 n.

(** The fields that [generate_print_format] offers to [separator_format]. *)
Definition separator_fields : list string :=
  [ "prompt_indent"; "separator_indent"; "info_indent"; "separator_line"; "prompt";
    "help"; "help_line"; "config"; "filename"; "linenr" ].

(** The format strings are the defaults, and neither the indentation
    characters nor the separator characters contain a brace. *)
Definition plain_params (f : format_params) : Prop :=
  default_formats f ∧
  brace_free (fp_prompt_indent_char f) = true ∧
  brace_free (fp_separator_indent_char f) = true ∧
  brace_free (fp_info_indent_char f) = true ∧
  Forall (λ c, brace_free c = true) (fp_separator_char_list f).

(** *** The annotated tree *)

(** The entry that the matching step of [make_node_tree] looks up for the
    external node [d]: the entry of the name of its item, when its
    dependency evaluates to a value above 0. *)
Definition matched (self : DefConfigPrinter) (d : menu_data) : option config_info :=
  if (0 <? expr_value (kconf_calls (kconf self)) (mn_dep d))%Z then
    match item_name (mn_item d) with
    | Some name => defined_config_dict self !! name
    | None => None
    end
  else None.

(** The attributes that [Node.__init__] computes from the external node. *)
Definition derived (n : Node) : Prop :=
  is_symbol n = is_symbol (new_Node (menu_node n) None 0) ∧
  is_choice n = is_choice (new_Node (menu_node n) None 0) ∧
  is_menu n = is_menu (new_Node (menu_node n) None 0) ∧
  prompt n = mn_prompt (menu_node n) ∧
  help n = mn_help (menu_node n).

(** A node as the construction leaves it. *)
Definition annotated (self : DefConfigPrinter) (n : Node) : Prop :=
  derived n ∧ config n = matched self (menu_node n) ∧
  (is_Some (config n) → defined n = true).

Definition annotated_from (k : nat) (self : DefConfigPrinter) (h : list Node) : Prop :=
  ∀ a n, h !! a = Some n → k ≤ a → annotated self n.

(** *** The table and the states of a printer *)

(** The file can be opened and read. *)
Definition readable (f : string) : Prop := ∃ lines, open_config f = Lines lines.

(** The error of [Kconfig.load_config] on a file that is not readable. *)
Definition load_error (f : string) : error :=
  match open_config f with
  | NotText => KconfigError f
  | _ => OSError f
  end.

(** The table holds, for every name, the last record of that name in the
    list. *)
Definition tables_agree (self : DefConfigPrinter) : Prop :=
  ∀ name, defined_config_dict self !! name = last_record name (defined_config_list self).

(** The states that a printer goes through: the one that [__init__]
    leaves, and those that the public methods lead to. *)
Inductive usable : DefConfigPrinter → Prop :=
| usable_init top self :
    init top = Ok self → usable self
| usable_preload files verbose self self' :
    usable self → preload_config_files files verbose self = Ok self' → usable self'
| usable_load files replace verbose self self' :
    usable self → load_config_files files replace verbose self = Ok self' → usable self'
| usable_format params self self' :
    usable self → generate_print_format params self = Ok self' → usable self'
| usable_print fuel params file self self' out :
    usable self → print fuel params file self = Ok (self', out) → usable self'.

(** *** Printing *)

(** The printer with its comments switched off. *)
Definition comments_off (self : DefConfigPrinter) : DefConfigPrinter :=
  MkPrinter (kconf self) (defined_config_list self) (defined_config_dict self)
    (max_level self) (level_size self) (top_node self) (heap self)
    (set_param (print_format_params self) (P_print_comment false))
    (print_first_level self) false (print_help self)
    (print_orig_config self) (print_location self) (print_prompt_format self)
    (print_menu_end_format self) (print_location_format self) (print_help_format self)
    (print_help_line_format self) (print_orig_config_format self).

(** The writes [out] are the writes [plain] with comment lines in between:
    each of them is the comment of the record that a node of the store
    carries, written to [sys.stdout] by a printer that prints comments. *)
Inductive with_comments (self : DefConfigPrinter) : output → output → Prop :=
| with_comments_nil :
    with_comments self [] []
| with_comments_write w out plain :
    with_comments self out plain → with_comments self (w :: out) (w :: plain)
| with_comments_comment a n ci out plain :
    print_comment self = true → heap self !! a = Some n → config n = Some ci →
    with_comments self out plain →
    with_comments self ((Stdout, ci_comment ci +:+ newline) :: out) plain.

(** The function [F], which appends to the writes made so far, appends
    [ws]. *)
Definition writes (F : output → result output) (ws : output) : Prop :=
  ∀ out, F out = Ok (out ++ ws).

(** [F'] does what [F] does, apart from the comments: when [F] returns,
    both append the same writes whatever the writes so far are, those of
    [F'] go to [file], and those of [F] are these with comment lines in
    between. *)
Definition but_comments (self : DefConfigPrinter) (file : stream)
    (F F' : output → result output) : Prop :=
  ∀ out out', F out = Ok out' →
    ∃ ws plain, writes F ws ∧ writes F' plain ∧ with_comments self ws plain ∧
                Forall (λ w, w.1 = file) plain.

(** The part of [print_menu_node] and [print_config_node] before the
    children. *)
Definition print_node_head (self : DefConfigPrinter) (node : Node) (force_print : bool)
    (file : stream) (out : output) : result output :=
  let need_new_line := false in
  '(out, need_new_line) ←
    ((if truthy (prompt node) then
        out ← print_node_prompt self node file out;
        out ← (if print_help self && truthy (help node)
                then print_node_help self node file out else Ok out);
        out ← (if print_location self
                then print_node_location self node file out else Ok out);
        Ok (out, true)
      else Ok (out, need_new_line)) : result (output * bool));
  out ← (if print_comment self then print_node_comment self node file out else Ok out);
  '(out, need_new_line) ←
    ((if bool_decide (is_Some (config node)) || print_orig_config self || force_print then
        out ← print_node_config self node file out;
        Ok (out, true)
      else Ok (out, need_new_line)) : result (output * bool));
  Ok (if (need_new_line : bool) then print_to file "" out else out).

(** The printer has templates for level [l], and they can be filled in
    with what the printing functions pass. *)
Definition fillable (self : DefConfigPrinter) (l : nat) : Prop :=
  (∃ t, print_prompt_format self !! l = Some t ∧ fills t ["prompt"]) ∧
  (∃ t, print_menu_end_format self !! l = Some t ∧ fills t ["prompt"]) ∧
  (∃ t, print_help_format self !! l = Some t ∧ fills t ["help"]) ∧
  (∃ t, print_help_line_format self !! l = Some t ∧ fills t ["help_line"]) ∧
  (∃ t, print_orig_config_format self !! l = Some t ∧ fills t ["config"]) ∧
  (∃ t, print_location_format self !! l = Some t ∧ fills t ["filename"; "linenr"]).

(** *** The driver *)

(** The environment that [main] sets up before it builds the printer. *)
Definition main_environ (environ : gmap string string) (args : arguments)
    (arch srcarch : string) : gmap string string :=
  <["srctree" := args_srctree args]>
    (<["LD" := cross_tool (args_cross_compile args) (args_ld args)]>
       (<["CC" := cross_tool (args_cross_compile args) (args_cc args)]>
          (<["SRCARCH" := srcarch]> (<["ARCH" := arch]> environ)))).

(** The stream that [main] prints the tree to. *)
Definition main_stream (args : arguments) : stream :=
  match args_output args with
  | None => Stdout
  | Some _ => OutFile
  end.

End MoreNotions.

(** ** A concrete run

    A small Kconfig tree and three snapshot files, on which the statements
    below are evaluated. *)

Module Example.

Definition line (text : string) : string := text +:+ newline.

Definition files : list (string * config_file) :=
  [ ("a.conf", Lines [ line "# note  ";
                       line "CONFIG_A=y  ";
                       line "";
                       line "# stray";
                       line "";
                       line "# CONFIG_B is not set" ]);
    ("b.conf", Lines [ line "CONFIG_C=1" ]);
    ("pre.conf", Lines [ line "CONFIG_P=y" ]);
    ("latin1.conf", NotText) ].

#[local] Instance kconfiglib : Kconfiglib := Concrete.kconfiglib files.

Definition symbol (name : string) (linenr : Z) (mlist mnext : MenuNode) : MenuNode :=
  MNode (MenuData (ItemSymbol name) false (Some name) None 2%Z "Kconfig" linenr)
    mlist mnext.

(** menu "Main menu" > choice "Choice" { A, C > E }, B, P *)
Definition top : MenuNode :=
  MNode (MenuData MENU true (Some "Main menu") None 2%Z "Kconfig" 1%Z)
    (MNode (MenuData (ItemChoice None) true (Some "Choice") None 2%Z "Kconfig" 2%Z)
       (symbol "A" 3 MNone
          (symbol "C" 4 (symbol "E" 5 MNone MNone) MNone))
       (symbol "B" 6 MNone
          (symbol "P" 7 MNone MNone)))
    MNone.

Definition unwrap (r : result DefConfigPrinter) : DefConfigPrinter :=
  match r with
  | Ok p => p
  | Err _ => blank MNone
  end.

(** The printer after [__init__]. *)
Definition p0 : DefConfigPrinter := Eval vm_compute in unwrap (init top).

(** ... after [load_config_files(["a.conf"], replace=True)]. *)
Definition p1 : DefConfigPrinter :=
  Eval vm_compute in unwrap (load_config_files ["a.conf"] true None p0).

(** ... after a further [load_config_files(["b.conf"], replace=True)]. *)
Definition p2 : DefConfigPrinter :=
  Eval vm_compute in unwrap (load_config_files ["b.conf"] true None p1).

(** The printer after [preload_config_files(["pre.conf", "a.conf"])]. *)
Definition q1 : DefConfigPrinter :=
  Eval vm_compute in unwrap (preload_config_files ["pre.conf"; "a.conf"] None p0).

(** ... and after a following [load_config_files(["b.conf"], replace=True)]. *)
Definition q2 : DefConfigPrinter :=
  Eval vm_compute in unwrap (load_config_files ["b.conf"] true None q1).

(** [p1] with comments enabled. *)
Definition p1c : DefConfigPrinter :=
  Eval vm_compute in unwrap (generate_print_format [P_print_comment true] p1).

(** The records of the files, for the table of the Kconfig object. *)
Definition content (f : string) : list (string * string) :=
  if String.eqb f "pre.conf" then [("P", "y")]
  else if String.eqb f "a.conf" then [("A", "y"); ("B", "n")]
  else if String.eqb f "b.conf" then [("C", "1")]
  else [].

End Example.

(** ** A concrete run of the driver *)

Module Run.

#[local] Existing Instance Example.kconfiglib.

(** The printer after [load_config_files([])] on a new printer: its table
    is empty. *)
Definition e1 : DefConfigPrinter :=
  Eval vm_compute in Example.unwrap (load_config_files [] true None Example.p0).

(** [p1] with separators. *)
Definition p1s : DefConfigPrinter :=
  Eval vm_compute in
    Example.unwrap (generate_print_format [P_separator_char_list ["="; "-"]] Example.p1).

(** What [print] writes for [p1c] when a file is given. *)
Definition written_p1c : output :=
  Eval vm_compute in
    match print 7 [] OutFile Example.p1c with
    | Ok (_, out) => out
    | Err _ => []
    end.

(** The node of the symbol [C] in [p1]. *)
Definition node_C : Node :=
  Eval vm_compute in default (new_Node (MenuData MENU false None None 0%Z "" 0%Z) None 0)
                       (heap Example.p1 !! 3).

(** A node at level 2 for a symbol with a help text of two lines. *)
Definition node_H : Node :=
  new_Node (MenuData (ItemSymbol "H") false (Some "H") (Some (Example.line "one" +:+ "two"))
              2%Z "Kconfig" 8%Z) (Some 1) 2.

(** kconfiglib parses ["./Kconfig"] into the tree of the example. *)
Definition new_Kconfig (environ : gmap string string) (filename : string)
  : result MenuNode :=
  if String.eqb filename "./Kconfig" then Ok Example.top else Err (OSError filename).

Definition writable (name : string) : bool := true.

Definition environ : gmap string string :=
  <["ARCH" := "x86_64"]> {["CROSS_COMPILE" := "arm-"]}.

(** The command line of the run, [sys.argv] without the name of the
    program, and what the parser finds on it. *)
Definition argv : list string :=
  ["-p"; "pre.conf"; "-m"; "b.conf"; "-o"; "out.config"; "--separator"; "--with-comment";
   "-v"; "a.conf"].

Definition cl : command_line :=
  {| cl_load_files := ["a.conf"];
     cl_merge := Some ["b.conf"];
     cl_preload := Some ["pre.conf"];
     cl_kconfig := None;
     cl_output := Some "out.config";
     cl_arch := None;
     cl_srcarch := None;
     cl_srctree := None;
     cl_cross_compile := None;
     cl_cc := None;
     cl_ld := None;
     cl_separator := true;
     cl_with_help := false;
     cl_with_orig_config := false;
     cl_with_location := false;
     cl_with_comment := true;
     cl_verbose := true |}.

(** A stand-in for argparse that knows the command line of the run and
    takes every other one for a command line that the parser rejects, as
    it does [--frobnicate]: argparse then exits with status 2, and what it
    writes goes to [sys.stderr]. *)
Definition argparse (environ : gmap string string) (args : list string)
  : parsed command_line :=
  if bool_decide (args = argv) then Accepted cl else Stopped 2 [].

Definition result_of_main : outcome :=
  Eval vm_compute in main argparse new_Kconfig writable 7 environ argv.

Definition environ_of_main : gmap string string :=
  Eval vm_compute in
    match result_of_main with
    | Return e _ _ => e
    | _ => ∅
    end.

Definition printer_of_main : DefConfigPrinter :=
  Eval vm_compute in
    match result_of_main with
    | Return _ p _ => p
    | _ => blank MNone
    end.

Definition out_of_main : output :=
  Eval vm_compute in
    match result_of_main with
    | Return _ _ o => o
    | _ => []
    end.

End Run.

(** ** A concrete run with a preload file

    A Kconfig object that shows the values it holds, on a tree in which the
    symbol [Q] is below the symbol [P]. *)

Module Preloaded.

Definition files : list (string * config_file) :=
  [ ("pre.conf", Lines [ Example.line "CONFIG_P=y" ]);
    ("q.conf", Lines [ Example.line "CONFIG_Q=y" ]) ].

(** The records of the files, for the table of the Kconfig object. *)
Definition content (f : string) : list (string * string) :=
  if String.eqb f "pre.conf" then [("P", "y")]
  else if String.eqb f "q.conf" then [("Q", "y")]
  else [].

(** Modelled from the spec: [Symbol.config_string] is not in the sources;
    the spec calls it the canonical set/unset form of the symbol.  It is
    the assignment of the value that the table of the Kconfig object holds
    for the symbol, and the unset form when the table holds none. *)
Definition spec_config_string (calls : kconf_state) (name : string) : string :=
  match kconf_table content calls !! name with
  | Some val => "CONFIG_" +:+ name +:+ "=" +:+ val +:+ newline
  | None => "# CONFIG_" +:+ name +:+ " is not set" +:+ newline
  end.

#[local] Instance kconfiglib : Kconfiglib :=
  {| Symbol := string;
     Choice := option string;
     Expr := Z;
     sym_name := λ s, s;
     sym_nodes := λ _, true;
     config_string := spec_config_string;
     choice_name := λ c, c;
     expr_value := λ _ e, e;
     set_match := Concrete.spec_set_match;
     unset_match := Concrete.spec_unset_match;
     syms_get := λ s, Some s;
     open_config := λ f, default NoFile ((list_to_map files : gmap string config_file) !! f) |}.

(** menu "Main menu" > P > Q *)
Definition top : MenuNode :=
  MNode (MenuData MENU true (Some "Main menu") None 2%Z "Kconfig" 1%Z)
    (MNode (MenuData (ItemSymbol "P") false (Some "P") None 2%Z "Kconfig" 2%Z)
       (MNode (MenuData (ItemSymbol "Q") false (Some "Q") None 2%Z "Kconfig" 3%Z)
          MNone MNone)
       MNone)
    MNone.

(** [preload_config_files(["pre.conf"])], then
    [load_config_files(["q.conf"], replace=False)], then the templates with
    the original configuration of a symbol written as it is. *)
Definition printer : result DefConfigPrinter :=
  p ← init top;
  p ← preload_config_files ["pre.conf"] None p;
  p ← load_config_files ["q.conf"] false None p;
  generate_print_format [P_print_orig_config true; P_orig_config_format "{config}"] p.

(** The preload file, as the printer would read it, and the records of the
    file that is loaded. *)
Definition preloaded : config_file := open_config "pre.conf".

Definition loaded : list (string * string) :=
  (λ ci, (ci_name ci, ci_line ci)) <$> records_of ["q.conf"].

(** The prompt of every node of the printer, whether it is defined, and the
    name of the record it carries. *)
Definition nodes : result (list (option string * bool * option string)) :=
  p ← printer;
  Ok ((λ n, (prompt n, defined n, ci_name <$> config n)) <$> heap p).

(** What [print] writes. *)
Definition printed : result output :=
  p ← printer;
  '(_, out) ← print 3 [] Stdout p;
  Ok out.

End Preloaded.


(** * Properties *)

Section Theory.
Context `{KL : Kconfiglib}.

#[local] Arguments make_node_loop : simpl never.
#[local] Arguments match_config : simpl never.
#[local] Arguments deep : simpl never.

Lemma bind_Ok {A B} (f : A → result B) (a : A) : (Ok a ≫= f) = f a.
Proof. reflexivity. Qed.

Lemma keeps_refl (n : Node) : keeps n n.
Proof. by split. Qed.

Lemma keeps_trans (n1 n2 n3 : Node) : keeps n1 n2 → keeps n2 n3 → keeps n1 n3.
Proof. intros [E1 M1] [E2 M2]. split; [congruence | auto]. Qed.

Lemma static_fields (n n' : Node) :
  static n' = static n →
  menu_node n' = menu_node n ∧ parent n' = parent n ∧ level n' = level n ∧
  list_ n' = list_ n ∧ config n' = config n.
Proof. unfold static. intros E. by simplify_eq. Qed.

Lemma keeps_fields (n n' : Node) :
  keeps n n' →
  menu_node n' = menu_node n ∧ parent n' = parent n ∧ level n' = level n ∧
  list_ n' = list_ n ∧ config n' = config n.
Proof. intros [E _]. by apply static_fields. Qed.

Lemma keeps_with_defined (n : Node) : keeps n (with_defined n true).
Proof. by split. Qed.

Lemma heap_step_refl (k b : nat) (h : list Node) : heap_step k None b h h.
Proof. intros a n Ha. exists n. split_and!; auto using keeps_refl. Qed.

Lemma heap_step_trans_l (k b b' : nat) (x : option addr) (h1 h2 h3 : list Node) :
  heap_step k None b' h1 h2 → heap_step k x b h2 h3 → heap_step k x b h1 h3.
Proof.
  intros H12 H23 a n Ha.
  destruct (H12 a n Ha) as (n2 & Ha2 & K2 & N2 & D2).
  destruct (H23 a n2 Ha2) as (n3 & Ha3 & K3 & N3 & D3).
  exists n3. split_and!; [done|by eapply keeps_trans| |].
  - rewrite N3. simpl in N2. by rewrite N2.
  - intros Hk. rewrite D3, D2 by done. done.
Qed.

Lemma heap_step_trans_r (k b b' : nat) (x : option addr) (h1 h2 h3 : list Node) :
  heap_step k x b h1 h2 → heap_step k None b' h2 h3 → heap_step k x b h1 h3.
Proof.
  intros H12 H23 a n Ha.
  destruct (H12 a n Ha) as (n2 & Ha2 & K2 & N2 & D2).
  destruct (H23 a n2 Ha2) as (n3 & Ha3 & K3 & N3 & D3).
  exists n3. split_and!; [done|by eapply keeps_trans| |].
  - simpl in N3. by rewrite N3.
  - intros Hk. rewrite D3, D2 by done. done.
Qed.

Lemma mark_parents_Some (fuel : nat) (h : list Node) (a : addr) :
  mark_parents fuel h (Some a) =
  match h !! a with
  | None => Err Dangling
  | Some n =>
      if defined n then Ok h
      else match fuel with
           | O => Err OutOfFuel
           | S fuel' => mark_parents fuel' (<[a := with_defined n true]> h) (parent n)
           end
  end.
Proof. by destruct fuel. Qed.

(** The propagation loop terminates within its bound, only sets [defined]
    to true, and restores the closure of [defined] under [parent]. *)
Lemma mark_parents_ok (k fuel : nat) (h : list Node) (pn : option addr) :
  wf_from k h →
  pclosed_exc k h pn →
  (∀ p, pn = Some p → k ≤ p < length h ∧ p < fuel) →
  ∃ h', mark_parents fuel h pn = Ok h' ∧
        length h' = length h ∧
        wf_from k h' ∧
        pclosed k h' ∧
        heap_step k None 0 h h'.
Proof.
  revert h pn. induction fuel as [|fuel IH]; intros h pn Hwf Hcl Hpn.
  - destruct pn as [p|]; [destruct (Hpn p eq_refl); lia|].
    exists h. split_and!; auto using heap_step_refl.
  - destruct pn as [p|].
    2:{ exists h. split_and!; auto using heap_step_refl. }
    rewrite mark_parents_Some.
    destruct (Hpn p eq_refl) as [[Hkp Hlt] Hf].
    destruct (lookup_lt_is_Some_2 h p Hlt) as [n0 Hn0]. rewrite Hn0.
    destruct (defined n0) eqn:Hd.
    + exists h. split_and!; auto using heap_step_refl.
      intros a n q Ha Hka Hdn Hq. destruct (Hcl a n q Ha Hka Hdn Hq) as [E|?]; [|auto].
      right. injection E as ->. eauto.
    + set (h1 := <[p := with_defined n0 true]> h).
      assert (Hl1 : length h1 = length h) by apply length_insert.
      assert (Hwf1 : wf_from k h1).
      { intros a n q Ha Hq Hka. unfold h1 in Ha.
        destruct (decide (a = p)) as [->|Hne].
        - rewrite list_lookup_insert_eq in Ha by done. injection Ha as <-.
          simpl in Hq. eapply Hwf; eauto.
        - rewrite list_lookup_insert_ne in Ha by done. eapply Hwf; eauto. }
      assert (Hcl1 : pclosed_exc k h1 (parent n0)).
      { intros a n q Ha Hka Hdn Hq. unfold h1 in Ha |- *.
        destruct (decide (a = p)) as [->|Hne].
        - rewrite list_lookup_insert_eq in Ha by done. injection Ha as <-.
          simpl in Hq. left. congruence.
        - rewrite list_lookup_insert_ne in Ha by done. right.
          destruct (Hcl a n q Ha Hka Hdn Hq) as [E|(np & Hnp & Hdp)].
          + injection E as ->. exists (with_defined n0 true).
            rewrite list_lookup_insert_eq by done. done.
          + destruct (decide (q = p)) as [->|Hqp].
            * exists (with_defined n0 true). rewrite list_lookup_insert_eq by done. done.
            * exists np. rewrite list_lookup_insert_ne by done. done. }
      destruct (IH h1 (parent n0) Hwf1 Hcl1) as (h' & Hrun & Hlen & Hwf' & Hcl' & Hold).
      { intros q Hq. destruct (Hwf p n0 q Hn0 Hq Hkp). rewrite Hl1. lia. }
      exists h'. rewrite Hrun. split_and!; try done; try lia.
      eapply (heap_step_trans_l _ _ 0); [|exact Hold].
      intros a n Ha. unfold h1. destruct (decide (a = p)) as [->|Hne].
      * assert (n = n0) as -> by congruence.
        exists (with_defined n0 true). rewrite list_lookup_insert_eq by done.
        split_and!; [done|apply keeps_with_defined|done|lia].
      * exists n. rewrite list_lookup_insert_ne by done.
        split_and!; auto using keeps_refl.
Qed.


Lemma alter_back (f : Node → Node) (i a : nat) (h : list Node) (n' : Node) :
  alter f i h !! a = Some n' →
  ∃ n, h !! a = Some n ∧ ((a ≠ i ∧ n' = n) ∨ (a = i ∧ n' = f n)).
Proof.
  destruct (decide (i = a)) as [->|Hne].
  - rewrite list_lookup_alter_eq. destruct (h !! a) as [n|]; [|done].
    intros [= <-]. exists n. auto.
  - rewrite list_lookup_alter_ne by done. intros Ha. exists n'. auto.
Qed.

Lemma alter_forth (f : Node → Node) (i a : nat) (h : list Node) (n : Node) :
  h !! a = Some n →
  alter f i h !! a = Some (if decide (i = a) then f n else n).
Proof.
  intros Ha. destruct (decide (i = a)) as [->|Hne].
  - by rewrite list_lookup_alter_eq, Ha.
  - by rewrite list_lookup_alter_ne.
Qed.

Lemma wf_from_alter (k i : nat) (f : Node → Node) (h : list Node) :
  (∀ n, parent (f n) = parent n) → wf_from k h → wf_from k (alter f i h).
Proof.
  intros Hf Hwf a n' p Ha Hp Hk.
  destruct (alter_back _ _ _ _ _ Ha) as (n & Hn & [[_ ->]|[_ ->]]).
  - eapply Hwf; eauto.
  - rewrite Hf in Hp. eapply Hwf; eauto.
Qed.

Lemma pclosed_exc_alter (k i : nat) (x : option addr) (f : Node → Node) (h : list Node) :
  (∀ n, parent (f n) = parent n) → (∀ n, defined (f n) = defined n) →
  pclosed_exc k h x → pclosed_exc k (alter f i h) x.
Proof.
  intros Hp Hd Hcl a n' p Ha Hk Hdn Hpn.
  destruct (alter_back _ _ _ _ _ Ha) as (n & Hn & Hcase).
  assert (parent n' = parent n ∧ defined n' = defined n) as [E1 E2].
  { destruct Hcase as [[_ ->]|[_ ->]]; auto. }
  rewrite E1 in Hpn. rewrite E2 in Hdn.
  destruct (Hcl a n p Hn Hk Hdn Hpn) as [?|(np & Hnp & Hdp)]; [by left|right].
  exists (if decide (i = p) then f np else np).
  split; [by apply alter_forth|]. case_decide; [by rewrite Hd|done].
Qed.

(** Adding a fresh, undefined node whose parent is an earlier node. *)
Lemma alloc_ok (k : nat) (h : list Node) (n0 : Node) :
  wf_from k h → pclosed k h →
  (∀ p, parent n0 = Some p → k ≤ p < length h) → defined n0 = false →
  wf_from k (h ++ [n0]) ∧ pclosed k (h ++ [n0]) ∧ heap_step k None 0 h (h ++ [n0]).
Proof.
  intros Hwf Hcl Hp Hd. split_and!.
  - intros a n p Ha Hpn Hk. apply lookup_snoc_Some in Ha as [[_ Ha]|[-> <-]].
    + eapply Hwf; eauto.
    + apply Hp in Hpn. lia.
  - intros a n p Ha Hk Hdn Hpn. apply lookup_snoc_Some in Ha as [[_ Ha]|[-> <-]].
    + destruct (Hcl a n p Ha Hk Hdn Hpn) as [?|(np & Hnp & Hdp)]; [done|].
      right. exists np. split; [by apply lookup_app_l_Some|done].
    + congruence.
  - intros a n Ha. exists n. split_and!; auto using keeps_refl.
    by apply lookup_app_l_Some.
Qed.

(** Matching a node against the table: the call succeeds, and what it
    changes is the [defined] flag and the [config] of the node itself and
    the [defined] flag of its ancestors. *)
Lemma match_config_ok (k : nat) (self : DefConfigPrinter) (d : menu_data)
    (curr : addr) (pn : option addr) (h : list Node) (nc : Node) :
  wf_from k h → pclosed k h → k ≤ curr →
  h !! curr = Some nc → parent nc = pn →
  ∃ h', match_config self d curr pn h = Ok h' ∧
        length h' = length h ∧ wf_from k h' ∧ pclosed k h' ∧
        (∀ a n, a ≠ curr → h !! a = Some n →
           ∃ n', h' !! a = Some n' ∧ keeps n n' ∧ next n' = next n ∧
                 (a < k → defined n' = defined n)) ∧
        (∃ n', h' !! curr = Some n' ∧
               menu_node n' = menu_node nc ∧ parent n' = parent nc ∧
               level n' = level nc ∧ list_ n' = list_ nc ∧ next n' = next nc ∧
               (config n' = config nc ∨
                ∃ name ci, defined_config_dict self !! name = Some ci ∧
                           config n' = Some ci)).
Proof.
  intros Hwf Hcl Hk Hnc Hpn.
  assert (Hsame : ∃ h', Ok h = Ok h' ∧
        length h' = length h ∧ wf_from k h' ∧ pclosed k h' ∧
        (∀ a n, a ≠ curr → h !! a = Some n →
           ∃ n', h' !! a = Some n' ∧ keeps n n' ∧ next n' = next n ∧
                 (a < k → defined n' = defined n)) ∧
        (∃ n', h' !! curr = Some n' ∧
               menu_node n' = menu_node nc ∧ parent n' = parent nc ∧
               level n' = level nc ∧ list_ n' = list_ nc ∧ next n' = next nc ∧
               (config n' = config nc ∨
                ∃ name ci, defined_config_dict self !! name = Some ci ∧
                           config n' = Some ci))).
  { exists h. split_and!; auto.
    - intros a n _ Ha. exists n. split_and!; auto using keeps_refl.
    - exists nc. split_and!; auto. }
  unfold match_config.
  destruct (0 <? expr_value _ _)%Z; [|exact Hsame].
  destruct (item_name (mn_item d)) as [name|]; [|exact Hsame].
  destruct (defined_config_dict self !! name) as [ci|] eqn:Hci; [|exact Hsame].
  clear Hsame. cbv zeta.
  set (f := λ n : Node, with_config (with_defined n true) (Some ci)).
  set (h1 := alter f curr h).
  assert (Hl1 : length h1 = length h) by apply length_alter.
  assert (Hwf1 : wf_from k h1) by (by apply wf_from_alter).
  assert (Hcl1 : pclosed_exc k h1 pn).
  { intros a n' p Ha Hka Hdn Hp.
    destruct (alter_back _ _ _ _ _ Ha) as (n & Hn & [[Hne ->]|[-> ->]]).
    - destruct (Hcl a n p Hn Hka Hdn Hp) as [?|(np & Hnp & Hdp)]; [done|right].
      exists (if decide (curr = p) then f np else np).
      split; [by apply alter_forth|]. by case_decide.
    - left. simpl in Hp. assert (n = nc) as -> by congruence. congruence. }
  destruct (mark_parents_ok k (length h1) h1 pn Hwf1 Hcl1) as (h' & Hrun & Hlen & Hwf' & Hcl' & Hold).
  { intros p ->. destruct (Hwf curr nc p Hnc Hpn Hk). apply lookup_lt_Some in Hnc. lia. }
  exists h'. split_and!; try done; try lia.
  - intros a n Hne Ha.
    destruct (Hold a n) as (n' & Hn' & K & N & D).
    { unfold h1. by rewrite list_lookup_alter_ne. }
    exists n'. split_and!; auto.
  - destruct (Hold curr (f nc)) as (n' & Hn' & K & N & _).
    { unfold h1. by rewrite list_lookup_alter_eq, Hnc. }
    destruct (keeps_fields _ _ K) as (E1 & E2 & E3 & E4 & E5).
    exists n'. simpl in *.
    split_and!; try done. right. eauto.
Qed.

Lemma justified_fresh (h : list Node) : justified (length h) h.
Proof. intros a n Ha Hk. apply lookup_lt_Some in Ha. lia. Qed.

Lemma justified_alter (k i : nat) (f : Node → Node) (h : list Node) :
  (∀ n, parent (f n) = parent n) → (∀ n, defined (f n) = defined n) →
  (∀ n, config (f n) = config n) →
  justified k h → justified k (alter f i h).
Proof.
  intros Hp Hd Hc Hj a n' Ha Hk Hdn.
  destruct (alter_back _ _ _ _ _ Ha) as (n & Hn & Hcase).
  assert (config n' = config n ∧ defined n' = defined n) as [E1 E2].
  { destruct Hcase as [[_ ->]|[_ ->]]; auto. }
  rewrite E1. rewrite E2 in Hdn.
  destruct (Hj a n Hn Hk Hdn) as [?|(c & nc & Hkc & Hc' & Hpc & Hdc)]; [by left|right].
  exists c, (if decide (i = c) then f nc else nc).
  split_and!; [done|by apply alter_forth|by case_decide; rewrite ?Hp|by case_decide; rewrite ?Hd].
Qed.

Lemma justified_alloc (k : nat) (h : list Node) (n0 : Node) :
  defined n0 = false → justified k h → justified k (h ++ [n0]).
Proof.
  intros Hd Hj a n Ha Hk Hdn. apply lookup_snoc_Some in Ha as [[_ Ha]|[-> <-]]; [|congruence].
  destruct (Hj a n Ha Hk Hdn) as [?|(c & nc & Hkc & Hc' & Hpc & Hdc)]; [by left|right].
  exists c, nc. split_and!; try done. by apply lookup_app_l_Some.
Qed.

Lemma mark_parents_justified (k fuel : nat) :
  ∀ h pn h',
    justified k h →
    (∀ p, pn = Some p →
       k ≤ p ∧ ∃ c nc, k ≤ c ∧ h !! c = Some nc ∧ parent nc = Some p ∧ defined nc = true) →
    wf_from k h →
    mark_parents fuel h pn = Ok h' → justified k h'.
Proof.
  induction fuel as [|fuel IH]; intros h pn h' Hj Hpn Hwf.
  - destruct pn as [p|]; [|by intros [= <-]].
    rewrite mark_parents_Some. destruct (h !! p) as [n|]; [|done].
    destruct (defined n); [|done]. by intros [= <-].
  - destruct pn as [p|]; [|by intros [= <-]].
    rewrite mark_parents_Some. destruct (h !! p) as [n0|] eqn:Hp; [|done].
    destruct (defined n0) eqn:Hd; [by intros [= <-]|].
    destruct (Hpn p eq_refl) as (Hkp & c & nc & Hkc & Hc & Hpc & Hdc).
    assert (Hlt : p < length h) by (by eapply lookup_lt_Some).
    assert (Hlook : ∀ a n, h !! a = Some n →
              <[p := with_defined n0 true]> h !! a =
              Some (if decide (a = p) then with_defined n0 true else n)).
    { intros a n Ha. case_decide as E.
      - subst a. by apply list_lookup_insert_eq.
      - by rewrite list_lookup_insert_ne. }
    apply IH.
    + intros a n' Ha Hka Hdn.
      destruct (decide (a = p)) as [->|Hne].
      * right. exists c, (if decide (c = p) then with_defined n0 true else nc).
        split_and!; [done|by apply Hlook| |].
        -- case_decide as E; [|done]. subst c. simpl. congruence.
        -- by case_decide.
      * rewrite list_lookup_insert_ne in Ha by done.
        destruct (Hj a n' Ha Hka Hdn) as [?|(c' & nc' & Hkc' & Hc' & Hpc' & Hdc')];
          [by left|right].
        exists c', (if decide (c' = p) then with_defined n0 true else nc').
        split_and!; [done|by apply Hlook| |by case_decide].
        case_decide as E; [|done]. subst c'. simpl. congruence.
    + intros q Hq. destruct (Hwf p n0 q Hp Hq Hkp) as [Hkq _]. split; [done|].
      exists p, (with_defined n0 true). split_and!; try done.
      by apply list_lookup_insert_eq.
    + intros a n q Ha Hq Hka. destruct (decide (a = p)) as [->|Hne].
      * rewrite list_lookup_insert_eq in Ha by done. injection Ha as <-.
        simpl in Hq. by eapply Hwf.
      * rewrite list_lookup_insert_ne in Ha by done. by eapply Hwf.
Qed.

Lemma match_config_justified (k : nat) (self : DefConfigPrinter) (d : menu_data)
    (curr : addr) (pn : option addr) (h h' : list Node) (nc : Node) :
  justified k h → wf_from k h → k ≤ curr →
  h !! curr = Some nc → parent nc = pn →
  match_config self d curr pn h = Ok h' → justified k h'.
Proof.
  intros Hj Hwf Hk Hnc Hpn. unfold match_config.
  destruct (0 <? expr_value _ _)%Z; [|by intros [= <-]].
  destruct (item_name _); [|by intros [= <-]].
  destruct (defined_config_dict self !! _) as [ci|]; [|by intros [= <-]].
  cbv zeta. set (f := λ n : Node, with_config (with_defined n true) (Some ci)).
  apply mark_parents_justified.
  - intros a n' Ha Hka Hdn.
    destruct (alter_back _ _ _ _ _ Ha) as (n & Hn & [[Hne ->]|[-> ->]]).
    + destruct (Hj a n Hn Hka Hdn) as [?|(c & nc' & Hkc & Hc & Hpc & Hdc)]; [by left|right].
      exists c, (if decide (curr = c) then f nc' else nc').
      split_and!; [done|by apply alter_forth|by case_decide|by case_decide].
    + left. by eexists.
  - intros p Hp. subst pn. destruct (Hwf curr nc p Hnc Hp Hk) as [Hkp _].
    split; [done|]. exists curr, (f nc). split_and!; try done.
    by rewrite list_lookup_alter_eq, Hnc.
  - by apply wf_from_alter.
Qed.

(** With [wf_from], a defined node has a node at or below it that carries
    an assignment. *)
Lemma justified_descendant (k : nat) (h : list Node) :
  wf_from k h → justified k h →
  ∀ m a n, length h - a ≤ m → h !! a = Some n → k ≤ a → defined n = true →
    ∃ b nb, k ≤ b ∧ (b = a ∨ ancestor h a b) ∧ h !! b = Some nb ∧ is_Some (config nb).
Proof.
  intros Hwf Hj. induction m as [|m IH]; intros a n Hm Ha Hk Hd.
  - apply lookup_lt_Some in Ha. lia.
  - destruct (Hj a n Ha Hk Hd) as [?|(c & nc & Hkc & Hc & Hpc & Hdc)].
    + exists a, n. auto.
    + destruct (Hwf c nc a Hc Hpc Hkc) as [_ Hlt].
      destruct (IH c nc) as (b & nb & Hkb & Hb & Hnb & Hcb); [lia|done|done|done|].
      exists b, nb. split; [done|]. split; [|done]. right.
      destruct Hb as [->|Hanc]; [exact (ancestor_parent _ _ _ _ Hc Hpc)|].
      clear -Hanc Hc Hpc. induction Hanc as [x nx y Hx Hy|x nx p y Hx Hp Hanc IH'].
      * eapply ancestor_up; [exact Hx|exact Hy|]. exact (ancestor_parent _ _ _ _ Hc Hpc).
      * eapply ancestor_up; [exact Hx|exact Hp|]. by apply IH'.
Qed.

Lemma mirrors_keep (h h' : list Node) (menu : MenuNode) :
  ∀ pn lvl base ptr,
  (∀ a n, base ≤ a < base + size menu → h !! a = Some n →
     ∃ n', h' !! a = Some n' ∧ static n' = static n ∧ next n' = next n) →
  mirrors h pn lvl base menu ptr → mirrors h' pn lvl base menu ptr.
Proof.
  induction menu as [|d ml IHl mn IHn]; intros pn lvl base ptr Hk; [done|].
  simpl. intros (-> & n & Hn & E1 & E2 & E3 & Ml & Mn). split; [done|].
  destruct (Hk base n) as (n' & Hn' & Es & En); [simpl; lia|done|].
  destruct (static_fields _ _ Es) as (F1 & F2 & F3 & F4 & _).
  exists n'. split_and!; try congruence.
  - rewrite F4. apply IHl; [|done]. intros a m Ha. apply Hk. simpl. lia.
  - rewrite En. apply IHn; [|done]. intros a m Ha. apply Hk. simpl. lia.
Qed.

Lemma same_attrs_refl (self : DefConfigPrinter) : same_attrs self self.
Proof. by destruct self. Qed.

Lemma same_attrs_trans (s1 s2 s3 : DefConfigPrinter) :
  same_attrs s1 s2 → same_attrs s2 s3 → same_attrs s1 s3.
Proof.
  unfold same_attrs, set_max_level, set_heap. destruct s1, s2, s3; simpl.
  intros [= -> -> -> -> -> -> -> -> -> -> -> -> -> -> -> -> ->].
  intros [= -> -> -> -> -> -> -> -> -> -> -> -> -> -> -> -> ->]. done.
Qed.

Lemma same_attrs_set_heap (self : DefConfigPrinter) (h : list Node) :
  same_attrs self (set_heap self h).
Proof. by destruct self. Qed.

Lemma same_attrs_update_max_level (self : DefConfigPrinter) (l : nat) :
  same_attrs self (update_max_level self l).
Proof. unfold update_max_level. case_match; by destruct self. Qed.

Lemma same_attrs_dict (self self' : DefConfigPrinter) :
  same_attrs self self' → defined_config_dict self' = defined_config_dict self.
Proof. intros <-. done. Qed.

Lemma same_attrs_params (self self' : DefConfigPrinter) :
  same_attrs self self' → print_format_params self' = print_format_params self.
Proof. intros <-. done. Qed.

Lemma max_level_update (self : DefConfigPrinter) (l : nat) :
  max_level (update_max_level self l) = Nat.max (max_level self) l.
Proof.
  unfold update_max_level. destruct (Nat.ltb_spec (max_level self) l); simpl; lia.
Qed.

Lemma heap_update_max_level (self : DefConfigPrinter) (l : nat) :
  heap (update_max_level self l) = heap self.
Proof. unfold update_max_level. by case_match. Qed.

Lemma make_node_loop_MNode (d : menu_data) (ml mn : MenuNode) (pn : option addr)
    (lvl : nat) (first prev : option addr) (self : DefConfigPrinter) :
  make_node_loop (MNode d ml mn) pn lvl first prev self =
  (let curr_node := length (heap self) in
   h ← match_config self d curr_node pn (heap self ++ [new_Node d pn lvl]);
   let self := set_heap self h in
   self ← match ml with
           | MNone => Ok self
           | MNode _ _ _ =>
               '(self, r) ← make_node_loop ml (Some curr_node) (S lvl) None None self;
               let self := update_max_level self (S lvl) in
               Ok (set_heap self (alter (λ n, with_list n r) curr_node (heap self)))
           end;
   let self := match prev with
               | Some p => set_heap self (alter (λ n, with_next n (Some curr_node)) p (heap self))
               | None => self
               end in
   let first_node := match prev with
                     | Some _ => first
                     | None => Some curr_node
                     end in
   make_node_loop mn pn lvl first_node (Some curr_node) self).
Proof. reflexivity. Qed.



Lemma heap_step_alter_fresh (k b i : nat) (x : option addr) (f : Node → Node)
    (h h' : list Node) :
  heap_step k x b h h' → length h ≤ i → heap_step k x b h (alter f i h').
Proof.
  intros H Hi a n Ha. pose proof (lookup_lt_Some _ _ _ Ha).
  destruct (H a n Ha) as (n' & Hn' & ?). exists n'.
  rewrite list_lookup_alter_ne by lia. done.
Qed.


Lemma children_ok (k : nat) (d : menu_data) (ml : MenuNode) (pn : option addr)
    (lvl : nat) (self : DefConfigPrinter) :
  loop_ok ml →
  wf_from k (heap self) → pclosed k (heap self) → justified k (heap self) →
  k ≤ length (heap self) →
  (∀ p, pn = Some p → k ≤ p < length (heap self)) →
  ∃ self4,
    (∀ (B : Type) (K : DefConfigPrinter → result B),
       (h ← match_config self d (length (heap self)) pn (heap self ++ [new_Node d pn lvl]);
        let self1 := set_heap self h in
        self4 ← match ml with
                 | MNone => Ok self1
                 | MNode _ _ _ =>
                     '(self2, r) ← make_node_loop ml (Some (length (heap self))) (S lvl)
                                     None None self1;
                     let self3 := update_max_level self2 (S lvl) in
                     Ok (set_heap self3
                           (alter (λ n, with_list n r) (length (heap self)) (heap self3)))
                 end;
        K self4) = K self4) ∧
    children_post k d ml pn lvl self self4.
Proof.
  intros IH Hwf Hcl Hj Hk Hpn.
  set (b := length (heap self)).
  set (new := new_Node d pn lvl).
  destruct (alloc_ok k (heap self) new Hwf Hcl) as (Hwf1 & Hcl1 & Hst1); [done|done|].
  assert (Hnew : (heap self ++ [new]) !! b = Some new) by apply list_lookup_middle, eq_refl.
  destruct (match_config_ok k self d b pn _ new Hwf1 Hcl1 Hk Hnew eq_refl)
    as (h2 & Hrun & Hl2 & Hwf2 & Hcl2 & Hold2 & (n2 & Hn2 & F1 & F2 & F3 & F4 & F5 & F6)).
  assert (Hj2 : justified k h2).
  { apply (match_config_justified k self d b pn (heap self ++ [new]) h2 new);
      [by apply justified_alloc|exact Hwf1|exact Hk|exact Hnew|reflexivity|exact Hrun]. }
  unfold new in F1, F2, F3, F4, F5, F6. simpl in F1, F2, F3, F4, F5, F6.
  rewrite length_app in Hl2. simpl in Hl2. fold b in Hl2.
  replace (b + 1) with (S b) in Hl2 by lia.
  assert (Hst2 : heap_step k None 0 (heap self) h2).
  { intros a n Ha. pose proof (lookup_lt_Some _ _ _ Ha) as Hlt. fold b in Hlt.
    destruct (Hold2 a n) as (n' & Hn' & K & N & D); [lia|by apply lookup_app_l_Some|].
    exists n'. split_and!; auto. }
  assert (Hcfg2 : ∀ a n ci, b ≤ a → h2 !! a = Some n → config n = Some ci →
                    ∃ name, defined_config_dict self !! name = Some ci).
  { intros a n ci Hba Ha Hc. pose proof (lookup_lt_Some _ _ _ Ha) as Hlt.
    assert (a = b) as -> by lia. assert (n = n2) as -> by congruence.
    destruct F6 as [E|(name & ci' & Hd & E)].
    - rewrite E in Hc. done.
    - exists name. congruence. }
  destruct ml as [|d' ml' mn'].
  - exists (set_heap self h2). split; [intros B K; by rewrite Hrun|].
    constructor; simpl; try done.
    + apply same_attrs_set_heap.
    + lia.
    + lia.
    + exists n2. split_and!; try done.
  - destruct (IH k (Some b) (S lvl) None None (set_heap self h2))
      as (self3 & Hrun3 & P3);
      [exact Hwf2|exact Hcl2|exact Hj2|simpl; lia|simpl; intros p [= <-]; lia|done|].
    destruct P3 as [A3 M3 L3 W3 C3 O3 R3 G3 J3].
    change (heap (set_heap self h2)) with h2 in *.
    change (max_level (set_heap self h2)) with (max_level self) in *.
    change (defined_config_dict (set_heap self h2)) with (defined_config_dict self) in *.
    rewrite Hl2 in *.
    set (r := loop_result _ _ _ _) in *.
    assert (Hr : r = head (S b) (MNode d' ml' mn')) by done.
    set (f := λ n : Node, with_list n r).
    exists (set_heap (update_max_level self3 (S lvl))
              (alter f b (heap (update_max_level self3 (S lvl))))).
    split; [intros B K; rewrite Hrun, bind_Ok; cbv beta zeta; by rewrite Hrun3|].
    rewrite heap_update_max_level.
    destruct (O3 b n2 Hn2) as (n3 & Hn3 & K3 & N3 & _).
    destruct (keeps_fields _ _ K3) as (G1 & G2 & G3' & G4 & G5).
    constructor; cbn [max_level set_heap heap defined_config_dict].
    + eapply same_attrs_trans; [apply same_attrs_set_heap|].
      eapply same_attrs_trans; [exact A3|].
      eapply same_attrs_trans; [apply same_attrs_update_max_level|].
      apply same_attrs_set_heap.
    + rewrite max_level_update, M3. lia.
    + rewrite length_alter, L3. cbn [size]. lia.
    + by apply wf_from_alter.
    + by apply pclosed_exc_alter.
    + apply heap_step_alter_fresh; [|done].
      eapply (heap_step_trans_r _ _ 0); [exact Hst2|]. exact O3.
    + exists (f n3). split; [by rewrite list_lookup_alter_eq, Hn3|].
      simpl. split_and!; try congruence; [by rewrite Hr|]. simpl in N3. congruence.
    + eapply mirrors_keep; [|exact R3].
      intros a n Ha Hn. exists n. split_and!; try done.
      rewrite list_lookup_alter_ne by lia. done.
    + intros a n ci Hba Ha Hc.
      destruct (alter_back _ _ _ _ _ Ha) as (n' & Hn' & Hcase).
      assert (config n' = Some ci) as Hc'.
      { destruct Hcase as [[_ ->]|[_ ->]]; done. }
      destruct (decide (a < S b)) as [Hlt|Hge].
      * destruct (lookup_lt_is_Some_2 h2 a) as [m Hm]; [lia|].
        destruct (O3 a m Hm) as (m' & Hm' & Km & _).
        assert (m' = n') as -> by congruence.
        destruct (keeps_fields _ _ Km) as (_ & _ & _ & _ & E).
        apply (Hcfg2 a m ci); [done|done|congruence].
      * apply (G3 a n' ci); [lia|done|done].
    + by apply justified_alter.
Qed.

(** [make_node_loop] always returns, and leaves the printer in a state
    described by [loop_post]. *)
Lemma make_node_loop_ok (menu : MenuNode) : loop_ok menu.
Proof.
  induction menu as [|d ml IHl mn IHn];
    intros k pn lvl first prev self Hwf Hcl Hj Hk Hpn Hprev.
  - exists self. split; [done|]. constructor; cbn [size deep head mirrors linked].
    + apply same_attrs_refl.
    + unfold deep. lia.
    + lia.
    + done.
    + done.
    + apply heap_step_refl.
    + done.
    + intros a n ci Ha Hn. apply lookup_lt_Some in Hn. lia.
    + done.
  - destruct (children_ok k d ml pn lvl self IHl Hwf Hcl Hj Hk Hpn)
      as (self4 & Hrun4 & P4).
    rewrite make_node_loop_MNode.
    rewrite (Hrun4 _ (λ s,
      let s := match prev with
               | Some p => set_heap s (alter (λ n, with_next n (Some (length (heap self)))) p (heap s))
               | None => s
               end in
      make_node_loop mn pn lvl (match prev with Some _ => first | None => Some (length (heap self)) end)
        (Some (length (heap self))) s)).
    cbv zeta. clear Hrun4.
    set (b := length (heap self)) in *.
    destruct P4 as [A4 M4 L4 W4 C4 O4 (n4 & Hn4 & F1 & F2 & F3 & F4 & F5) R4 G4 J4].
    fold b in L4, Hn4, F4, R4, G4, O4.
    (* linking the previous sibling *)
    set (g := λ n : Node, with_next n (Some b)).
    set (self5 := match prev with
                  | Some p => set_heap self4 (alter g p (heap self4))
                  | None => self4
                  end).
    assert (A5 : same_attrs self self5).
    { unfold self5. destruct prev; [|done].
      eapply same_attrs_trans; [exact A4|apply same_attrs_set_heap]. }
    assert (M5 : max_level self5 = max_level self4) by (unfold self5; by destruct prev).
    assert (H5 : heap self5 = match prev with
                              | Some p => alter g p (heap self4)
                              | None => heap self4
                              end) by (unfold self5; by destruct prev).
    assert (L5 : length (heap self5) = S b + size ml).
    { rewrite H5. destruct prev; [rewrite length_alter|]; done. }
    assert (W5 : wf_from k (heap self5)).
    { rewrite H5. destruct prev; [by apply wf_from_alter|done]. }
    assert (C5 : pclosed k (heap self5)).
    { rewrite H5. destruct prev; [by apply pclosed_exc_alter|done]. }
    assert (J5 : justified k (heap self5)).
    { rewrite H5. destruct prev; [by apply justified_alter|done]. }
    assert (B5 : ∀ a n, heap self4 !! a = Some n →
                   heap self5 !! a = Some (if decide (prev = Some a) then g n else n)).
    { intros a n Ha. rewrite H5. destruct prev as [p|]; [|done].
      rewrite (alter_forth g p a _ n Ha).
      destruct (decide (p = a)) as [->|Hne]; [by rewrite decide_True|].
      rewrite decide_False; [done|congruence]. }
    destruct (IHn k pn lvl (match prev with Some _ => first | None => Some b end)
                (Some b) self5 W5 C5 J5) as (self6 & Hrun6 & P6).
    { rewrite L5. lia. }
    { intros p Hp. rewrite L5. specialize (Hpn p Hp). lia. }
    { intros p [= <-]. rewrite L5. lia. }
    exists self6. split.
    { rewrite Hrun6. unfold loop_result. by destruct mn, prev. }
    destruct P6 as [A6 M6 L6 W6 C6 O6 R6 G6 J6]. rewrite L5 in *.
    (* the node at [b] in the final store *)
    specialize (B5 b n4 Hn4). rewrite decide_False in B5.
    2:{ intros E. specialize (Hprev b E). lia. }
    destruct (O6 b n4 B5) as (n6 & Hn6 & K6 & N6 & _).
    destruct (keeps_fields _ _ K6) as (E1 & E2 & E3 & E4 & E5).
    assert (N6' : next n6 = head (S b + size ml) mn).
    { rewrite N6, F5. destruct mn; [done|]. by rewrite decide_True. }
    constructor.
    + eapply same_attrs_trans; [exact A5|exact A6].
    + rewrite M6, M5, M4. unfold deep at 3. fold deep. lia.
    + rewrite L6. cbn [size]. lia.
    + done.
    + done.
    + intros a n Ha. pose proof (lookup_lt_Some _ _ _ Ha) as Hlt. fold b in Hlt.
      destruct (O4 a n Ha) as (m4 & Hm4 & Km4 & Nm4 & Dm4).
      assert (Hm5 : heap self5 !! a = Some (if decide (prev = Some a) then g m4 else m4)).
      { rewrite H5. destruct prev as [p|]; [|done].
        rewrite (alter_forth g p a _ m4 Hm4).
        destruct (decide (p = a)) as [->|Hne]; [by rewrite decide_True|].
        rewrite decide_False; [done|congruence]. }
      destruct (O6 a _ Hm5) as (m6 & Hm6 & Km6 & Nm6 & Dm6).
      exists m6. split; [done|].
      rewrite decide_False in Nm6.
      2:{ destruct mn; [done|]. cbn [linked]. intros [= ->]. lia. }
      cbn [linked]. split_and!.
      * eapply keeps_trans; [exact Km4|]. eapply keeps_trans; [|exact Km6].
        case_decide; [|apply keeps_refl]. split; [|done]. done.
      * rewrite Nm6. case_decide; [done|]. done.
      * intros Hak. rewrite Dm6 by done. case_decide; simpl; auto.
    + cbn [mirrors head]. fold b. split; [done|]. exists n6.
      split_and!; [done|congruence|congruence|congruence| |by rewrite N6'].
      rewrite E4, F4.
      { eapply mirrors_keep; [|exact R4].
        intros a n Ha Hn.
        assert (Hn5 : heap self5 !! a = Some n).
        { rewrite H5. destruct prev as [p|]; [|done].
          rewrite list_lookup_alter_ne; [done|]. specialize (Hprev p eq_refl). lia. }
        destruct (O6 a n Hn5) as (m6 & Hm6 & [Es _] & Nm6 & _).
        exists m6. split_and!; try done.
        rewrite Nm6. rewrite decide_False; [done|].
        destruct mn; [done|]. cbn [linked]. intros [= ->]. lia. }
    + intros a n ci Hba Ha Hc.
      rewrite (same_attrs_dict _ _ A5) in G6.
      destruct (decide (a < S b + size ml)) as [Hlt|Hge].
      * destruct (lookup_lt_is_Some_2 (heap self5) a) as [m5 Hm5]; [lia|].
        destruct (O6 a m5 Hm5) as (m6 & Hm6 & Km6 & _).
        assert (m6 = n) as -> by congruence.
        destruct (keeps_fields _ _ Km6) as (_ & _ & _ & _ & Ec).
        assert (∃ m4, heap self4 !! a = Some m4 ∧ config m4 = config m5) as (m4 & Hm4 & Ec4).
        { rewrite H5 in Hm5. destruct prev as [p|]; [|by exists m5].
          destruct (alter_back _ _ _ _ _ Hm5) as (m4 & Hm4 & [[_ ->]|[_ ->]]);
            by exists m4. }
        apply (G4 a m4 ci); [done|done|congruence].
      * apply (G6 a n ci); [lia|done|done].
    + done.
Qed.

Lemma wf_from_fresh (h : list Node) : wf_from (length h) h.
Proof. intros a n p Ha _ Hk. apply lookup_lt_Some in Ha. lia. Qed.

Lemma pclosed_fresh (h : list Node) : pclosed (length h) h.
Proof. intros a n p Ha Hk. apply lookup_lt_Some in Ha. lia. Qed.

(** A node is determined by its fixed attributes, its [next] and its
    [defined] flag. *)
Lemma node_eq (n n' : Node) :
  static n' = static n → next n' = next n → defined n' = defined n → n' = n.
Proof. destruct n, n'. unfold static. simpl. intros E -> ->. by simplify_eq. Qed.

(** [make_node_tree] called with no parent: it returns, the nodes it
    stores mirror the menu, and the store it started from is untouched. *)
Lemma make_node_tree_ok (menu : MenuNode) (lvl : nat) (self : DefConfigPrinter) :
  ∃ self',
    make_node_tree menu None lvl self = Ok (self', head (length (heap self)) menu) ∧
    same_attrs self self' ∧
    max_level self' = Nat.max (Nat.max (max_level self) (deep lvl menu)) lvl ∧
    length (heap self') = length (heap self) + size menu ∧
    wf_from (length (heap self)) (heap self') ∧
    pclosed (length (heap self)) (heap self') ∧
    (∀ a n, heap self !! a = Some n → heap self' !! a = Some n) ∧
    mirrors (heap self') None lvl (length (heap self)) menu (head (length (heap self)) menu) ∧
    (∀ a n ci, length (heap self) ≤ a → heap self' !! a = Some n → config n = Some ci →
       ∃ name, defined_config_dict self !! name = Some ci) ∧
    justified (length (heap self)) (heap self').
Proof.
  destruct (make_node_loop_ok menu (length (heap self)) None lvl None None self)
    as (self1 & Hrun & [A M L W C O R G J]);
    [apply wf_from_fresh|apply pclosed_fresh|apply justified_fresh|done|done|done|].
  exists (update_max_level self1 lvl). unfold make_node_tree. rewrite Hrun, bind_Ok.
  split; [by destruct menu|].
  rewrite heap_update_max_level, max_level_update, M.
  split_and!; try done.
  - eapply same_attrs_trans; [exact A|apply same_attrs_update_max_level].
  - intros a n Ha. pose proof (lookup_lt_Some _ _ _ Ha) as Hlt.
    destruct (O a n Ha) as (n' & Hn' & [Es _] & Nx & D).
    rewrite Hn'. f_equal. apply node_eq; [done| |by apply D].
    rewrite Nx. by destruct menu.
Qed.

(** In a store where the parent of a defined node is defined, all the
    strict ancestors of a defined node are defined. *)
Lemma pclosed_ancestor (k : nat) (h : list Node) :
  wf_from k h → pclosed k h →
  ∀ b a, ancestor h b a →
    ∀ n, k ≤ a → h !! a = Some n → defined n = true →
      ∃ nb, h !! b = Some nb ∧ defined nb = true.
Proof.
  intros Hwf Hcl b a Hanc.
  induction Hanc as [a n b Ha Hp|a n p b Ha Hp Hanc IH]; intros m Hk Hm Hd.
  - assert (m = n) as -> by congruence.
    destruct (Hcl a n b Ha Hk Hd Hp) as [?|?]; done.
  - assert (m = n) as -> by congruence.
    destruct (Hcl a n p Ha Hk Hd Hp) as [?|(np & Hnp & Hdp)]; [done|].
    destruct (Hwf a n p Ha Hp Hk) as [Hkp _].
    by apply (IH np).
Qed.


Lemma defined_kept_refl (h : list Node) : defined_kept h h.
Proof. intros a n Ha Hd. eauto. Qed.

Lemma defined_kept_trans (h1 h2 h3 : list Node) :
  defined_kept h1 h2 → defined_kept h2 h3 → defined_kept h1 h3.
Proof.
  intros H12 H23 a n Ha Hd. destruct (H12 a n Ha Hd) as (n2 & Hn2 & Hd2).
  by apply (H23 a n2).
Qed.

Lemma defined_kept_alter (f : Node → Node) (i : nat) (h : list Node) :
  (∀ n, defined n = true → defined (f n) = true) → defined_kept h (alter f i h).
Proof.
  intros Hf a n Ha Hd. exists (if decide (i = a) then f n else n).
  split; [by apply alter_forth|]. case_decide; auto.
Qed.

Lemma defined_kept_app (h : list Node) (l : list Node) : defined_kept h (h ++ l).
Proof. intros a n Ha Hd. exists n. split; [by apply lookup_app_l_Some|done]. Qed.

Lemma mark_parents_defined_kept (fuel : nat) :
  ∀ h pn h', mark_parents fuel h pn = Ok h' → defined_kept h h'.
Proof.
  induction fuel as [|fuel IH]; intros h pn h'.
  - destruct pn as [p|]; [|intros [= <-]; apply defined_kept_refl].
    rewrite mark_parents_Some. destruct (h !! p) as [n|]; [|done].
    destruct (defined n); [|done]. intros [= <-]. apply defined_kept_refl.
  - destruct pn as [p|]; [|intros [= <-]; apply defined_kept_refl].
    rewrite mark_parents_Some. destruct (h !! p) as [n|] eqn:Hp; [|done].
    destruct (defined n) eqn:Hd; [intros [= <-]; apply defined_kept_refl|].
    intros Hrun. eapply defined_kept_trans; [|by eapply IH].
    intros a m Ha Hm. destruct (decide (a = p)) as [->|Hne].
    + exists (with_defined n true). split; [|done].
      apply list_lookup_insert_eq. by eapply lookup_lt_Some.
    + exists m. by rewrite list_lookup_insert_ne.
Qed.

Lemma match_config_defined_kept (self : DefConfigPrinter) (d : menu_data)
    (curr : addr) (pn : option addr) (h h' : list Node) :
  match_config self d curr pn h = Ok h' → defined_kept h h'.
Proof.
  unfold match_config.
  destruct (0 <? expr_value _ _)%Z; [|intros [= <-]; apply defined_kept_refl].
  destruct (item_name _); [|intros [= <-]; apply defined_kept_refl].
  destruct (defined_config_dict self !! _); [|intros [= <-]; apply defined_kept_refl].
  cbv zeta. intros Hrun.
  eapply defined_kept_trans; [|by eapply mark_parents_defined_kept].
  by apply defined_kept_alter.
Qed.

Lemma bind_Ok_inv {A B} (r : result A) (f : A → result B) (b : B) :
  r ≫= f = Ok b → ∃ a, r = Ok a ∧ f a = Ok b.
Proof. destruct r as [a|e]; [|done]. intros H. by exists a. Qed.

Lemma make_node_loop_defined_kept (menu : MenuNode) :
  ∀ pn lvl first prev self self' r,
    make_node_loop menu pn lvl first prev self = Ok (self', r) →
    defined_kept (heap self) (heap self').
Proof.
  induction menu as [|d ml IHl mn IHn]; intros pn lvl first prev self self' r.
  - intros [= <- _]. apply defined_kept_refl.
  - rewrite make_node_loop_MNode. cbv zeta. intros Hrun.
    apply bind_Ok_inv in Hrun as (h2 & Hm & Hrun).
    apply bind_Ok_inv in Hrun as (self4 & Hc & Hrun).
    apply IHn in Hrun.
    eapply defined_kept_trans; [apply (defined_kept_app _ [new_Node d pn lvl])|].
    eapply defined_kept_trans; [by eapply match_config_defined_kept|].
    assert (Hk4 : defined_kept h2 (heap self4)).
    { destruct ml as [|d' ml' mn'].
      - injection Hc as <-. apply defined_kept_refl.
      - apply bind_Ok_inv in Hc as ([self3 r3] & Hl & Hc). injection Hc as <-.
        apply IHl in Hl. simpl in Hl |- *. rewrite heap_update_max_level.
        eapply defined_kept_trans; [exact Hl|]. by apply defined_kept_alter. }
    eapply defined_kept_trans; [exact Hk4|].
    eapply defined_kept_trans; [|exact Hrun].
    destruct prev; [|apply defined_kept_refl]. by apply defined_kept_alter.
Qed.

Lemma make_node_tree_defined_kept (menu : MenuNode) (pn : option addr) (lvl : nat)
    (self self' : DefConfigPrinter) (r : option addr) :
  make_node_tree menu pn lvl self = Ok (self', r) →
  defined_kept (heap self) (heap self').
Proof.
  unfold make_node_tree. intros Hrun.
  apply bind_Ok_inv in Hrun as ([self1 r1] & Hl & Hrun). injection Hrun as <- _.
  rewrite heap_update_max_level. by eapply make_node_loop_defined_kept.
Qed.


(** The nodes reached from the first node of a mirror are exactly the
    nodes stored for the menu, and their levels are those of the calls of
    [make_node_tree]. *)
Lemma mirrors_reach (h : list Node) (ptr : option addr) (a : addr) :
  reach h ptr a →
  ∀ menu pn lvl base, mirrors h pn lvl base menu ptr →
    base ≤ a < base + size menu ∧
    ∃ n, h !! a = Some n ∧ lvl ≤ level n ≤ Nat.max lvl (deep lvl menu).
Proof.
  induction 1 as [a n Ha|a n b Ha Hr IH|a n b Ha Hr IH];
    intros [|d ml mn] pn lvl base; cbn [mirrors size]; try done;
    intros ([= ->] & m & Hm & E1 & E2 & E3 & Ml & Mn);
    assert (m = n) as -> by congruence.
  - split; [lia|]. exists n. split; [done|]. lia.
  - destruct (IH _ _ _ _ Ml) as (Hrange & nb & Hnb & Hlv).
    split; [lia|]. exists nb. split; [done|].
    unfold deep; fold deep. destruct ml; [simpl in Hrange; lia|]. lia.
  - destruct (IH _ _ _ _ Mn) as (Hrange & nb & Hnb & Hlv).
    split; [lia|]. exists nb. split; [done|].
    unfold deep; fold deep. lia.
Qed.

Lemma mirrors_reached (h : list Node) (menu : MenuNode) :
  ∀ pn lvl base ptr a, mirrors h pn lvl base menu ptr →
    base ≤ a < base + size menu → reach h ptr a.
Proof.
  induction menu as [|d ml IHl mn IHn]; intros pn lvl base ptr a; cbn [mirrors size];
    [lia|].
  intros (-> & n & Hn & E1 & E2 & E3 & Ml & Mn) Ha.
  destruct (decide (a = base)) as [->|Hne]; [by eapply reach_here|].
  destruct (decide (a < S base + size ml)) as [Hlt|Hge].
  - eapply reach_list; [done|]. eapply IHl; [done|lia].
  - eapply reach_next; [done|]. eapply IHn; [done|lia].
Qed.

(** C4.  [make_node_tree], called on an external menu tree as
    [load_config_files] calls it, returns, whatever the dependency values
    and the table are; it stores exactly one node for each external node
    and leaves the nodes that existed untouched; the stored nodes mirror
    the external tree node for node (same [menu_node], the [list] and
    [next] references follow the external [list] and [next], [parent] is
    the mirror of the enclosing node); and the nodes reached from the
    returned first node are exactly these stored nodes. *)
Theorem make_node_tree_shape (menu : MenuNode) (lvl : nat) (self : DefConfigPrinter) :
  ∃ self' r,
    make_node_tree menu None lvl self = Ok (self', r) ∧
    r = head (length (heap self)) menu ∧
    length (heap self') = length (heap self) + size menu ∧
    (∀ a n, heap self !! a = Some n → heap self' !! a = Some n) ∧
    mirrors (heap self') None lvl (length (heap self)) menu r ∧
    (∀ a, reach (heap self') r a ↔
          length (heap self) ≤ a < length (heap self) + size menu).
Proof.
  destruct (make_node_tree_ok menu lvl self)
    as (self' & Hrun & _ & _ & Hlen & _ & _ & Hold & Hmir & _).
  exists self', (head (length (heap self)) menu). split_and!; try done.
  intros a. split.
  - intros Hr. by destruct (mirrors_reach _ _ _ Hr _ _ _ _ Hmir).
  - by eapply mirrors_reached.
Qed.

(** C2.  In the tree that [make_node_tree] builds, every strict ancestor of
    a defined node is defined; and no step of the construction (a call of
    [make_node_tree], a run of its loop from any point, the matching of a
    node, the propagation to the parents) resets a [defined] flag that is
    true. *)
Theorem make_node_tree_defined_monotonic :
  (∀ menu lvl self,
     ∃ self' r,
       make_node_tree menu None lvl self = Ok (self', r) ∧
       ∀ a n b, length (heap self) ≤ a → heap self' !! a = Some n →
         defined n = true → ancestor (heap self') b a →
         ∃ nb, heap self' !! b = Some nb ∧ defined nb = true) ∧
  (∀ menu pn lvl self self' r,
     make_node_tree menu pn lvl self = Ok (self', r) →
     defined_kept (heap self) (heap self')) ∧
  (∀ menu pn lvl first prev self self' r,
     make_node_loop menu pn lvl first prev self = Ok (self', r) →
     defined_kept (heap self) (heap self')) ∧
  (∀ self d curr pn h h',
     match_config self d curr pn h = Ok h' → defined_kept h h') ∧
  (∀ fuel h pn h', mark_parents fuel h pn = Ok h' → defined_kept h h').
Proof.
  split_and!.
  - intros menu lvl self.
    destruct (make_node_tree_ok menu lvl self)
      as (self' & Hrun & _ & _ & _ & Hwf & Hcl & _).
    exists self', (head (length (heap self)) menu). split; [done|].
    intros a n b Hk Ha Hd Hanc.
    by eapply (pclosed_ancestor _ _ Hwf Hcl b a Hanc n).
  - intros *. apply make_node_tree_defined_kept.
  - intros menu *. apply make_node_loop_defined_kept.
  - intros *. apply match_config_defined_kept.
  - intros fuel *. apply mark_parents_defined_kept.
Qed.



(** *** Scanning a file *)

Lemma scan_line_classify (cl : list config_info) (cm : list string) (line : string) :
  scan_line (cl, cm) line =
  match classify line with
  | Assignment name =>
      (cl ++ [ConfigInfo name (rstrip line) (symbol_of name) (join newline cm)], [])
  | CommentLine => (cl, cm ++ [rstrip line])
  | OtherLine => (cl, [])
  end.
Proof.
  unfold scan_line, classify.
  destruct (set_match (rstrip line)) as [[name val]|]; [done|].
  destruct (unset_match (rstrip line)) as [name|]; [done|].
  by destruct (comment_match (rstrip line)).
Qed.

Lemma scan_lines_app (l1 l2 : list string) (st : list config_info * list string) :
  scan_lines (l1 ++ l2) st = scan_lines l2 (scan_lines l1 st).
Proof. apply foldl_app. Qed.

(** The records found so far do not influence the scan. *)
Lemma scan_lines_prefix (lines : list string) :
  ∀ cl cm, scan_lines lines (cl, cm) =
           (cl ++ (scan_lines lines ([], cm)).1, (scan_lines lines ([], cm)).2).
Proof.
  induction lines as [|l lines IH]; intros cl cm.
  - simpl. by rewrite app_nil_r.
  - unfold scan_lines in *. cbn [foldl]. rewrite !scan_line_classify.
    destruct (classify l).
    + rewrite IH. rewrite (IH ([] ++ _)). simpl. by rewrite <- app_assoc.
    + apply IH.
    + apply IH.
Qed.

(** A block of comment lines is collected in the buffer. *)
Lemma scan_lines_comments (cs : list string) :
  Forall is_comment cs →
  ∀ cl cm, scan_lines cs (cl, cm) = (cl, cm ++ (rstrip <$> cs)).
Proof.
  induction 1 as [|c cs Hc _ IH]; intros cl cm.
  - simpl. by rewrite app_nil_r.
  - unfold scan_lines in *. cbn [foldl]. rewrite scan_line_classify, Hc, IH.
    by rewrite <- app_assoc.
Qed.

(** The buffer is empty after a line that is not a comment. *)
Lemma scan_lines_buffer (pre : list string) :
  (∀ x, last pre = Some x → ¬ is_comment x) →
  ∀ cl, (scan_lines pre (cl, [])).2 = [].
Proof.
  intros Hlast cl. destruct (decide (pre = [])) as [->|Hne]; [done|].
  destruct (exists_last Hne) as (pre' & x & ->).
  rewrite scan_lines_app. destruct (scan_lines pre' (cl, [])) as [cl' cm'].
  unfold scan_lines. cbn [foldl]. rewrite scan_line_classify.
  specialize (Hlast x). rewrite last_snoc in Hlast. specialize (Hlast eq_refl).
  unfold is_comment in Hlast. by destruct (classify x).
Qed.

Lemma scan_app_clean (pre post : list string) :
  (scan_lines pre ([], [])).2 = [] → scan (pre ++ post) = scan pre ++ scan post.
Proof.
  intros Hb. unfold scan. rewrite scan_lines_app.
  destruct (scan_lines pre ([], [])) as [cl cm] eqn:E. simpl in Hb. subst cm.
  by rewrite scan_lines_prefix.
Qed.

(** *** The table *)

Lemma dict_store_app (d : gmap string config_info) (l1 l2 : list config_info) :
  dict_store d (l1 ++ l2) = dict_store (dict_store d l1) l2.
Proof. apply foldl_app. Qed.

Lemma last_record_cons (name : string) (ci : config_info) (l : list config_info) :
  last_record name (ci :: l) =
  match last_record name l with
  | Some c => Some c
  | None => if decide (ci_name ci = name) then Some ci else None
  end.
Proof.
  unfold last_record. rewrite filter_cons. case_decide; [|by destruct (last _)].
  rewrite last_cons. by destruct (last _).
Qed.

(** The table after storing records: the last record of a name, or the
    entry that was there when no record has that name. *)
Lemma dict_store_lookup (l : list config_info) :
  ∀ (d : gmap string config_info) (name : string),
    dict_store d l !! name =
    match last_record name l with
    | Some ci => Some ci
    | None => d !! name
    end.
Proof.
  induction l as [|ci l IH]; intros d name; [done|].
  unfold dict_store in *. cbn [foldl]. rewrite IH, last_record_cons.
  destruct (last_record name l); [done|].
  case_decide as E.
  - rewrite E. apply lookup_insert_eq.
  - by apply lookup_insert_ne.
Qed.

Lemma last_record_Some (name : string) (l : list config_info) (ci : config_info) :
  last_record name l = Some ci → ci ∈ l ∧ ci_name ci = name.
Proof.
  unfold last_record. intros H. apply last_Some_elem_of in H.
  by apply list_elem_of_filter in H as [? ?].
Qed.

Lemma last_record_None (name : string) (l : list config_info) :
  last_record name l = None ↔ ∀ ci, ci ∈ l → ci_name ci ≠ name.
Proof.
  unfold last_record. rewrite last_None. split.
  - intros H ci Hci E. assert (ci ∈ filter (λ c, ci_name c = name) l) as Hin
      by (by apply list_elem_of_filter).
    rewrite H in Hin. by apply elem_of_nil in Hin.
  - intros H. destruct (filter _ l) as [|c r] eqn:E; [done|].
    assert (c ∈ filter (λ c, ci_name c = name) l) as Hin by (rewrite E; apply list_elem_of_here).
    apply list_elem_of_filter in Hin as [? ?]. by destruct (H c).
Qed.

Lemma records_of_app (f1 f2 : list string) :
  records_of (f1 ++ f2) = records_of f1 ++ records_of f2.
Proof. unfold records_of. by rewrite flat_map_app. Qed.

(** *** Loading files *)

Lemma foldM_load_config (files : list string) :
  ∀ self self',
    foldM (λ self f, load_config f self) self files = Ok self' →
    self' = set_tables self (defined_config_list self ++ records_of files)
              (dict_store (defined_config_dict self) (records_of files)).
Proof.
  induction files as [|f files IH]; intros self self'.
  - intros [= <-]. simpl. rewrite app_nil_r. by destruct self.
  - cbn [foldM]. intros H. apply bind_Ok_inv in H as (self1 & H1 & H).
    apply IH in H. subst self'. unfold load_config in H1.
    destruct (open_config f) as [| |lines] eqn:Ho; [done|done|]. injection H1 as <-.
    change (f :: files) with ([f] ++ files). rewrite records_of_app.
    assert (records_of [f] = scan lines) as ->.
    { unfold records_of. simpl. by rewrite Ho, app_nil_r. }
    rewrite dict_store_app, app_assoc. done.
Qed.

Lemma foldM_kconf_load_config (files : list string) (replace : bool)
    (verbose : option bool) :
  ∀ k k',
    foldM (λ k f, kconf_load_config f replace verbose k) k files = Ok k' →
    kconf_top_node k' = kconf_top_node k ∧
    kconf_calls k' = kconf_calls k ++ ((λ f, KCall f replace verbose) <$> files).
Proof.
  induction files as [|f files IH]; intros k k'.
  - intros [= <-]. by rewrite app_nil_r.
  - cbn [foldM]. intros H. apply bind_Ok_inv in H as (k1 & H1 & H).
    apply IH in H as [Ht Hc]. unfold kconf_load_config in H1.
    destruct (open_config f); [done|done|]. injection H1 as <-. simpl in *.
    split; [done|]. by rewrite Hc, <- app_assoc.
Qed.

Lemma mapM_length {A B} (f : A → result B) (l : list A) :
  ∀ l', mapM f l = Ok l' → length l' = length l.
Proof.
  induction l as [|x l IH]; intros l'; [by intros [= <-]|].
  cbn [mapM]. intros H. apply bind_Ok_inv in H as (y & _ & H).
  apply bind_Ok_inv in H as (ys & Hys & H). injection H as <-.
  simpl. f_equal. by apply IH.
Qed.

Lemma generate_print_format_inv (params : list param) (self self' : DefConfigPrinter) :
  generate_print_format params self = Ok self' →
  ∃ ts, self' = set_formats self (update_params (print_format_params self) params) ts ∧
        length ts = level_size self.
Proof.
  unfold generate_print_format. cbv zeta. intros H.
  apply bind_Ok_inv in H as (ts & Hts & H). injection H as <-.
  exists ts. split; [done|]. apply mapM_length in Hts. by rewrite Hts, length_seq.
Qed.

(** What [load_config_files] does, step by step. *)
Lemma load_config_files_inv (files : list string) (replace : bool)
    (verbose : option bool) (self self' : DefConfigPrinter) :
  load_config_files files replace verbose self = Ok self' →
  ∃ k self1 self2 ts,
    kconf_top_node k = kconf_top_node (kconf self) ∧
    kconf_calls k = kconf_calls (kconf self) ++ ((λ f, KCall f replace verbose) <$> files) ∧
    self1 = set_max_level
              (set_tables (set_kconf self k)
                 (defined_config_list self ++ records_of files)
                 (dict_store (defined_config_dict self) (records_of files))) 0 ∧
    make_node_tree (kconf_top_node k) None 0 self1 =
      Ok (self2, head (length (heap self)) (kconf_top_node k)) ∧
    same_attrs self1 self2 ∧
    self' = set_formats
              (set_level_size
                 (set_top_node self2 (head (length (heap self)) (kconf_top_node k)))
                 (max_level self2 + 1))
              (print_format_params self) ts ∧
    length ts = max_level self2 + 1.
Proof.
  unfold load_config_files. intros H.
  apply bind_Ok_inv in H as (k & Hk & H). cbv zeta in H.
  apply bind_Ok_inv in H as (self0 & H0 & H).
  apply bind_Ok_inv in H as ([self2 r] & H2 & H).
  apply foldM_kconf_load_config in Hk as [Hk1 Hk2].
  apply foldM_load_config in H0. subst self0.
  apply generate_print_format_inv in H as (ts & -> & Hts).
  set (self1 := set_max_level _ 0) in H2.
  pose proof (make_node_tree_ok (kconf_top_node k) 0 self1) as (self2' & Hrun & A & _).
  change (kconf_top_node (kconf self1)) with (kconf_top_node k) in H2.
  change (heap self1) with (heap self) in Hrun.
  rewrite Hrun in H2. injection H2 as <- <-.
  exists k, self1, self2', ts. split_and!; try done.
  f_equal. simpl. by rewrite (same_attrs_params _ _ A).
Qed.


Lemma index_is_Ok {A} (l : list A) (i : nat) : i < length l → is_Ok (index l i).
Proof.
  intros Hi. unfold index. destruct (lookup_lt_is_Some_2 l i Hi) as [x ->]. by exists x.
Qed.

Lemma lookups_ok_intro (self : DefConfigPrinter) (ts : list templates)
    (f : format_params) (s0 : DefConfigPrinter) :
  self = set_formats s0 f ts →
  length ts = max_level s0 + 1 →
  (∀ a, reach (heap s0) (top_node s0) a →
     ∃ n, heap s0 !! a = Some n ∧ level n ≤ max_level s0) →
  lookups_ok self.
Proof.
  intros -> Hts Hr. unfold lookups_ok. simpl. rewrite !length_fmap.
  split; [by split_and!|].
  intros a Ha. destruct (Hr a Ha) as (n & Hn & Hl). exists n.
  split_and!; try done; apply index_is_Ok; rewrite length_fmap; lia.
Qed.

(** C10.  When [load_config_files] has completed, each list of per-level
    templates has [max_level + 1] entries and every node of the annotated
    tree has a level of at most [max_level], so that each template lookup by
    [node.level] finds an entry; this still holds after the templates are
    generated again, as [print] and the caller do. *)
Theorem template_lookups_in_bounds (files : list string) (replace : bool)
    (verbose : option bool) (self self' : DefConfigPrinter) :
  load_config_files files replace verbose self = Ok self' →
  lookups_ok self' ∧
  ∀ params self'', generate_print_format params self' = Ok self'' → lookups_ok self''.
Proof.
  intros H. apply load_config_files_inv in H
    as (k & self1 & self2 & ts & Hk1 & Hk2 & E1 & Hrun & A & -> & Hts).
  pose proof (make_node_tree_ok (kconf_top_node k) 0 self1)
    as (s2 & Hrun' & _ & Hmax & _ & _ & _ & _ & Hmir & _).
  assert (heap self1 = heap self) as Eh by (by subst self1).
  rewrite Eh in *. rewrite Hrun in Hrun'. injection Hrun' as <-.
  set (s0 := set_level_size (set_top_node self2 _) _) in *.
  assert (Hreach : ∀ a, reach (heap s0) (top_node s0) a →
            ∃ n, heap s0 !! a = Some n ∧ level n ≤ max_level s0).
  { intros a Ha. simpl in Ha.
    destruct (mirrors_reach _ _ _ Ha _ _ _ _ Hmir) as (_ & n & Hn & Hl).
    exists n. split; [done|]. simpl. rewrite Hmax. lia. }
  split.
  - by eapply lookups_ok_intro.
  - intros params self'' Hg. apply generate_print_format_inv in Hg as (ts' & -> & Hts').
    eapply (lookups_ok_intro _ ts' _ s0); [done|done|done].
Qed.

Lemma load_config_files_dict (files : list string) (replace : bool)
    (verbose : option bool) (self self' : DefConfigPrinter) :
  load_config_files files replace verbose self = Ok self' →
  ∀ name, defined_config_dict self' !! name =
          match last_record name (records_of files) with
          | Some ci => Some ci
          | None => defined_config_dict self !! name
          end.
Proof.
  intros H. apply load_config_files_inv in H
    as (k & self1 & self2 & ts & Hk1 & Hk2 & E1 & Hrun & A & -> & Hts).
  intros name. simpl. rewrite (same_attrs_dict _ _ A). subst self1. simpl.
  apply dict_store_lookup.
Qed.

(** C1, as the code has it.  [load_config_files] removes no entry from the
    table, whatever [replace] is: afterwards the entry of a name is the last
    record of that name in the files just loaded, and the entry that was
    there before when these files have no record of that name.  When the
    table was empty before the call, a name has an entry exactly when a
    record of the loaded files has that name. *)
Theorem load_config_files_table (files : list string) (replace : bool)
    (verbose : option bool) (self self' : DefConfigPrinter) :
  load_config_files files replace verbose self = Ok self' →
  (∀ name, defined_config_dict self' !! name =
           match last_record name (records_of files) with
           | Some ci => Some ci
           | None => defined_config_dict self !! name
           end) ∧
  (defined_config_dict self = ∅ →
   ∀ name, is_Some (defined_config_dict self' !! name) ↔
           ∃ ci, ci ∈ records_of files ∧ ci_name ci = name).
Proof.
  intros H. pose proof (load_config_files_dict _ _ _ _ _ H) as Hd.
  split; [exact Hd|].
  intros He name. rewrite Hd, He.
  destruct (last_record name (records_of files)) as [ci|] eqn:El.
  - apply last_record_Some in El as [? ?]. split; [by exists ci|by eexists].
  - rewrite lookup_empty. split; [by intros [? ?]|].
    intros (ci & Hci & Hn). rewrite last_record_None in El. by destruct (El ci Hci).
Qed.

Lemma preload_loop_calls (files : list string) (verbose : option bool) :
  ∀ replace k k',
    preload_loop files replace verbose k = Ok k' →
    kconf_top_node k' = kconf_top_node k ∧
    kconf_calls k' =
      kconf_calls k ++
      match files with
      | [] => []
      | f :: rest => KCall f replace verbose :: ((λ g, KCall g false verbose) <$> rest)
      end.
Proof.
  induction files as [|f files IH]; intros replace k k'.
  - intros [= <-]. by rewrite app_nil_r.
  - cbn [preload_loop]. intros H. apply bind_Ok_inv in H as (k1 & H1 & H).
    apply IH in H as [Ht Hc]. unfold kconf_load_config in H1.
    destruct (open_config f); [done|done|]. injection H1 as <-. simpl in *.
    split; [done|]. rewrite Hc, <- app_assoc. simpl. by destruct files.
Qed.

Lemma table_load_keep {V : Type} (records : list (string * V)) (name : string) :
  name ∉ records.*1 →
  ∀ t, table_load records false t !! name = t !! name.
Proof.
  unfold table_load. induction records as [|[n v] records IH]; intros Hn t; [done|].
  cbn [foldl]. simpl in Hn. apply not_elem_of_cons in Hn as [Hne Hn].
  rewrite IH by done. simpl. by apply lookup_insert_ne.
Qed.

Lemma merge_calls_keep {V : Type} (content : string → list (string * V))
    (verbose : option bool) (name : string) (rest : list string) :
  (∀ g, g ∈ rest → name ∉ (content g).*1) →
  ∀ t, foldl (λ t c, table_load (content (call_file c)) (call_replace c) t) t
         ((λ g, KCall g false verbose) <$> rest) !! name = t !! name.
Proof.
  induction rest as [|g rest IH]; intros Hrest t; [done|].
  cbn [fmap list_fmap foldl]. rewrite IH.
  - apply table_load_keep. apply Hrest. apply list_elem_of_here.
  - intros g' Hg'. apply Hrest. by apply list_elem_of_further.
Qed.

(** C3, as the code has it.  [preload_config_files] applies the first file
    with [replace] true and every later file with [replace] false.  Under
    the fold of the spec, the later files are thus merged over the first
    one: what the first file gives to a name survives unless a later file
    has a record of that name. *)
Theorem preload_config_files_calls (files : list string) (verbose : option bool)
    (self self' : DefConfigPrinter) :
  preload_config_files files verbose self = Ok self' →
  kconf_calls (kconf self') = kconf_calls (kconf self) ++ preload_calls files verbose ∧
  ∀ (V : Type) (content : string → list (string * V)) f rest name,
    kconf_calls (kconf self) = [] → files = f :: rest →
    (∀ g, g ∈ rest → name ∉ (content g).*1) →
    kconf_table content (kconf_calls (kconf self')) !! name =
    table_load (content f) true ∅ !! name.
Proof.
  unfold preload_config_files. intros H. apply bind_Ok_inv in H as (k & Hk & H).
  injection H as <-. apply preload_loop_calls in Hk as [_ Hc]. simpl.
  split; [exact Hc|].
  intros V content f rest name He -> Hrest. rewrite Hc, He.
  unfold kconf_table, preload_calls. rewrite app_nil_l. cbn [foldl].
  by apply merge_calls_keep.
Qed.

(** C9, as the code has it.  [preload_config_files] changes the Kconfig
    object only: the list and the table of the printer, its tree and its
    store are as before.  Hence, after a following [load_config_files], the
    table holds the records of the files loaded there over the entries from
    before the preload, the assignment that a node of the tree carries is
    such an entry, and a node of the tree is defined only when it or a node
    below it carries one: the preload files contribute none.  The stored
    line that [print_node_config] writes for a node is the line of such an
    entry; for a node that carries none it writes nothing, or what the
    template of the level makes of the [config_string] of the symbol, which
    is a text of the Kconfig object and not a stored line. *)
Theorem preload_config_files_frame (pre : list string) (verbose : option bool)
    (self self1 : DefConfigPrinter) :
  preload_config_files pre verbose self = Ok self1 →
  (self1 = set_kconf self (kconf self1) ∧
   kconf_top_node (kconf self1) = kconf_top_node (kconf self) ∧
   defined_config_list self1 = defined_config_list self ∧
   defined_config_dict self1 = defined_config_dict self ∧
   top_node self1 = top_node self ∧
   heap self1 = heap self) ∧
  ∀ files replace verbose' self2,
    load_config_files files replace verbose' self1 = Ok self2 →
    defined_config_list self2 = defined_config_list self ++ records_of files ∧
    (∀ name, defined_config_dict self2 !! name =
             match last_record name (records_of files) with
             | Some ci => Some ci
             | None => defined_config_dict self !! name
             end) ∧
    (∀ a n ci, reach (heap self2) (top_node self2) a →
       heap self2 !! a = Some n → config n = Some ci →
       ci ∈ records_of files ∨ ∃ name, defined_config_dict self !! name = Some ci) ∧
    (∀ a n, reach (heap self2) (top_node self2) a →
       heap self2 !! a = Some n → defined n = true →
       ∃ b nb ci, (b = a ∨ ancestor (heap self2) a b) ∧
                  heap self2 !! b = Some nb ∧ config nb = Some ci ∧
                  (ci ∈ records_of files ∨
                   ∃ name, defined_config_dict self !! name = Some ci)) ∧
    (∀ a n file out out', reach (heap self2) (top_node self2) a →
       heap self2 !! a = Some n →
       print_node_config self2 n file out = Ok out' →
       (∃ ci, config n = Some ci ∧
              (ci ∈ records_of files ∨
               ∃ name, defined_config_dict self !! name = Some ci) ∧
              out' = print_to file (ci_line ci) out) ∨
       (config n = None ∧ is_symbol n = false ∧ out' = out) ∨
       (config n = None ∧
        ∃ sym fmt text,
          mn_item (menu_node n) = ItemSymbol sym ∧
          print_orig_config_format self2 !! level n = Some fmt ∧
          format fmt {[ "config" :=
            lstrip "# " (rstrip (config_string (kconf_calls (kconf self2)) sym)) ]} = Ok text ∧
          out' = print_to file text out)).
Proof.
  unfold preload_config_files. intros H. apply bind_Ok_inv in H as (k & Hk & H).
  injection H as <-. apply preload_loop_calls in Hk as [Ht _].
  split; [by split_and!|].
  intros files replace verbose' self2 H.
  pose proof (load_config_files_dict _ _ _ _ _ H) as Hd.
  apply load_config_files_inv in H
    as (k' & s1 & s2 & ts & Hk1 & Hk2 & E1 & Hrun & A & -> & Hts).
  pose proof (make_node_tree_ok (kconf_top_node k') 0 s1)
    as (s2' & Hrun' & _ & _ & _ & Hwf & _ & _ & Hmir & Hcfg & Hjust).
  assert (heap s1 = heap self) as Eh by (by subst s1).
  rewrite Eh in *. rewrite Hrun in Hrun'. injection Hrun' as <-.
  assert (Hfrom : ∀ a n ci, length (heap self) ≤ a → heap s2 !! a = Some n →
            config n = Some ci →
            ci ∈ records_of files ∨ ∃ name, defined_config_dict self !! name = Some ci).
  { intros a n ci Hlo Hn Hc.
    destruct (Hcfg a n ci Hlo Hn Hc) as (name & Hname).
    subst s1. simpl in Hname. rewrite dict_store_lookup in Hname.
    destruct (last_record name (records_of files)) as [c|] eqn:El.
    - left. injection Hname as <-. by apply last_record_Some in El as [? _].
    - right. by exists name. }
  split_and!.
  - simpl. assert (defined_config_list s2 = defined_config_list s1) as -> by (by rewrite <- A).
    by subst s1.
  - exact Hd.
  - intros a n ci Hr Hn Hc. simpl in Hr, Hn.
    destruct (mirrors_reach _ _ _ Hr _ _ _ _ Hmir) as ([Hlo _] & _).
    by apply (Hfrom a n ci).
  - intros a n Hr Hn Hdef. simpl in Hr, Hn |- *.
    destruct (mirrors_reach _ _ _ Hr _ _ _ _ Hmir) as ([Hlo _] & _).
    destruct (justified_descendant _ _ Hwf Hjust (length (heap s2)) a n)
      as (b & nb & Hkb & Hb & Hnb & [ci Hci]); [lia|done|done|done|].
    exists b, nb, ci. split_and!; try done. by apply (Hfrom b nb ci).
  - intros a n file out out' Hr Hn Hp. simpl in Hr, Hn.
    destruct (mirrors_reach _ _ _ Hr _ _ _ _ Hmir) as ([Hlo _] & _).
    unfold print_node_config in Hp. destruct (config n) as [ci|] eqn:Ec.
    { left. exists ci. injection Hp as <-. split_and!; try done. by apply (Hfrom a n ci). }
    right. destruct (is_symbol n); [|left; by injection Hp as <-].
    right. split; [done|]. destruct (mn_item (menu_node n)) as [sym| | |]; try done.
    cbv zeta in Hp. apply bind_Ok_inv in Hp as (fmt & Hfmt & Hp).
    apply bind_Ok_inv in Hp as (text & Htext & Hp). injection Hp as <-.
    exists sym, fmt, text. split_and!; try done.
    unfold index in Hfmt. by destruct (_ !! level n); [injection Hfmt as ->|].
Qed.



Lemma isspace_newline (c : ascii) : (nat_of_ascii c =? 10)%nat = true → isspace c = true.
Proof. intros H. apply Nat.eqb_eq in H. unfold isspace. by rewrite H. Qed.

(** Stripping ignores the line terminator. *)
Lemma rstrip_chomp (s : string) : rstrip (chomp s) = rstrip s.
Proof.
  induction s as [|c r IH]; [done|].
  destruct r as [|d r'].
  - simpl. destruct (nat_of_ascii c =? 10)%nat eqn:E; [|done].
    by rewrite (isspace_newline c E).
  - change (chomp (String c (String d r'))) with (String c (chomp (String d r'))).
    change (rstrip (String c (chomp (String d r')))) with
      (match rstrip (chomp (String d r')) with
       | EmptyString => if isspace c then EmptyString else String c EmptyString
       | r0 => String c r0
       end).
    by rewrite IH.
Qed.

Lemma scan_cons_assignment (l : string) (post : list string) (name : string)
    (cm : list string) :
  classify l = Assignment name →
  (scan_lines (l :: post) ([], cm)).1 =
  ConfigInfo name (rstrip l) (symbol_of name) (join newline cm) :: scan post.
Proof.
  intros Hl. unfold scan_lines. cbn [foldl]. rewrite scan_line_classify, Hl.
  fold (scan_lines post ([] ++ [ConfigInfo name (rstrip l) (symbol_of name) (join newline cm)], [])).
  by rewrite scan_lines_prefix.
Qed.

(** C5, as the code has it.  A maximal block of comment lines that an
    assignment or unset line follows at once becomes the comment of that
    record: its lines in their order, each with its trailing whitespace
    stripped, joined by newlines; they are attached as they stand when no
    line of the block has whitespace before its line terminator.  A block
    that a line of another kind follows attaches to nothing: the records
    are those before the block and those after the line, and a record that
    follows the line at once has an empty comment. *)
Theorem comment_attachment (pre cs post : list string) (l : string) :
  (∀ x, last pre = Some x → ¬ is_comment x) →
  Forall is_comment cs →
  (∀ name, classify l = Assignment name →
     scan (pre ++ cs ++ l :: post) =
     scan pre ++
     ConfigInfo name (rstrip l) (symbol_of name) (join newline (rstrip <$> cs)) ::
     scan post) ∧
  (Forall (λ c, rstrip (chomp c) = chomp c) cs → rstrip <$> cs = chomp <$> cs) ∧
  (classify l = OtherLine →
     scan (pre ++ cs ++ l :: post) = scan pre ++ scan post ∧
     ∀ l' post' name, post = l' :: post' → classify l' = Assignment name →
       scan post = ConfigInfo name (rstrip l') (symbol_of name) "" :: scan post').
Proof.
  intros Hpre Hcs.
  assert (Hb : (scan_lines pre ([], [])).2 = []) by (by apply scan_lines_buffer).
  split_and!.
  - intros name Hl. rewrite (scan_app_clean _ _ Hb). f_equal.
    unfold scan. rewrite scan_lines_app, (scan_lines_comments _ Hcs). simpl app.
    by apply scan_cons_assignment.
  - intros Hv. apply list_eq. intros i. rewrite !list_lookup_fmap.
    destruct (cs !! i) as [c|] eqn:Hc; [|done]. simpl. f_equal.
    rewrite <- rstrip_chomp. by eapply (Forall_lookup_1 _ _ _ _ Hv).
  - intros Hl. split.
    + rewrite (scan_app_clean _ _ Hb). f_equal.
      unfold scan. rewrite scan_lines_app, (scan_lines_comments _ Hcs).
      unfold scan_lines. cbn [foldl]. by rewrite scan_line_classify, Hl.
    + intros l' post' name -> Hl'. by apply (scan_cons_assignment l' post' name []).
Qed.

Lemma scan_lines_elem (lines : list string) :
  ∀ cl cm ci, ci ∈ (scan_lines lines (cl, cm)).1 →
    ci ∈ cl ∨ ∃ raw, raw ∈ lines ∧ classify raw = Assignment (ci_name ci) ∧
                     ci_line ci = rstrip raw.
Proof.
  induction lines as [|l lines IH]; intros cl cm ci; [by left|].
  unfold scan_lines in *. cbn [foldl]. rewrite scan_line_classify.
  destruct (classify l) as [name| |] eqn:Hl; intros Hci; apply IH in Hci.
  - destruct Hci as [Hci|(raw & Hraw & H)].
    + apply elem_of_app in Hci as [Hci|Hci]; [by left|].
      apply list_elem_of_singleton in Hci as ->. right. exists l.
      split; [apply list_elem_of_here|done].
    + right. exists raw. split; [by apply list_elem_of_further|done].
  - destruct Hci as [Hci|(raw & Hraw & H)]; [by left|].
    right. exists raw. split; [by apply list_elem_of_further|done].
  - destruct Hci as [Hci|(raw & Hraw & H)]; [by left|].
    right. exists raw. split; [by apply list_elem_of_further|done].
Qed.

Lemma scan_elem (lines : list string) (ci : config_info) :
  ci ∈ scan lines →
  ∃ raw, raw ∈ lines ∧ classify raw = Assignment (ci_name ci) ∧ ci_line ci = rstrip raw.
Proof.
  intros Hci. apply scan_lines_elem in Hci as [Hci|?]; [|done].
  by apply elem_of_nil in Hci.
Qed.

Lemma records_of_elem (files : list string) (ci : config_info) :
  ci ∈ records_of files →
  ∃ f lines, f ∈ files ∧ open_config f = Lines lines ∧ ci ∈ scan lines.
Proof.
  induction files as [|f files IH]; [by intros ?%elem_of_nil|].
  change (f :: files) with ([f] ++ files). rewrite records_of_app.
  intros [Hci|Hci]%elem_of_app.
  - unfold records_of in Hci. simpl in Hci. rewrite app_nil_r in Hci.
    destruct (open_config f) as [| |lines] eqn:Ho;
      [by apply elem_of_nil in Hci|by apply elem_of_nil in Hci|].
    exists f, lines. split; [apply list_elem_of_here|done].
  - destruct (IH Hci) as (g & lines & Hg & Ho & Hs).
    exists g, lines. split; [by apply list_elem_of_further|done].
Qed.

(** C6, as the code has it.  When the entries of the table are records of
    files, they still are after [load_config_files], and for every node of
    the tree that carries a matched assignment, [print_node_config] writes
    the input line of that assignment with its trailing whitespace stripped,
    and a newline.  What is written is the input line itself when that line
    has no whitespace before its line terminator. *)
Theorem config_line_echo (files : list string) (replace : bool)
    (verbose : option bool) (self self' : DefConfigPrinter) :
  from_files self →
  load_config_files files replace verbose self = Ok self' →
  from_files self' ∧
  ∀ a node ci,
    reach (heap self') (top_node self') a → heap self' !! a = Some node →
    config node = Some ci →
    ∃ f lines raw,
      open_config f = Lines lines ∧ raw ∈ lines ∧
      classify raw = Assignment (ci_name ci) ∧ ci_line ci = rstrip raw ∧
      (∀ file out, print_node_config self' node file out =
                   Ok (out ++ [(file, rstrip raw +:+ newline)])) ∧
      (rstrip (chomp raw) = chomp raw → raw = chomp raw +:+ newline →
       rstrip raw +:+ newline = raw).
Proof.
  intros Hff H. pose proof (load_config_files_dict _ _ _ _ _ H) as Hd.
  assert (Hff' : from_files self').
  { intros name ci Hl. rewrite Hd in Hl.
    destruct (last_record name (records_of files)) as [c|] eqn:El.
    - injection Hl as <-. apply last_record_Some in El as [Hin _].
      destruct (records_of_elem _ _ Hin) as (f & lines & _ & Ho & Hs). by exists f, lines.
    - by apply (Hff name). }
  split; [exact Hff'|].
  intros a node ci Hr Hn Hc.
  assert (∃ name, defined_config_dict self' !! name = Some ci) as (name & Hname).
  { apply load_config_files_inv in H
      as (k & s1 & s2 & ts & _ & _ & E1 & Hrun & A & -> & _).
    pose proof (make_node_tree_ok (kconf_top_node k) 0 s1)
      as (s2' & Hrun' & _ & _ & _ & _ & _ & _ & Hmir & Hcfg & _).
    assert (heap s1 = heap self) as Eh by (by subst s1).
    rewrite Eh in *. rewrite Hrun in Hrun'. injection Hrun' as <-.
    simpl in Hr, Hn |- *.
    destruct (mirrors_reach _ _ _ Hr _ _ _ _ Hmir) as ([Hlo _] & _).
    destruct (Hcfg a node ci Hlo Hn Hc) as (name & Hname).
    exists name. by rewrite (same_attrs_dict _ _ A). }
  destruct (Hff' name ci Hname) as (f & lines & Ho & Hs).
  destruct (scan_elem _ _ Hs) as (raw & Hraw & Hk & Hline).
  exists f, lines, raw. split_and!; try done.
  - intros file out. unfold print_node_config. by rewrite Hc, Hline.
  - intros Hs' Hr'. by rewrite <- rstrip_chomp, Hs'.
Qed.

Lemma bind_ext {A B} (r : result A) (f g : A → result B) :
  (∀ a, f a = g a) → r ≫= f = r ≫= g.
Proof. intros H. destruct r; [apply H|done]. Qed.



End Theory.

(** * Further properties *)

Section More.
Context `{KL : Kconfiglib}.

#[local] Arguments make_node_loop : simpl never.
#[local] Arguments match_config : simpl never.
#[local] Arguments deep : simpl never.

(** ** Templates *)

Lemma str_app_cons (x : ascii) (a b : string) : String x a +:+ b = String x (a +:+ b).
Proof. reflexivity. Qed.

Lemma str_app_nil_l (a : string) : "" +:+ a = a.
Proof. reflexivity. Qed.

Lemma str_app_assoc (a b c : string) : (a +:+ b) +:+ c = a +:+ (b +:+ c).
Proof. induction a as [|x a IH]; [done|]. by rewrite !str_app_cons, IH. Qed.

Lemma str_app_nil_r (a : string) : a +:+ "" = a.
Proof. induction a as [|x a IH]; [done|]. by rewrite str_app_cons, IH. Qed.

Lemma format_from_text (kw : gmap string string) (s r : string) :
  brace_free s = true →
  format_from kw FText (s +:+ r) = result_map (String.append s) (format_from kw FText r).
Proof.
  induction s as [|c s IH]; intros Hs.
  - rewrite str_app_nil_l. by destruct (format_from kw FText r).
  - simpl in Hs. apply andb_prop in Hs as [Hc Hs]. apply andb_prop in Hc as [H1 H2].
    apply negb_true_iff in H1, H2. rewrite str_app_cons. cbn [format_from]. rewrite H1, H2.
    rewrite IH by done. by destruct (format_from kw FText r).
Qed.

Lemma format_from_field (kw : gmap string string) (n r : string) :
  field_chars n = true →
  ∀ pre, format_from kw (FField pre) (n +:+ String "}" r) =
         (v ← format_lookup kw (pre +:+ n); result_map (String.append v) (format_from kw FText r)).
Proof.
  induction n as [|c n IH]; intros Hn pre.
  - rewrite str_app_nil_l. cbn [format_from]. simpl Ascii.eqb. cbv iota.
    by rewrite str_app_nil_r.
  - simpl in Hn. apply andb_prop in Hn as [Hc Hn]. apply andb_prop in Hc as [H1 H2].
    apply negb_true_iff in H1, H2. rewrite str_app_cons. cbn [format_from]. rewrite H2, H1.
    rewrite IH by done. by rewrite str_app_assoc.
Qed.

Lemma format_from_braced (kw : gmap string string) (n r : string) :
  str_nonempty n = true → field_chars n = true →
  format_from kw FText ("{" +:+ n +:+ "}" +:+ r) =
  (v ← format_lookup kw n; result_map (String.append v) (format_from kw FText r)).
Proof.
  intros Hne Hn. destruct n as [|c n]; [done|].
  simpl in Hn. apply andb_prop in Hn as [Hc Hn]. apply andb_prop in Hc as [H1 H2].
  apply negb_true_iff in H1, H2.
  change ("{" +:+ String c n +:+ "}" +:+ r) with (String "{" (String c (n +:+ String "}" r))).
  cbn [format_from]. simpl (Ascii.eqb "{" "{"). cbv iota.
  assert (Ascii.eqb c "{" = false) as ->.
  { destruct (Ascii.eqb_spec c "{") as [->|]; [done|done]. }
  rewrite H2, H1. rewrite format_from_field by done. done.
Qed.

(** A template that begins with a sequence is filled in from left to
    right: the sequence first, then the rest. *)
Lemma format_from_render (kw : gmap string string) (l : list seg) (rest : string) :
  forallb seg_ok l = true →
  format_from kw FText (render l +:+ rest) =
  (s ← subst kw l; result_map (String.append s) (format_from kw FText rest)).
Proof.
  induction l as [|[s|n| |] l IH]; intros Hl.
  - cbn [render subst]. rewrite str_app_nil_l, bind_Ok.
    by destruct (format_from kw FText rest).
  - cbn [forallb] in Hl. apply andb_prop in Hl as [Hx Hl]. cbn [render subst].
    rewrite str_app_assoc, format_from_text, IH by done.
    destruct (subst kw l) as [t|]; [|done]. simpl.
    destruct (format_from kw FText rest) as [u|]; [|done]. simpl.
    by rewrite str_app_assoc.
  - cbn [forallb] in Hl. apply andb_prop in Hl as [Hx Hl]. cbn [render subst].
    apply andb_prop in Hx as [Hne Hn].
    rewrite !str_app_assoc, format_from_braced, IH by done.
    destruct (format_lookup kw n) as [v|]; [|done]. simpl.
    destruct (subst kw l) as [t|]; [|done]. simpl.
    destruct (format_from kw FText rest) as [u|]; [|done]. simpl.
    by rewrite str_app_assoc.
  - cbn [forallb] in Hl. apply andb_prop in Hl as [_ Hl]. cbn [render subst].
    change (("{{" +:+ render l) +:+ rest) with (String "{" (String "{" (render l +:+ rest))).
    cbn [format_from]. simpl Ascii.eqb. cbv iota. rewrite IH by done.
    destruct (subst kw l) as [t|]; [|done]. simpl.
    by destruct (format_from kw FText rest).
  - cbn [forallb] in Hl. apply andb_prop in Hl as [_ Hl]. cbn [render subst].
    change (("}}" +:+ render l) +:+ rest) with (String "}" (String "}" (render l +:+ rest))).
    cbn [format_from]. simpl Ascii.eqb. cbv iota. rewrite IH by done.
    destruct (subst kw l) as [t|]; [|done]. simpl.
    by destruct (format_from kw FText rest).
Qed.

Lemma format_render (kw : gmap string string) (l : list seg) :
  forallb seg_ok l = true → format (render l) kw = subst kw l.
Proof.
  intros Hl. unfold format. rewrite <- (str_app_nil_r (render l)).
  rewrite format_from_render by done. cbn [format_from].
  destruct (subst kw l) as [t|]; [|done]. simpl. by rewrite str_app_nil_r.
Qed.

Lemma format_lookup_Ok (kw : gmap string string) (name v : string) :
  all_digits name = false → kw !! name = Some v → format_lookup kw name = Ok v.
Proof. unfold format_lookup. by intros -> ->. Qed.

Lemma subst_is_Ok (kw : gmap string string) (l : list seg) :
  Forall (λ x, match x with
               | Field n => all_digits n = false ∧ is_Some (kw !! n)
               | _ => True
               end) l →
  is_Ok (subst kw l).
Proof.
  induction 1 as [|[s|n| |] l Hx _ [v IH]]; [by eexists|..]; cbn [subst]; rewrite IH.
  - by eexists.
  - destruct Hx as [Hd [w Hw]]. rewrite (format_lookup_Ok kw n w) by done. by eexists.
  - by eexists.
  - by eexists.
Qed.

Lemma separator_fields_names (n : string) :
  n ∈ separator_fields → all_digits n = false.
Proof.
  unfold separator_fields. intros H.
  repeat (apply elem_of_cons in H as [->|H]; [reflexivity|]). by apply elem_of_nil in H.
Qed.

Ltac str_norm :=
  unfold newline;
  repeat first [rewrite str_app_assoc | rewrite str_app_cons | rewrite str_app_nil_l
               | rewrite str_app_nil_r].

Ltac fmt_lookups :=
  repeat (erewrite format_lookup_Ok; [|reflexivity|vm_compute; reflexivity]; rewrite !bind_Ok).

Ltac fmt_run t segs :=
  match goal with
  | |- context [format t ?kw] =>
      change t with (render segs);
      rewrite (format_render kw segs) by reflexivity;
      cbn [subst]; fmt_lookups; cbn [result_map]
  end.

Lemma level_templates_default (f : format_params) (seps : list string) (lvl : nat)
    (c : string) :
  default_formats f → seps !! lvl = Some c →
  level_templates f seps lvl = Ok (default_templates f c lvl).
Proof.
  intros (E1 & E2 & E3 & E4 & E5 & E6 & E7) Hc.
  unfold level_templates, default_templates, separator_of. rewrite Hc, bind_Ok. cbv zeta.
  rewrite E1, E2, E3, E4, E5, E6, E7.
  generalize (str_repeat (fp_prompt_indent_char f) lvl).
  generalize (str_repeat (fp_separator_indent_char f) lvl).
  generalize (str_repeat (fp_info_indent_char f) lvl).
  generalize (str_mul c (fp_print_max_column f)).
  generalize (fp_print_max_column f - 1)%Z.
  intros k line ii si pi.
  fmt_run (fp_separator_format default_format_params)
    [Field "separator_indent"; Lit " "; Field "separator_line"].
  rewrite bind_Ok, str_app_nil_r.
  generalize (str_slice_to (si +:+ " " +:+ line) k). intros sep.
  fmt_run (fp_prompt_format default_format_params)
    [Lit "#"; Field "separator"; Lit (newline +:+ "#"); Field "prompt_indent"; Lit " ";
     Field "prompt"; Lit (newline +:+ "#"); Field "separator"].
  rewrite bind_Ok.
  fmt_run (fp_menu_end_format default_format_params)
    [Lit "#"; Field "prompt_indent"; Lit " end of "; Field "prompt"; Lit newline].
  rewrite bind_Ok.
  fmt_run (fp_help_format default_format_params)
    [Lit "#"; Field "info_indent"; Lit (" help" +:+ newline); Field "help";
     Lit (newline +:+ "#"); Field "info_indent"].
  rewrite bind_Ok.
  fmt_run (fp_help_line_format default_format_params)
    [Lit "#"; Field "info_indent"; Lit "     "; Field "help_line"].
  rewrite bind_Ok.
  fmt_run (fp_location_format default_format_params)
    [Lit "#"; Field "info_indent"; Lit " "; Field "filename"; Lit " : "; Field "linenr";
     Lit (newline +:+ "#"); Field "info_indent"].
  rewrite bind_Ok.
  fmt_run (fp_orig_config_format default_format_params)
    [Lit "#"; Field "info_indent"; Lit " "; Field "config"].
  rewrite bind_Ok.
  str_norm. reflexivity.
Qed.

Lemma slice_bound_le {A} (a : list A) (i : Z) : slice_bound a i ≤ length a.
Proof. unfold slice_bound. cbv zeta. destruct (Z.ltb_spec i 0); lia. Qed.

(** A slice assignment of the kind made in [generate_print_format] never
    shortens the list. *)
Lemma slice_assign_length {A} (a b : list A) (i : Z) :
  length a ≤ length (slice_assign a i (i + Z.of_nat (length b)) b).
Proof.
  unfold slice_assign. cbv zeta. rewrite !length_app, length_take, length_drop.
  pose proof (slice_bound_le a i).
  assert (slice_bound a (i + Z.of_nat (length b)) ≤ slice_bound a i + length b).
  { unfold slice_bound. cbv zeta.
    destruct (Z.ltb_spec i 0), (Z.ltb_spec (i + Z.of_nat (length b)) 0); lia. }
  lia.
Qed.

Lemma separator_chars_lookup (f : format_params) (n lvl : nat) :
  lvl < n → is_Some (separator_chars f n !! lvl).
Proof.
  intros Hl. apply lookup_lt_is_Some_2. unfold separator_chars.
  pose proof (slice_assign_length (replicate n "") (fp_separator_char_list f)
                (fp_print_first_level f)) as H.
  rewrite length_replicate in H. lia.
Qed.

(** With a first level that is not negative, the characters of
    [separator_char_list] are those of the levels from the first level on,
    and the other levels have none. *)
Lemma separator_chars_nonneg (f : format_params) (n lvl : nat) :
  (0 ≤ fp_print_first_level f)%Z → lvl < n →
  separator_chars f n !! lvl =
  Some (if decide (Z.to_nat (fp_print_first_level f) ≤ lvl <
                   Z.to_nat (fp_print_first_level f) + length (fp_separator_char_list f))
        then default "" (fp_separator_char_list f !! (lvl - Z.to_nat (fp_print_first_level f)))
        else "").
Proof.
  intros H0 Hl. unfold separator_chars, slice_assign. cbv zeta.
  set (cs := fp_separator_char_list f). set (first := fp_print_first_level f) in *.
  assert (slice_bound (replicate n "") first = Nat.min (Z.to_nat first) n) as ->.
  { unfold slice_bound. cbv zeta. rewrite length_replicate.
    destruct (Z.ltb_spec first 0); lia. }
  assert (slice_bound (replicate n "") (first + Z.of_nat (length cs)) =
          Nat.min (Z.to_nat first + length cs) n) as ->.
  { unfold slice_bound. cbv zeta. rewrite length_replicate.
    destruct (Z.ltb_spec (first + Z.of_nat (length cs)) 0); lia. }
  rewrite take_replicate, drop_replicate.
  destruct (decide (lvl < Z.to_nat first)) as [Hlt|Hge].
  { rewrite lookup_app_l by (rewrite length_replicate; lia).
    rewrite lookup_replicate_2 by lia. by rewrite decide_False by lia. }
  rewrite lookup_app_r by (rewrite length_replicate; lia).
  rewrite length_replicate.
  assert (Nat.min (Nat.min (Z.to_nat first) n) n = Z.to_nat first) as -> by lia.
  destruct (decide (lvl - Z.to_nat first < length cs)) as [Hin|Hout].
  - rewrite lookup_app_l by done. rewrite decide_True by lia.
    destruct (lookup_lt_is_Some_2 cs _ Hin) as [c ->]. done.
  - rewrite lookup_app_r by lia. rewrite decide_False by lia.
    apply lookup_replicate_2. lia.
Qed.

Lemma mapM_fmap {A B} (f : A → result B) (g : A → B) (l : list A) :
  (∀ x, x ∈ l → f x = Ok (g x)) → mapM f l = Ok (g <$> l).
Proof.
  induction l as [|x l IH]; intros H; [done|].
  cbn [mapM]. rewrite (H x) by apply list_elem_of_here. rewrite bind_Ok.
  rewrite IH; [done|]. intros y Hy. apply H. by apply list_elem_of_further.
Qed.

Lemma generate_print_format_default (params : list param) (self : DefConfigPrinter) :
  default_formats (update_params (print_format_params self) params) →
  generate_print_format params self =
  Ok (set_formats self (update_params (print_format_params self) params)
        (default_level_templates (update_params (print_format_params self) params)
           (level_size self))).
Proof.
  intros Hd. unfold generate_print_format. cbv zeta.
  fold (separator_chars (update_params (print_format_params self) params) (level_size self)).
  unfold default_level_templates. erewrite mapM_fmap; [done|].
  intros lvl Hl. apply elem_of_seq in Hl as [_ Hl]. simpl in Hl.
  destruct (separator_chars_lookup (update_params (print_format_params self) params)
              (level_size self) lvl Hl) as [c Hc].
  rewrite Hc. simpl. by apply level_templates_default.
Qed.

(** X1.  Under the default format strings, [generate_print_format]
    returns and the templates of a level are the default ones, built from
    the indentation characters and the separator character of the level;
    with a first level that is not negative, the separator characters are
    those of [separator_char_list] from the first level on, and the other
    levels have none. *)
Theorem default_templates_generated (params : list param) (self : DefConfigPrinter) :
  default_formats (update_params (print_format_params self) params) →
  let f := update_params (print_format_params self) params in
  generate_print_format params self =
    Ok (set_formats self f (default_level_templates f (level_size self))) ∧
  ((0 ≤ fp_print_first_level f)%Z →
   ∀ lvl, lvl < level_size self →
     separator_chars f (level_size self) !! lvl =
     Some (if decide (Z.to_nat (fp_print_first_level f) ≤ lvl <
                      Z.to_nat (fp_print_first_level f) + length (fp_separator_char_list f))
           then default "" (fp_separator_char_list f !!
                              (lvl - Z.to_nat (fp_print_first_level f)))
           else "")).
Proof.
  intros Hd f. split; [by apply generate_print_format_default|].
  intros H0 lvl Hl. by apply separator_chars_nonneg.
Qed.

(** X2.  A [separator_format] that names a field other than the ten that
    are offered to it, for instance [separator] itself, makes
    [generate_print_format] fail with the [KeyError] of that name as soon as
    there is a level; with no level, as in [__init__], it goes unnoticed.
    The field is the first that is not offered: before it the format has
    text, escaped braces and fields that are offered, and after it
    anything. *)
Theorem separator_format_unknown_field (params : list param) (self : DefConfigPrinter)
    (pre : list seg) (name post : string) :
  fp_separator_format (update_params (print_format_params self) params) =
    render pre +:+ "{" +:+ name +:+ "}" +:+ post →
  forallb seg_ok pre = true → (∀ n, n ∈ fields_of pre → n ∈ separator_fields) →
  str_nonempty name = true → field_chars name = true →
  all_digits name = false → name ∉ separator_fields →
  (level_size self = 0 →
   generate_print_format params self =
   Ok (set_formats self (update_params (print_format_params self) params) [])) ∧
  (0 < level_size self →
   generate_print_format params self = Err (KeyError name)).
Proof.
  intros Hf Hpre Hknown Hne Hn Hd Hout. split.
  - intros H0. unfold generate_print_format. cbv zeta. by rewrite H0.
  - intros Hpos. unfold generate_print_format. cbv zeta.
    set (f := update_params (print_format_params self) params) in *.
    fold (separator_chars f (level_size self)).
    destruct (level_size self) as [|n] eqn:En; [lia|].
    cbn [seq mapM].
    destruct (separator_chars_lookup f (S n) 0) as [c Hc]; [lia|].
    assert (level_templates f (separator_chars f (S n)) 0 = Err (KeyError name)) as ->; [|done].
    unfold level_templates. rewrite Hc, bind_Ok, Hf.
    set (kw := list_to_map _).
    assert (format (render pre +:+ "{" +:+ name +:+ "}" +:+ post) kw = Err (KeyError name))
      as ->; [|done].
    unfold format. rewrite format_from_render by done.
    destruct (subst_is_Ok kw pre) as [s ->].
    { apply Forall_forall. intros [t|x| |] Hx; try done.
      assert (x ∈ separator_fields) as Hin.
      { apply Hknown. unfold fields_of. apply list_elem_of_In, in_flat_map.
        exists (Field x). split; [by apply list_elem_of_In|by left]. }
      split; [by apply separator_fields_names|].
      unfold separator_fields in Hin. subst kw.
      repeat (apply elem_of_cons in Hin as [->|Hin]; [eexists; vm_compute; reflexivity|]).
      by apply elem_of_nil in Hin. }
    rewrite bind_Ok, format_from_braced by done.
    unfold format_lookup. rewrite Hd.
    assert (kw !! name = None) as ->; [|done].
    apply not_elem_of_list_to_map_1. simpl. exact Hout.
Qed.

(** ** The annotated tree *)

Lemma mark_parents_back (fuel : nat) :
  ∀ h pn h', mark_parents fuel h pn = Ok h' →
    ∀ a n', h' !! a = Some n' →
      ∃ n, h !! a = Some n ∧ (n' = n ∨ n' = with_defined n true).
Proof.
  induction fuel as [|fuel IH]; intros h pn h'.
  - destruct pn as [p|]; [|intros [= <-]; eauto].
    rewrite mark_parents_Some. destruct (h !! p) as [n|]; [|done].
    destruct (defined n); [|done]. intros [= <-]. eauto.
  - destruct pn as [p|]; [|intros [= <-]; eauto].
    rewrite mark_parents_Some. destruct (h !! p) as [n|] eqn:Hp; [|done].
    destruct (defined n) eqn:Hd; [intros [= <-]; eauto|].
    intros Hrun a n' Ha. destruct (IH _ _ _ Hrun a n' Ha) as (m & Hm & Hcase).
    destruct (decide (a = p)) as [->|Hne].
    + rewrite list_lookup_insert_eq in Hm by (by eapply lookup_lt_Some).
      injection Hm as <-. exists n. split; [done|].
      destruct Hcase as [->| ->]; [by right|]. right. by destruct n.
    + rewrite list_lookup_insert_ne in Hm by done. eauto.
Qed.

Lemma annotated_with_defined (self : DefConfigPrinter) (n : Node) :
  annotated self n → annotated self (with_defined n true).
Proof. intros (D & C & I). by split_and!. Qed.

Lemma annotated_same (self self' : DefConfigPrinter) (n : Node) :
  defined_config_dict self' = defined_config_dict self → kconf self' = kconf self →
  annotated self n → annotated self' n.
Proof. intros Ed Ek (D & C & I). split_and!; try done. unfold matched. by rewrite Ed, Ek. Qed.

Lemma match_config_annotated (k : nat) (self : DefConfigPrinter) (d : menu_data)
    (pn : option addr) (lvl : nat) (h h' : list Node) :
  annotated_from k self h →
  match_config self d (length h) pn (h ++ [new_Node d pn lvl]) = Ok h' →
  annotated_from k self h'.
Proof.
  intros Hinv.
  assert (Hsame : matched self d = None → annotated_from k self (h ++ [new_Node d pn lvl])).
  { intros Hm a n Ha Hk. apply lookup_snoc_Some in Ha as [[_ Ha]|[-> <-]]; [by eapply Hinv|].
    split_and!; [done|cbn [menu_node new_Node config]; by rewrite Hm|by intros [? ?]]. }
  unfold match_config. unfold matched in Hsame.
  destruct (0 <? expr_value _ _)%Z eqn:Hdep; [|intros [= <-]; by apply Hsame].
  destruct (item_name (mn_item d)) as [name|] eqn:Hname; [|intros [= <-]; by apply Hsame].
  destruct (defined_config_dict self !! name) as [ci|] eqn:Hci; [|intros [= <-]; by apply Hsame].
  clear Hsame. cbv zeta. intros Hrun a n' Ha Hk.
  destruct (mark_parents_back _ _ _ _ Hrun a n' Ha) as (m & Hm & Hcase).
  assert (annotated self m) as Hann.
  { destruct (alter_back _ _ _ _ _ Hm) as (m0 & Hm0 & [[Hne ->]|[-> ->]]).
    - apply lookup_snoc_Some in Hm0 as [[_ Hm0]|[-> <-]]; [by eapply Hinv|done].
    - rewrite lookup_app_r, Nat.sub_diag in Hm0 by done. injection Hm0 as <-.
      split_and!; [done| |done]. simpl. unfold matched. by rewrite Hdep, Hname, Hci. }
  destruct Hcase as [->| ->]; [done|by apply annotated_with_defined].
Qed.

Lemma annotated_alter (k i : nat) (self : DefConfigPrinter) (f : Node → Node)
    (h : list Node) :
  (∀ n, annotated self n → annotated self (f n)) →
  annotated_from k self h → annotated_from k self (alter f i h).
Proof.
  intros Hf Hinv a n' Ha Hk.
  destruct (alter_back _ _ _ _ _ Ha) as (n & Hn & [[_ ->]|[_ ->]]); [by eapply Hinv|].
  apply Hf. by eapply Hinv.
Qed.

Lemma update_max_level_attrs (self : DefConfigPrinter) (l : nat) :
  defined_config_dict (update_max_level self l) = defined_config_dict self ∧
  kconf (update_max_level self l) = kconf self.
Proof. unfold update_max_level. by case_match. Qed.

Lemma make_node_loop_annotated (k : nat) (menu : MenuNode) :
  ∀ pn lvl first prev self self' r,
    make_node_loop menu pn lvl first prev self = Ok (self', r) →
    (defined_config_dict self' = defined_config_dict self ∧ kconf self' = kconf self) ∧
    (annotated_from k self (heap self) → annotated_from k self (heap self')).
Proof.
  induction menu as [|d ml IHl mn IHn]; intros pn lvl first prev self self' r.
  - by intros [= <- _].
  - rewrite make_node_loop_MNode. cbv zeta. intros Hrun.
    apply bind_Ok_inv in Hrun as (h2 & Hm & Hrun).
    apply bind_Ok_inv in Hrun as (self4 & Hc & Hrun).
    apply IHn in Hrun as [[Ed Ek] Hn].
    assert ((defined_config_dict self4 = defined_config_dict self ∧ kconf self4 = kconf self) ∧
            (annotated_from k self h2 → annotated_from k self (heap self4))) as [[Ed4 Ek4] H4].
    { destruct ml as [|d' ml' mn'].
      - by injection Hc as <-.
      - apply bind_Ok_inv in Hc as ([self3 r3] & Hl & Hc). injection Hc as <-.
        apply IHl in Hl as [[Ed3 Ek3] Hl]. simpl in *.
        destruct (update_max_level_attrs self3 (S lvl)) as [Eu1 Eu2].
        split; [split; congruence|].
        intros H2. rewrite heap_update_max_level. apply annotated_alter.
        { intros n (D & C & I). by split_and!. }
        intros a n Ha Hk. eapply annotated_same; [| |eapply Hl; [|done..]]; done. }
    set (self5 := match prev with Some p => _ | None => self4 end) in *.
    assert (defined_config_dict self5 = defined_config_dict self4 ∧ kconf self5 = kconf self4)
      as [Ed5 Ek5] by (by destruct prev).
    split; [split; congruence|].
    intros H0. specialize (match_config_annotated k self d pn lvl _ _ H0 Hm) as H2.
    apply H4 in H2.
    assert (annotated_from k self (heap self5)) as H5.
    { subst self5. destruct prev as [p|]; [|done]. simpl. apply annotated_alter; [|done].
      intros n (D & C & I). by split_and!. }
    intros a n Ha Hk.
    eapply (annotated_same self5); [congruence|congruence|].
    eapply Hn; [|done..].
    intros a' n' Ha' Hk'. eapply (annotated_same self); [congruence|congruence|].
    by eapply H5.
Qed.

Lemma annotated_fresh (self : DefConfigPrinter) (h : list Node) :
  annotated_from (length h) self h.
Proof. intros a n Ha Hk. apply lookup_lt_Some in Ha. lia. Qed.

Lemma make_node_tree_annotated (menu : MenuNode) (pn : option addr) (lvl : nat)
    (self self' : DefConfigPrinter) (r : option addr) :
  make_node_tree menu pn lvl self = Ok (self', r) →
  annotated_from (length (heap self)) self (heap self').
Proof.
  unfold make_node_tree. intros Hrun.
  apply bind_Ok_inv in Hrun as ([self1 r1] & Hl & Hrun). injection Hrun as <- _.
  rewrite heap_update_max_level.
  eapply (make_node_loop_annotated (length (heap self))) in Hl as [_ Hl].
  apply Hl, annotated_fresh.
Qed.

(** The tree that [load_config_files] leaves. *)
Lemma load_config_files_tree (files : list string) (replace : bool)
    (verbose : option bool) (self self' : DefConfigPrinter) :
  load_config_files files replace verbose self = Ok self' →
  kconf_top_node (kconf self') = kconf_top_node (kconf self) ∧
  top_node self' = head (length (heap self)) (kconf_top_node (kconf self)) ∧
  length (heap self') = length (heap self) + size (kconf_top_node (kconf self)) ∧
  wf_from (length (heap self)) (heap self') ∧
  pclosed (length (heap self)) (heap self') ∧
  justified (length (heap self)) (heap self') ∧
  mirrors (heap self') None 0 (length (heap self)) (kconf_top_node (kconf self))
    (top_node self') ∧
  annotated_from (length (heap self)) self' (heap self') ∧
  max_level self' = deep 0 (kconf_top_node (kconf self)) ∧
  level_size self' = max_level self' + 1.
Proof.
  intros H. apply load_config_files_inv in H
    as (k & self1 & self2 & ts & Hk1 & Hk2 & E1 & Hrun & A & -> & Hts).
  pose proof (make_node_tree_ok (kconf_top_node k) 0 self1)
    as (s2 & Hrun' & _ & Hmax & Hlen & Hwf & Hcl & _ & Hmir & _ & Hjust).
  pose proof (make_node_tree_annotated _ _ _ _ _ _ Hrun) as Hann.
  assert (heap self1 = heap self) as Eh by (by subst self1).
  assert (max_level self1 = 0) as Em by (by subst self1).
  rewrite Eh in *. rewrite Hrun in Hrun'. injection Hrun' as <-.
  rewrite Hk1 in *. simpl.
  assert (kconf self2 = kconf self1) as Ek by (by rewrite <- A).
  assert (defined_config_dict self2 = defined_config_dict self1) as Ed by (by rewrite <- A).
  split_and!; try done.
  - rewrite Ek. by subst self1.
  - intros a n Ha Hk. eapply (annotated_same self1); [done|done|]. by eapply Hann.
  - rewrite Hmax, Em. lia.
Qed.

Lemma reach_range (files : list string) (replace : bool)
    (verbose : option bool) (self self' : DefConfigPrinter) (a : addr) :
  load_config_files files replace verbose self = Ok self' →
  reach (heap self') (top_node self') a ↔
  length (heap self) ≤ a < length (heap self').
Proof.
  intros H. apply load_config_files_tree in H as (_ & _ & Hlen & _ & _ & _ & Hmir & _).
  rewrite Hlen. split.
  - intros Hr. by destruct (mirrors_reach _ _ _ Hr _ _ _ _ Hmir).
  - by eapply mirrors_reached.
Qed.

(** X3.  After [load_config_files], the assignment that a node of the tree
    carries is exactly the entry that the matching step looks up: the entry
    of the name of its item, when the item is a symbol or a choice and the
    dependency of the node evaluates to a value above 0; otherwise the node
    carries none, whatever the table holds. *)
Theorem node_config_rule (files : list string) (replace : bool)
    (verbose : option bool) (self self' : DefConfigPrinter) :
  load_config_files files replace verbose self = Ok self' →
  ∀ a n, reach (heap self') (top_node self') a → heap self' !! a = Some n →
    config n = matched self' (menu_node n) ∧
    (∀ ci, config n = Some ci ↔
       (0 < expr_value (kconf_calls (kconf self')) (mn_dep (menu_node n)))%Z ∧
       ∃ name, item_name (mn_item (menu_node n)) = Some name ∧
               defined_config_dict self' !! name = Some ci).
Proof.
  intros H a n Hr Hn. pose proof H as Ht.
  apply reach_range with (a := a) in H. apply H in Hr as [Hlo _].
  apply load_config_files_tree in Ht as (_ & _ & _ & _ & _ & _ & _ & Hann & _).
  destruct (Hann a n Hn Hlo) as (_ & C & _). split; [done|].
  intros ci. rewrite C. unfold matched.
  destruct (Z.ltb_spec 0 (expr_value (kconf_calls (kconf self')) (mn_dep (menu_node n)))).
  - destruct (item_name _) as [name|].
    + split; [by eauto|]. by intros (_ & name' & [= <-] & ?).
    + split; [done|]. by intros (_ & name' & ? & _).
  - split; [done|]. intros [? _]. lia.
Qed.

(** X4.  After [load_config_files], a node of the tree is defined exactly
    when it carries an assignment or a node below it does. *)
Theorem node_defined_iff (files : list string) (replace : bool)
    (verbose : option bool) (self self' : DefConfigPrinter) :
  load_config_files files replace verbose self = Ok self' →
  ∀ a n, reach (heap self') (top_node self') a → heap self' !! a = Some n →
    (defined n = true ↔
     ∃ b nb, reach (heap self') (top_node self') b ∧
             (b = a ∨ ancestor (heap self') a b) ∧
             heap self' !! b = Some nb ∧ is_Some (config nb)).
Proof.
  intros H a n Hr Hn. pose proof H as Ht.
  pose proof (reach_range _ _ _ _ _ a H) as Ha. apply Ha in Hr as [Hlo Hhi].
  apply load_config_files_tree in Ht as (_ & _ & _ & Hwf & Hcl & Hj & _ & Hann & _).
  split.
  - intros Hd.
    destruct (justified_descendant _ _ Hwf Hj (length (heap self')) a n)
      as (b & nb & Hkb & Hb & Hnb & Hcb); [lia|done|done|done|].
    exists b, nb. split_and!; try done.
    apply (reach_range _ _ _ _ _ b H). split; [done|]. by eapply lookup_lt_Some.
  - intros (b & nb & Hrb & Hb & Hnb & Hcb).
    apply (reach_range _ _ _ _ _ b H) in Hrb as [Hlob _].
    destruct (Hann b nb Hnb Hlob) as (_ & _ & I). specialize (I Hcb).
    destruct Hb as [->|Hanc]; [congruence|].
    destruct (pclosed_ancestor _ _ Hwf Hcl a b Hanc nb Hlob Hnb I) as (na & Hna & Hda).
    congruence.
Qed.

Lemma mirrors_deepest (h : list Node) (menu : MenuNode) :
  ∀ pn lvl base ptr, mirrors h pn lvl base menu ptr → menu ≠ MNone →
    ∃ a n, reach h ptr a ∧ h !! a = Some n ∧ level n = Nat.max lvl (deep lvl menu).
Proof.
  induction menu as [|d ml IHl mn IHn]; intros pn lvl base ptr; [done|].
  cbn [mirrors]. intros (-> & n & Hn & E1 & E2 & E3 & Ml & Mn) _.
  unfold deep; fold deep.
  set (A := match ml with MNone => 0 | MNode _ _ _ => Nat.max (S lvl) (deep (S lvl) ml) end).
  set (B := deep lvl mn).
  destruct (decide (Nat.max lvl (Nat.max A B) = lvl)) as [E|Hne].
  { exists base, n. split_and!; [by eapply reach_here|done|lia]. }
  destruct (decide (B ≤ A)) as [Hle|Hgt].
  - assert (ml ≠ MNone) as Hml by (intros ->; subst A; lia).
    destruct (IHl _ _ _ _ Ml Hml) as (a & m & Hr & Hm & Hl).
    exists a, m. split_and!; [by eapply reach_list|done|].
    rewrite Hl. subst A. destruct ml; [done|]. lia.
  - assert (mn ≠ MNone) as Hmn by (intros ->; subst B; unfold deep in Hgt; lia).
    destruct (IHn _ _ _ _ Mn Hmn) as (a & m & Hr & Hm & Hl).
    exists a, m. split_and!; [by eapply reach_next|done|].
    rewrite Hl. subst B. lia.
Qed.

(** X5.  After [load_config_files], whatever [max_level] was before,
    [max_level] is the largest level of a node of the tree: no node is
    deeper and some node has that level; [level_size] is one more. *)
Theorem max_level_is_deepest (files : list string) (replace : bool)
    (verbose : option bool) (self self' : DefConfigPrinter) :
  load_config_files files replace verbose self = Ok self' →
  kconf_top_node (kconf self) ≠ MNone →
  level_size self' = max_level self' + 1 ∧
  (∀ a n, reach (heap self') (top_node self') a → heap self' !! a = Some n →
     level n ≤ max_level self') ∧
  (∃ a n, reach (heap self') (top_node self') a ∧ heap self' !! a = Some n ∧
          level n = max_level self').
Proof.
  intros H Htop.
  apply load_config_files_tree in H as (_ & _ & _ & _ & _ & _ & Hmir & _ & Hmax & Hsz).
  split_and!; [done| |].
  - intros a n Hr Hn. destruct (mirrors_reach _ _ _ Hr _ _ _ _ Hmir) as (_ & m & Hm & Hl).
    assert (m = n) as -> by congruence. lia.
  - destruct (mirrors_deepest _ _ _ _ _ _ Hmir Htop) as (a & n & Hr & Hn & Hl).
    exists a, n. split_and!; try done. rewrite Hl, Hmax. lia.
Qed.

(** ** The table *)

Lemma last_record_app (name : string) (l1 l2 : list config_info) :
  last_record name (l1 ++ l2) =
  match last_record name l2 with
  | Some c => Some c
  | None => last_record name l1
  end.
Proof.
  induction l1 as [|ci l1 IH]; [simpl; by destruct (last_record name l2)|].
  rewrite <- app_comm_cons, !last_record_cons, IH.
  by destruct (last_record name l2), (last_record name l1).
Qed.

Lemma load_config_files_list (files : list string) (replace : bool)
    (verbose : option bool) (self self' : DefConfigPrinter) :
  load_config_files files replace verbose self = Ok self' →
  defined_config_list self' = defined_config_list self ++ records_of files.
Proof.
  intros H. apply load_config_files_inv in H
    as (k & self1 & self2 & ts & _ & _ & E1 & _ & A & -> & _).
  simpl. assert (defined_config_list self2 = defined_config_list self1) as ->
    by (by rewrite <- A).
  by subst self1.
Qed.

Lemma print_state (fuel : nat) (params : list param) (file : stream)
    (self self' : DefConfigPrinter) (out : output) :
  print fuel params file self = Ok (self', out) →
  self' = self ∨ generate_print_format [] self = Ok self'.
Proof.
  unfold print. intros H. apply bind_Ok_inv in H as (s1 & H1 & H).
  apply bind_Ok_inv in H as (o & _ & H). injection H as <- _.
  destruct params; [by right|]. injection H1 as <-. by left.
Qed.

Lemma tables_agree_formats (params : list param) (self self' : DefConfigPrinter) :
  generate_print_format params self = Ok self' → tables_agree self → tables_agree self'.
Proof. intros H. by apply generate_print_format_inv in H as (ts & -> & _). Qed.

(** X6.  In every state of the printer the table holds, for every name,
    the last record of that name in the list of records; an entry is thus
    stored under its own name. *)
Theorem table_is_last_of_list (self : DefConfigPrinter) :
  usable self →
  tables_agree self ∧
  ∀ name ci, defined_config_dict self !! name = Some ci →
    ci ∈ defined_config_list self ∧ ci_name ci = name.
Proof.
  intros Hu.
  assert (tables_agree self) as Ht.
  { induction Hu as [top self Hi|files verbose self self' _ IH H
                    |files replace verbose self self' _ IH H
                    |params self self' _ IH H|fuel params file self self' out _ IH H].
    - apply generate_print_format_inv in Hi as (ts & -> & _). intros name. apply lookup_empty.
    - unfold preload_config_files in H. apply bind_Ok_inv in H as (k & _ & H).
      by injection H as <-.
    - intros name. rewrite (load_config_files_dict _ _ _ _ _ H).
      rewrite (load_config_files_list _ _ _ _ _ H), last_record_app, IH.
      by destruct (last_record name (records_of files)).
    - by eapply tables_agree_formats.
    - apply print_state in H as [->|H]; [done|]. by eapply tables_agree_formats. }
  split; [done|]. intros name ci Hl. rewrite Ht in Hl. by apply last_record_Some.
Qed.

(** X7.  Two calls of [load_config_files] in a row leave the table and the
    list that one call on the concatenated file lists leaves, whatever the
    [replace] flags are; in particular the entries of the second call
    override those of the first, and loading the same files a second time
    leaves the table as it is and doubles their records in the list. *)
Theorem load_config_files_twice (files1 files2 : list string) (r1 r2 : bool)
    (v1 v2 : option bool) (self self1 self2 : DefConfigPrinter) :
  load_config_files files1 r1 v1 self = Ok self1 →
  load_config_files files2 r2 v2 self1 = Ok self2 →
  (∀ r v self12, load_config_files (files1 ++ files2) r v self = Ok self12 →
     defined_config_dict self12 = defined_config_dict self2 ∧
     defined_config_list self12 = defined_config_list self2) ∧
  (∀ name, defined_config_dict self2 !! name =
           match last_record name (records_of files2) with
           | Some ci => Some ci
           | None => defined_config_dict self1 !! name
           end) ∧
  (files2 = files1 →
   defined_config_dict self2 = defined_config_dict self1 ∧
   defined_config_list self2 = defined_config_list self1 ++ records_of files1).
Proof.
  intros H1 H2.
  pose proof (load_config_files_dict _ _ _ _ _ H1) as D1.
  pose proof (load_config_files_dict _ _ _ _ _ H2) as D2.
  pose proof (load_config_files_list _ _ _ _ _ H1) as L1.
  pose proof (load_config_files_list _ _ _ _ _ H2) as L2.
  split_and!.
  - intros r v self12 H12. split.
    + apply map_eq. intros name.
      rewrite (load_config_files_dict _ _ _ _ _ H12), D2, D1, records_of_app, last_record_app.
      by destruct (last_record name (records_of files2)).
    + by rewrite (load_config_files_list _ _ _ _ _ H12), L2, L1, records_of_app, app_assoc.
  - exact D2.
  - intros ->. split; [|done]. apply map_eq. intros name. rewrite D2, D1.
    by destruct (last_record name (records_of files1)).
Qed.

(** *** Files that cannot be read *)

Lemma kconf_load_config_readable (g : string) (replace : bool) (verbose : option bool)
    (k : Kconfig) :
  readable g →
  kconf_load_config g replace verbose k =
  Ok (MkKconfig (kconf_top_node k) (kconf_calls k ++ [KCall g replace verbose])).
Proof. intros [lines Hl]. unfold kconf_load_config. by rewrite Hl. Qed.

Lemma load_config_readable (g : string) (self : DefConfigPrinter) :
  readable g → is_Ok (load_config g self).
Proof. intros [lines Hl]. unfold load_config. rewrite Hl. by eexists. Qed.

Lemma kconf_load_config_unreadable (f : string) (replace : bool) (verbose : option bool)
    (k : Kconfig) :
  ¬ readable f → kconf_load_config f replace verbose k = Err (load_error f).
Proof.
  intros Hf. unfold kconf_load_config, load_error.
  destruct (open_config f) as [| |lines] eqn:E; [done|done|].
  destruct Hf. by exists lines.
Qed.

Lemma foldM_kconf_unreadable (good : list string) (f : string) (rest : list string)
    (replace : bool) (verbose : option bool) :
  Forall readable good → ¬ readable f →
  ∀ k, foldM (λ k g, kconf_load_config g replace verbose k) k (good ++ f :: rest) =
       Err (load_error f).
Proof.
  intros Hg Hf. induction Hg as [|g good Hl _ IH]; intros k.
  - cbn [app foldM]. by rewrite kconf_load_config_unreadable.
  - rewrite <- app_comm_cons. cbn [foldM].
    rewrite (kconf_load_config_readable _ _ _ _ Hl), bind_Ok. apply IH.
Qed.

Lemma preload_loop_unreadable (good : list string) (f : string) (rest : list string)
    (verbose : option bool) :
  Forall readable good → ¬ readable f →
  ∀ replace k, preload_loop (good ++ f :: rest) replace verbose k = Err (load_error f).
Proof.
  intros Hg Hf. induction Hg as [|g good Hl _ IH]; intros replace k.
  - cbn [app preload_loop]. by rewrite kconf_load_config_unreadable.
  - rewrite <- app_comm_cons. cbn [preload_loop].
    rewrite (kconf_load_config_readable _ _ _ _ Hl), bind_Ok. apply IH.
Qed.

(** X8.  When a file of the list cannot be read, [load_config_files] and
    [preload_config_files] fail with the error of the first such file: the
    [OSError] of a file that cannot be opened, and the [KconfigError] that
    kconfiglib raises for a file that is not UTF-8. *)
Theorem unreadable_file_fails (good : list string) (f : string) (rest : list string)
    (replace : bool) (verbose : option bool) (self : DefConfigPrinter) :
  Forall readable good → ¬ readable f →
  let e := match open_config f with
           | NotText => KconfigError f
           | _ => OSError f
           end in
  load_config_files (good ++ f :: rest) replace verbose self = Err e ∧
  preload_config_files (good ++ f :: rest) verbose self = Err e.
Proof.
  intros Hg Hf. fold (load_error f). split.
  - unfold load_config_files. by rewrite foldM_kconf_unreadable.
  - unfold preload_config_files. by rewrite preload_loop_unreadable.
Qed.

Lemma foldM_kconf_readable (files : list string) (replace : bool) (verbose : option bool) :
  Forall readable files →
  ∀ k, is_Ok (foldM (λ k g, kconf_load_config g replace verbose k) k files).
Proof.
  induction 1 as [|g files Hl _ IH]; intros k; [by eexists|].
  cbn [foldM]. rewrite (kconf_load_config_readable _ _ _ _ Hl), bind_Ok. apply IH.
Qed.

Lemma foldM_load_config_readable (files : list string) :
  Forall readable files →
  ∀ self, is_Ok (foldM (λ self g, load_config g self) self files).
Proof.
  induction 1 as [|g files Hl _ IH]; intros self; [by eexists|].
  cbn [foldM]. destruct (load_config_readable g self Hl) as [s1 ->]. rewrite bind_Ok. apply IH.
Qed.

Lemma foldM_kconf_Ok_readable (files : list string) (replace : bool) (verbose : option bool) :
  ∀ k, is_Ok (foldM (λ k g, kconf_load_config g replace verbose k) k files) →
       Forall readable files.
Proof.
  induction files as [|g files IH]; intros k [k' H]; [constructor|].
  cbn [foldM] in H. apply bind_Ok_inv in H as (k1 & H1 & H).
  constructor; [|apply (IH k1); by eexists].
  unfold kconf_load_config in H1. unfold readable.
  destruct (open_config g) as [| |lines]; [done|done|by exists lines].
Qed.

Lemma is_Ok_bind {A B} (r : result A) (f : A → result B) :
  is_Ok (r ≫= f) → is_Ok r.
Proof. intros [b H]. apply bind_Ok_inv in H as (a & -> & _). by eexists. Qed.

Lemma load_config_files_readable (files : list string) (replace : bool)
    (verbose : option bool) (self : DefConfigPrinter) :
  default_formats (print_format_params self) → Forall readable files →
  is_Ok (load_config_files files replace verbose self).
Proof.
  intros Hd Hr. unfold load_config_files.
  destruct (foldM_kconf_readable files replace verbose Hr (kconf self)) as [k ->].
  rewrite bind_Ok. cbv zeta.
  destruct (foldM_load_config_readable files Hr (set_kconf self k)) as [s0 Hs0].
  rewrite Hs0, bind_Ok.
  apply foldM_load_config in Hs0 as E0.
  destruct (make_node_tree_ok (kconf_top_node (kconf (set_max_level s0 0))) 0
              (set_max_level s0 0)) as (s2 & -> & A & _).
  rewrite bind_Ok. cbv beta iota zeta.
  rewrite generate_print_format_default; [by eexists|].
  simpl. rewrite (same_attrs_params _ _ A). by subst s0.
Qed.

(** X9.  With the default format strings, [load_config_files] returns
    exactly when every file of the list can be read, that is opened and
    decoded as UTF-8: neither the [replace] flag, nor the table, nor the
    menu tree, nor the other parameters of the templates can make it
    fail. *)
Theorem load_config_files_returns (files : list string) (replace : bool)
    (verbose : option bool) (self : DefConfigPrinter) :
  default_formats (print_format_params self) →
  (is_Ok (load_config_files files replace verbose self) ↔ Forall readable files).
Proof.
  intros Hd. split.
  - unfold load_config_files. intros H. apply is_Ok_bind in H.
    by eapply foldM_kconf_Ok_readable.
  - by apply load_config_files_readable.
Qed.

(** *** Stored lines *)

Lemma rstrip_spaces (t : string) :
  (∀ c, str_mem c t = true → isspace c = true) → rstrip t = "".
Proof.
  induction t as [|c t IH]; intros H; [done|].
  simpl. rewrite IH.
  - rewrite (H c); [done|]. simpl. by rewrite Ascii.eqb_refl.
  - intros d Hd. apply H. simpl. by destruct (Ascii.eqb d c).
Qed.

Lemma rstrip_app_spaces (s t : string) :
  (∀ c, str_mem c t = true → isspace c = true) → rstrip (s +:+ t) = rstrip s.
Proof.
  intros H. induction s as [|c s IH].
  - rewrite str_app_nil_l. simpl. by apply rstrip_spaces.
  - rewrite str_app_cons. simpl. by rewrite IH.
Qed.

Lemma rstrip_idemp (s : string) : rstrip (rstrip s) = rstrip s.
Proof.
  induction s as [|c s IH]; [done|].
  simpl. destruct (rstrip s) as [|d r] eqn:E.
  - destruct (isspace c) eqn:Ec; [done|]. simpl. by rewrite Ec.
  - simpl in *. by rewrite IH.
Qed.

Lemma rstrip_newline (s : string) : rstrip (s +:+ newline) = rstrip s.
Proof.
  apply rstrip_app_spaces. intros c. unfold newline. simpl.
  destruct (Ascii.eqb_spec c (ascii_of_nat 10)) as [->|]; [done|done].
Qed.

Lemma scan_lines_symbol (lines : list string) :
  ∀ cl cm ci, ci ∈ (scan_lines lines (cl, cm)).1 →
    ci ∈ cl ∨ ci_symbol ci = symbol_of (ci_name ci).
Proof.
  induction lines as [|l lines IH]; intros cl cm ci; [by left|].
  unfold scan_lines in *. cbn [foldl]. rewrite scan_line_classify.
  destruct (classify l) as [name| |] eqn:Hl; intros Hci; apply IH in Hci; [|done..].
  destruct Hci as [Hci|?]; [|by right].
  apply elem_of_app in Hci as [Hci|Hci]; [by left|].
  apply list_elem_of_singleton in Hci as ->. by right.
Qed.

(** X10.  A stored line has no trailing whitespace, and reading it again,
    as [print_node_config] writes it, gives the record of the same name,
    line and symbol, with an empty comment. *)
Theorem stored_line_reads_back (lines : list string) (ci : config_info) :
  ci ∈ scan lines →
  rstrip (ci_line ci) = ci_line ci ∧
  scan [ci_line ci +:+ newline] =
  [ConfigInfo (ci_name ci) (ci_line ci) (ci_symbol ci) ""].
Proof.
  intros Hci. destruct (scan_elem _ _ Hci) as (raw & _ & Hk & Hline).
  apply scan_lines_symbol in Hci as [Hci|Hs]; [by apply elem_of_nil in Hci|].
  split; [by rewrite Hline, rstrip_idemp|].
  assert (classify (ci_line ci +:+ newline) = Assignment (ci_name ci)) as Hc.
  { unfold classify in *. by rewrite rstrip_newline, Hline, rstrip_idemp. }
  unfold scan, scan_lines. cbn [foldl]. rewrite scan_line_classify, Hc. simpl.
  by rewrite rstrip_newline, Hline, rstrip_idemp, Hs.
Qed.

(** ** Printing *)

Lemma with_comments_refl self ws : with_comments self ws ws.
Proof. induction ws as [|w ws IH]; by constructor. Qed.

Lemma with_comments_app self ws1 plain1 ws2 plain2 :
  with_comments self ws1 plain1 → with_comments self ws2 plain2 →
  with_comments self (ws1 ++ ws2) (plain1 ++ plain2).
Proof.
  intros H1 H2. induction H1; simpl; [done|by constructor|by econstructor].
Qed.

Lemma with_comments_off self ws plain :
  print_comment self = false → with_comments self ws plain → ws = plain.
Proof. intros Hc H. induction H; [done|by f_equal|congruence]. Qed.

Lemma with_comments_filter self file ws plain :
  file ≠ Stdout → Forall (λ w, w.1 = file) plain → with_comments self ws plain →
  filter (λ w, w.1 = file) ws = plain.
Proof.
  intros Hf Hp H. induction H as [|w out plain H IH|a n ci out plain Hc Ha Hn H IH].
  - done.
  - apply Forall_cons in Hp as [Hw Hp]. rewrite filter_cons_True by done.
    by rewrite IH.
  - rewrite filter_cons_False by (simpl; congruence). by apply IH.
Qed.

Lemma writes_result F ws out out' : writes F ws → F out = Ok out' → out' = out ++ ws.
Proof. intros H E. rewrite H in E. by injection E. Qed.

Lemma writes_bind (F G : output → result output) ws1 ws2 :
  writes F ws1 → writes G ws2 → writes (λ out, F out ≫= G) (ws1 ++ ws2).
Proof. intros HF HG out. rewrite HF. simpl. by rewrite HG, app_assoc. Qed.

(** *** Functions that print no comment *)

Lemma but_comments_same self file F :
  (∀ out out', F out = Ok out' → ∃ ws, writes F ws ∧ Forall (λ w, w.1 = file) ws) →
  but_comments self file F F.
Proof.
  intros H out out' E. destruct (H out out' E) as (ws & Hw & Hf).
  exists ws, ws. split_and!; try done. apply with_comments_refl.
Qed.

Lemma but_comments_ret self file : but_comments self file Ok Ok.
Proof.
  intros out out' _. exists [], []. split_and!; try done; try (by constructor).
  all: intros o; by rewrite app_nil_r.
Qed.

Lemma but_comments_bind self file (F F' G G' : output → result output) :
  but_comments self file F F' → but_comments self file G G' →
  but_comments self file (λ out, F out ≫= G) (λ out, F' out ≫= G').
Proof.
  intros HF HG out out' E. apply bind_Ok_inv in E as (o1 & E1 & E2).
  destruct (HF _ _ E1) as (ws1 & p1 & W1 & W1' & C1 & T1).
  destruct (HG _ _ E2) as (ws2 & p2 & W2 & W2' & C2 & T2).
  exists (ws1 ++ ws2), (p1 ++ p2). split_and!.
  - by apply writes_bind.
  - by apply writes_bind.
  - by apply with_comments_app.
  - by apply Forall_app.
Qed.

Lemma print_node_prompt_writes self node file out out' :
  print_node_prompt self node file out = Ok out' →
  ∃ ws, writes (print_node_prompt self node file) ws ∧ Forall (λ w, w.1 = file) ws.
Proof.
  unfold print_node_prompt. intros H.
  apply bind_Ok_inv in H as (fmt & Hf & H). apply bind_Ok_inv in H as (text & Ht & H).
  exists [(file, text +:+ newline)]. split; [|by repeat constructor].
  intros o. by rewrite Hf, bind_Ok, Ht.
Qed.

Lemma print_node_help_writes self node file out out' :
  print_node_help self node file out = Ok out' →
  ∃ ws, writes (print_node_help self node file) ws ∧ Forall (λ w, w.1 = file) ws.
Proof.
  unfold print_node_help. intros H.
  apply bind_Ok_inv in H as (f1 & H1 & H). apply bind_Ok_inv in H as (f2 & H2 & H).
  destruct (help node) as [h|]; [|done].
  apply bind_Ok_inv in H as (ls & H3 & H). apply bind_Ok_inv in H as (text & H4 & H).
  exists [(file, text +:+ newline)]. split; [|by repeat constructor].
  intros o. by rewrite H1, bind_Ok, H2, bind_Ok, H3, bind_Ok, H4.
Qed.

Lemma print_node_location_writes self node file out out' :
  print_node_location self node file out = Ok out' →
  ∃ ws, writes (print_node_location self node file) ws ∧ Forall (λ w, w.1 = file) ws.
Proof.
  unfold print_node_location. cbv zeta. intros H.
  apply bind_Ok_inv in H as (fmt & Hf & H). apply bind_Ok_inv in H as (text & Ht & H).
  exists [(file, text +:+ newline)]. split; [|by repeat constructor].
  intros o. by rewrite Hf, bind_Ok, Ht.
Qed.

Lemma print_node_config_writes self node file out out' :
  print_node_config self node file out = Ok out' →
  ∃ ws, writes (print_node_config self node file) ws ∧ Forall (λ w, w.1 = file) ws.
Proof.
  unfold print_node_config, writes. intros H.
  destruct (config node) as [ci|].
  { exists [(file, ci_line ci +:+ newline)]. split; [done|by repeat constructor]. }
  destruct (is_symbol node).
  2:{ exists []. split; [|done]. intros o. by rewrite app_nil_r. }
  destruct (mn_item (menu_node node)); try done. cbv zeta in H |- *.
  apply bind_Ok_inv in H as (fmt & Hf & H). apply bind_Ok_inv in H as (text & Ht & H).
  exists [(file, text +:+ newline)]. split; [|by repeat constructor].
  intros o. by rewrite Hf, bind_Ok, Ht.
Qed.

Lemma bind_assoc {A B C} (r : result A) (f : A → result B) (g : B → result C) :
  (r ≫= f) ≫= g = r ≫= (λ a, f a ≫= g).
Proof. by destruct r. Qed.

Lemma print_menu_node_head rec self node force_print file out :
  print_menu_node rec self node force_print file out =
  (out ← print_node_head self node force_print file out;
   out ← (match list_ node with
           | Some _ => rec (list_ node) (is_choice node) file out
           | None => Ok out
           end);
   if truthy (prompt node) then
     fmt ← index (print_menu_end_format self) (level node);
     text ← format fmt {[ "prompt" := text_of (prompt node) ]};
     Ok (print_to file text out)
   else Ok out).
Proof.
  unfold print_menu_node, print_node_head. cbv zeta.
  rewrite !bind_assoc. apply bind_ext. intros [o1 nl1]. simpl.
  rewrite !bind_assoc. apply bind_ext. intros o2.
  rewrite !bind_assoc. apply bind_ext. intros [o3 nl3]. done.
Qed.

Lemma print_config_node_head rec self node force_print file out :
  print_config_node rec self node force_print file out =
  (out ← print_node_head self node force_print file out;
   match list_ node with
   | Some _ => rec (list_ node) false file out
   | None => Ok out
   end).
Proof.
  unfold print_config_node, print_node_head. cbv zeta.
  rewrite !bind_assoc. apply bind_ext. intros [o1 nl1]. simpl.
  rewrite !bind_assoc. apply bind_ext. intros o2.
  rewrite !bind_assoc. apply bind_ext. intros [o3 nl3]. done.
Qed.

(** The part before the children, as a sequence of four steps. *)
Lemma print_node_head_steps self node force_print file out :
  print_node_head self node force_print file out =
  (out ← (if truthy (prompt node) then
            out ← print_node_prompt self node file out;
            out ← (if print_help self && truthy (help node)
                    then print_node_help self node file out else Ok out);
            if print_location self
            then print_node_location self node file out else Ok out
          else Ok out);
   out ← (if print_comment self then print_node_comment self node file out else Ok out);
   out ← (if bool_decide (is_Some (config node)) || print_orig_config self || force_print
           then print_node_config self node file out else Ok out);
   Ok (if truthy (prompt node) ||
          (bool_decide (is_Some (config node)) || print_orig_config self || force_print)
       then print_to file "" out else out)).
Proof.
  unfold print_node_head. cbv zeta.
  destruct (truthy (prompt node)); simpl.
  - destruct (print_node_prompt _ _ _ _) as [o1|]; [|done]. simpl.
    destruct (if print_help self && truthy (help node) then _ else _) as [o2|]; [|done]. simpl.
    destruct (if print_location self then _ else _) as [o3|]; [|done]. simpl.
    destruct (if print_comment self then _ else _) as [o4|]; [|done]. simpl.
    destruct (_ || _ || _); simpl; [|done].
    by destruct (print_node_config _ _ _ _).
  - destruct (if print_comment self then _ else _) as [o4|]; [|done]. simpl.
    destruct (_ || _ || _); simpl; [|done].
    by destruct (print_node_config _ _ _ _).
Qed.

Lemma print_node_head_comments self node force_print file a :
  heap self !! a = Some node →
  but_comments self file (print_node_head self node force_print file)
    (print_node_head (comments_off self) node force_print file).
Proof.
  intros Ha.
  assert (S1 : but_comments self file
    (λ out, if truthy (prompt node) then
              out ← print_node_prompt self node file out;
              out ← (if print_help self && truthy (help node)
                      then print_node_help self node file out else Ok out);
              if print_location self
              then print_node_location self node file out else Ok out
            else Ok out)
    (λ out, if truthy (prompt node) then
              out ← print_node_prompt self node file out;
              out ← (if print_help self && truthy (help node)
                      then print_node_help self node file out else Ok out);
              if print_location self
              then print_node_location self node file out else Ok out
            else Ok out)).
  { destruct (truthy (prompt node)); [|apply but_comments_ret].
    apply (but_comments_bind self file (print_node_prompt self node file)
             (print_node_prompt self node file)).
    { apply but_comments_same. apply print_node_prompt_writes. }
    apply (but_comments_bind self file
             (λ out, if print_help self && truthy (help node)
                     then print_node_help self node file out else Ok out)
             (λ out, if print_help self && truthy (help node)
                     then print_node_help self node file out else Ok out)
             (λ out, if print_location self
                     then print_node_location self node file out else Ok out)
             (λ out, if print_location self
                     then print_node_location self node file out else Ok out)).
    - destruct (print_help self && truthy (help node)); [|apply but_comments_ret].
      apply but_comments_same. apply print_node_help_writes.
    - destruct (print_location self); [|apply but_comments_ret].
      apply but_comments_same. apply print_node_location_writes. }
  assert (S2 : but_comments self file
    (λ out, if print_comment self then print_node_comment self node file out else Ok out)
    Ok).
  { destruct (print_comment self) eqn:Ec; [|apply but_comments_ret].
    intros out out' _. unfold print_node_comment, writes.
    destruct (config node) as [ci|] eqn:En.
    - exists [(Stdout, ci_comment ci +:+ newline)], []. split_and!; try done.
      + intros o. by rewrite app_nil_r.
      + eapply with_comments_comment; [done..|constructor].
    - exists [], []. split_and!; try done; try (by constructor).
      all: intros o; by rewrite app_nil_r. }
  assert (S3 : but_comments self file
    (λ out, if bool_decide (is_Some (config node)) || print_orig_config self || force_print
            then print_node_config self node file out else Ok out)
    (λ out, if bool_decide (is_Some (config node)) || print_orig_config self || force_print
            then print_node_config self node file out else Ok out)).
  { destruct (_ || _ || _); [|apply but_comments_ret].
    apply but_comments_same. apply print_node_config_writes. }
  assert (S4 : but_comments self file
    (λ out, Ok (if truthy (prompt node) ||
                   (bool_decide (is_Some (config node)) || print_orig_config self || force_print)
                then print_to file "" out else out))
    (λ out, Ok (if truthy (prompt node) ||
                   (bool_decide (is_Some (config node)) || print_orig_config self || force_print)
                then print_to file "" out else out))).
  { apply but_comments_same. intros out out' _.
    destruct (truthy (prompt node) || _).
    - exists [(file, "" +:+ newline)]. split; [done|by repeat constructor].
    - exists []. split; [|done]. intros o. by rewrite app_nil_r. }
  pose proof (but_comments_bind _ _ _ _ _ _ S1
                (but_comments_bind _ _ _ _ _ _ S2
                   (but_comments_bind _ _ _ _ _ _ S3 S4))) as H.
  intros out out' E. rewrite print_node_head_steps in E.
  destruct (H out out' E) as (ws & plain & W & W' & C & T).
  exists ws, plain. split_and!; try done.
  - intros o. rewrite print_node_head_steps. apply W.
  - intros o. rewrite print_node_head_steps. apply W'.
Qed.

Lemma menu_end_writes self node file out out' :
  (if truthy (prompt node) then
     fmt ← index (print_menu_end_format self) (level node);
     text ← format fmt {[ "prompt" := text_of (prompt node) ]};
     Ok (print_to file text out)
   else Ok out) = Ok out' →
  ∃ ws, writes (λ out, if truthy (prompt node) then
                         fmt ← index (print_menu_end_format self) (level node);
                         text ← format fmt {[ "prompt" := text_of (prompt node) ]};
                         Ok (print_to file text out)
                       else Ok out) ws ∧
        Forall (λ w, w.1 = file) ws.
Proof.
  destruct (truthy (prompt node)).
  - intros H. apply bind_Ok_inv in H as (fmt & Hf & H).
    apply bind_Ok_inv in H as (text & Ht & H).
    exists [(file, text +:+ newline)]. split; [|by repeat constructor].
    intros o. by rewrite Hf, bind_Ok, Ht.
  - intros _. exists []. split; [|done]. intros o. by rewrite app_nil_r.
Qed.

Lemma print_node_tree_comments (fuel : nat) (self : DefConfigPrinter) (file : stream) :
  ∀ node force_print,
    but_comments self file (print_node_tree fuel self node force_print file)
      (print_node_tree fuel (comments_off self) node force_print file).
Proof.
  induction fuel as [|fuel IH]; intros node force_print.
  - destruct node; [by intros out out' ?|]. apply but_comments_ret.
  - destruct node as [a|]; [|apply but_comments_ret].
    cbn [print_node_tree]. change (heap (comments_off self)) with (heap self).
    destruct (heap self !! a) as [n|] eqn:Ha; [|by intros out out' ?].
    apply (but_comments_bind self file
      (λ out, if defined n || force_print then
                if is_menu n
                then print_menu_node (print_node_tree fuel self) self n force_print file out
                else print_config_node (print_node_tree fuel self) self n force_print file out
              else Ok out)
      (λ out, if defined n || force_print then
                if is_menu n
                then print_menu_node (print_node_tree fuel (comments_off self))
                       (comments_off self) n force_print file out
                else print_config_node (print_node_tree fuel (comments_off self))
                       (comments_off self) n force_print file out
              else Ok out)
      (print_node_tree fuel self (next n) force_print file)
      (print_node_tree fuel (comments_off self) (next n) force_print file)); [|apply IH].
    destruct (defined n || force_print); [|apply but_comments_ret].
    assert (Hc : ∀ fp, but_comments self file
      (λ out, match list_ n with
              | Some _ => print_node_tree fuel self (list_ n) fp file out
              | None => Ok out
              end)
      (λ out, match list_ n with
              | Some _ => print_node_tree fuel (comments_off self) (list_ n) fp file out
              | None => Ok out
              end)).
    { intros fp. destruct (list_ n); [apply IH|apply but_comments_ret]. }
    destruct (is_menu n).
    + pose proof (but_comments_bind _ _ _ _ _ _
                    (print_node_head_comments self n force_print file a Ha)
                    (but_comments_bind _ _ _ _ _ _ (Hc (is_choice n))
                       (but_comments_same self file _ (menu_end_writes self n file)))) as H.
      intros out out' E. rewrite print_menu_node_head in E.
      destruct (H out out' E) as (ws & plain & W & W' & C & T).
      exists ws, plain. split_and!; try done.
      * intros o. rewrite print_menu_node_head. apply W.
      * intros o. rewrite print_menu_node_head. apply W'.
    + pose proof (but_comments_bind _ _ _ _ _ _
                    (print_node_head_comments self n force_print file a Ha) (Hc false)) as H.
      intros out out' E. rewrite print_config_node_head in E.
      destruct (H out out' E) as (ws & plain & W & W' & C & T).
      exists ws, plain. split_and!; try done.
      * intros o. rewrite print_config_node_head. apply W.
      * intros o. rewrite print_config_node_head. apply W'.
Qed.

Lemma generate_print_format_comments (self self' : DefConfigPrinter) :
  generate_print_format [] self = Ok self' →
  generate_print_format [] (comments_off self) = Ok (comments_off self').
Proof.
  unfold generate_print_format. cbv zeta. cbn [update_params foldl]. intros H.
  apply bind_Ok_inv in H as (ts & Hts & H). injection H as <-.
  change (level_size (comments_off self)) with (level_size self).
  change (print_format_params (comments_off self))
    with (set_param (print_format_params self) (P_print_comment false)).
  assert (mapM (level_templates (set_param (print_format_params self) (P_print_comment false))
                 (slice_assign (replicate (level_size self) "")
                    (fp_print_first_level
                       (set_param (print_format_params self) (P_print_comment false)))
                    (fp_print_first_level
                       (set_param (print_format_params self) (P_print_comment false)) +
                     Z.of_nat (length (fp_separator_char_list
                       (set_param (print_format_params self) (P_print_comment false)))))
                    (fp_separator_char_list
                       (set_param (print_format_params self) (P_print_comment false)))))
            (seq 0 (level_size self)) = Ok ts) as ->.
  { rewrite <- Hts. destruct (print_format_params self). simpl. done. }
  simpl. f_equal. unfold comments_off, set_formats. simpl.
  destruct (print_format_params self). done.
Qed.

(** What [print] writes, and the same [print] without comments. *)
Lemma print_comments (fuel : nat) (params : list param) (file : stream)
    (self self' : DefConfigPrinter) (out : output) :
  print fuel params file self = Ok (self', out) →
  ∃ plain,
    print fuel params file (comments_off self) = Ok (comments_off self', plain) ∧
    Forall (λ w, w.1 = file) plain ∧
    with_comments self' out plain.
Proof.
  unfold print. intros H. apply bind_Ok_inv in H as (s1 & H1 & H).
  apply bind_Ok_inv in H as (o & Ho & H). injection H as <- <-.
  assert ((match params with
           | [] => generate_print_format params (comments_off self)
           | _ => Ok (comments_off self)
           end) = Ok (comments_off s1)) as ->.
  { destruct params; [by apply generate_print_format_comments|by injection H1 as <-]. }
  rewrite bind_Ok. change (print_first_level (comments_off s1)) with (print_first_level s1).
  change (top_node (comments_off s1)) with (top_node s1).
  change (heap (comments_off s1)) with (heap s1).
  assert (∀ node, print_node_tree fuel s1 node false file [] = Ok o →
            ∃ plain, print_node_tree fuel (comments_off s1) node false file [] = Ok plain ∧
                     Forall (λ w, w.1 = file) plain ∧ with_comments s1 o plain) as Hrun.
  { intros node E.
    destruct (print_node_tree_comments fuel s1 file node false [] o E)
      as (ws & plain & W & W' & C & T).
    exists plain. rewrite W', app_nil_l. split_and!; try done.
    apply (writes_result _ _ _ _ W) in E. by subst o. }
  destruct (print_first_level s1 =? 1)%Z.
  - destruct (top_node s1) as [a|]; [|done]. destruct (heap s1 !! a) as [top|]; [|done].
    destruct (Hrun _ Ho) as (plain & -> & T & C). by exists plain.
  - destruct (Hrun _ Ho) as (plain & -> & T & C). by exists plain.
Qed.

(** X11.  What [print] writes is what the same [print] writes with the
    comments switched off, all of which goes to the file that was asked
    for, with comment lines in between, which go to [sys.stdout].  Without
    comments nothing else is written, and an output file receives exactly
    what is written without comments. *)
Theorem print_writes_to_file (fuel : nat) (params : list param) (file : stream)
    (self self' : DefConfigPrinter) (out : output) :
  print fuel params file self = Ok (self', out) →
  ∃ plain,
    print fuel params file (comments_off self) = Ok (comments_off self', plain) ∧
    Forall (λ w, w.1 = file) plain ∧
    with_comments self' out plain ∧
    (print_comment self' = false → out = plain) ∧
    (file ≠ Stdout → filter (λ w, w.1 = file) out = plain).
Proof.
  intros H. destruct (print_comments _ _ _ _ _ _ H) as (plain & Hp & T & C).
  exists plain. split_and!; try done.
  - intros Hc. by eapply with_comments_off.
  - intros Hf. by eapply with_comments_filter.
Qed.

Lemma brace_free_app (s t : string) :
  brace_free s = true → brace_free t = true → brace_free (s +:+ t) = true.
Proof.
  intros Hs Ht. induction s as [|c s IH]; [done|].
  rewrite str_app_cons. simpl in *. apply andb_prop in Hs as [Hc Hs].
  by rewrite Hc, IH.
Qed.

Lemma brace_free_repeat (s : string) (n : nat) :
  brace_free s = true → brace_free (str_repeat s n) = true.
Proof. intros Hs. induction n as [|n IH]; [done|]. simpl. by apply brace_free_app. Qed.

Lemma brace_free_take (n : nat) (s : string) :
  brace_free s = true → brace_free (str_take n s) = true.
Proof.
  revert s. induction n as [|n IH]; intros [|c s] Hs; try done.
  simpl in *. apply andb_prop in Hs as [Hc Hs]. by rewrite Hc, IH.
Qed.

Lemma brace_free_slice_to (s : string) (k : Z) :
  brace_free s = true → brace_free (str_slice_to s k) = true.
Proof. intros Hs. unfold str_slice_to. case_match; by apply brace_free_take. Qed.

Lemma fills_render (l : list seg) (keys : list string) :
  forallb seg_ok l = true →
  Forall (λ x, match x with
               | Field n => all_digits n = false ∧ n ∈ keys
               | _ => True
               end) l →
  fills (render l) keys.
Proof.
  intros Hok Hl kw Hkw. rewrite format_render by done. apply subst_is_Ok.
  eapply Forall_impl; [exact Hl|]. intros [s|n| |]; try done. intros [Hd Hn]. auto.
Qed.

Lemma separator_chars_brace_free (f : format_params) (n lvl : nat) (c : string) :
  Forall (λ c, brace_free c = true) (fp_separator_char_list f) →
  separator_chars f n !! lvl = Some c → brace_free c = true.
Proof.
  intros Hcs Hc. unfold separator_chars, slice_assign in Hc. cbv zeta in Hc.
  rewrite take_replicate, drop_replicate in Hc. apply list_elem_of_lookup_2 in Hc.
  apply elem_of_app in Hc as [Hc|Hc]; [|apply elem_of_app in Hc as [Hc|Hc]].
  - by apply elem_of_replicate in Hc as [-> _].
  - by eapply (proj1 (Forall_forall _ _) Hcs).
  - by apply elem_of_replicate in Hc as [-> _].
Qed.

Ltac fills_by segs :=
  match goal with
  | |- fills ?t ?keys =>
      replace t with (render segs);
      [ apply fills_render;
        [ cbn [forallb seg_ok]; rewrite ?andb_true_r;
          repeat (apply andb_true_intro; split); try reflexivity; try assumption
        | repeat constructor; try reflexivity; set_solver ]
      | cbn [render]; str_norm; reflexivity ]
  end.

Lemma default_templates_fills (f : format_params) (c : string) (lvl : nat) :
  brace_free (fp_prompt_indent_char f) = true →
  brace_free (fp_separator_indent_char f) = true →
  brace_free (fp_info_indent_char f) = true →
  brace_free c = true →
  fills (t_prompt (default_templates f c lvl)) ["prompt"] ∧
  fills (t_menu_end (default_templates f c lvl)) ["prompt"] ∧
  fills (t_help (default_templates f c lvl)) ["help"] ∧
  fills (t_help_line (default_templates f c lvl)) ["help_line"] ∧
  fills (t_orig_config (default_templates f c lvl)) ["config"] ∧
  fills (t_location (default_templates f c lvl)) ["filename"; "linenr"].
Proof.
  intros Hp Hs Hi Hc. unfold default_templates. cbv zeta. cbn [t_prompt t_menu_end t_help
    t_help_line t_orig_config t_location].
  assert (brace_free (separator_of f c lvl) = true) as Hsep.
  { unfold separator_of. apply brace_free_slice_to, brace_free_app;
      [by apply brace_free_repeat|]. apply brace_free_app; [done|].
    unfold str_mul. by apply brace_free_repeat. }
  pose proof (brace_free_repeat _ lvl Hp) as Hpi.
  pose proof (brace_free_repeat _ lvl Hi) as Hii.
  generalize dependent (separator_of f c lvl). intros sep Hsep.
  generalize dependent (str_repeat (fp_prompt_indent_char f) lvl). intros pi Hpi.
  generalize dependent (str_repeat (fp_info_indent_char f) lvl). intros ii Hii.
  split_and!.
  - fills_by [Lit "#"; Lit sep; Lit (newline +:+ "#"); Lit pi; Lit " "; Field "prompt";
              Lit (newline +:+ "#"); Lit sep].
  - fills_by [Lit "#"; Lit pi; Lit " end of "; Field "prompt"; Lit newline].
  - fills_by [Lit "#"; Lit ii; Lit (" help" +:+ newline); Field "help";
              Lit (newline +:+ "#"); Lit ii].
  - fills_by [Lit "#"; Lit ii; Lit "     "; Field "help_line"].
  - fills_by [Lit "#"; Lit ii; Lit " "; Field "config"].
  - fills_by [Lit "#"; Lit ii; Lit " "; Field "filename"; Lit " : "; Field "linenr";
              Lit (newline +:+ "#"); Lit ii].
Qed.

Lemma mapM_is_Ok {A B} (f : A → result B) (l : list A) :
  (∀ x, x ∈ l → is_Ok (f x)) → is_Ok (mapM f l).
Proof.
  induction l as [|x l IH]; intros H; [by eexists|].
  cbn [mapM]. destruct (H x) as [y ->]; [apply list_elem_of_here|].
  destruct IH as [ys ->]; [intros z Hz; apply H; by apply list_elem_of_further|].
  by eexists.
Qed.

Lemma index_Some {A} (l : list A) (i : nat) (x : A) : l !! i = Some x → index l i = Ok x.
Proof. unfold index. by intros ->. Qed.

Lemma fills_singleton (t k v : string) : fills t [k] → is_Ok (format t {[ k := v ]}).
Proof.
  intros H. apply H. intros k' Hk. apply list_elem_of_singleton in Hk as ->.
  rewrite lookup_singleton_eq. by eexists.
Qed.

Lemma print_node_prompt_total self node file out :
  fillable self (level node) → is_Ok (print_node_prompt self node file out).
Proof.
  intros ((t & Ht & Hf) & _). unfold print_node_prompt.
  rewrite (index_Some _ _ _ Ht), bind_Ok.
  destruct (fills_singleton t "prompt" (text_of (prompt node)) Hf) as [text ->].
  by eexists.
Qed.

Lemma print_node_help_total self node file out :
  truthy (help node) = true → fillable self (level node) →
  is_Ok (print_node_help self node file out).
Proof.
  intros Hh (_ & _ & (t & Ht & Hf) & (tl & Htl & Hfl) & _). unfold print_node_help.
  rewrite (index_Some _ _ _ Htl), bind_Ok, (index_Some _ _ _ Ht), bind_Ok.
  destruct (help node) as [h|]; [|done].
  destruct (mapM_is_Ok (λ help_line, format tl {[ "help_line" := help_line ]})
              (splitlines h)) as [ls ->].
  { intros x _. by apply fills_singleton. }
  rewrite bind_Ok.
  destruct (fills_singleton t "help" (join newline ls) Hf) as [text ->].
  by eexists.
Qed.

Lemma print_node_location_total self node file out :
  fillable self (level node) → is_Ok (print_node_location self node file out).
Proof.
  intros (_ & _ & _ & _ & _ & (t & Ht & Hf)). unfold print_node_location. cbv zeta.
  rewrite (index_Some _ _ _ Ht), bind_Ok.
  destruct (Hf (<[ "filename" := mn_filename (menu_node node) ]>
                  {[ "linenr" := pretty (mn_linenr (menu_node node)) ]})) as [text ->].
  { intros k Hk. apply elem_of_cons in Hk as [->|Hk].
    - rewrite lookup_insert_eq. by eexists.
    - apply list_elem_of_singleton in Hk as ->.
      rewrite lookup_insert_ne by done. rewrite lookup_singleton_eq. by eexists. }
  by eexists.
Qed.

Lemma print_node_config_total self node file out :
  derived node → fillable self (level node) →
  is_Ok (print_node_config self node file out).
Proof.
  intros (Hs & _) (_ & _ & _ & _ & (t & Ht & Hf) & _). unfold print_node_config.
  destruct (config node); [by eexists|].
  destruct (is_symbol node) eqn:E; [|by eexists].
  simpl in Hs. destruct (mn_item (menu_node node)); try done.
  cbv zeta. rewrite (index_Some _ _ _ Ht), bind_Ok.
  destruct (fills_singleton t "config"
              (lstrip "# " (rstrip (config_string (kconf_calls (kconf self)) sym))) Hf)
    as [text ->].
  by eexists.
Qed.

Lemma print_node_head_total self node force_print file out :
  derived node → fillable self (level node) →
  is_Ok (print_node_head self node force_print file out).
Proof.
  intros Hd Hf. unfold print_node_head. cbv zeta.
  assert (∃ o1 nl1,
    ((if truthy (prompt node) then
        out ← print_node_prompt self node file out;
        out ← (if print_help self && truthy (help node)
                then print_node_help self node file out else Ok out);
        out ← (if print_location self
                then print_node_location self node file out else Ok out);
        Ok (out, true)
      else Ok (out, false)) : result (output * bool)) = Ok (o1, nl1))
    as (o1 & nl1 & ->).
  { destruct (truthy (prompt node)); [|by eexists _, _].
    destruct (print_node_prompt_total self node file out Hf) as [a ->]. rewrite bind_Ok.
    assert (is_Ok (if print_help self && truthy (help node)
                   then print_node_help self node file a else Ok a)) as [b ->].
    { destruct (print_help self); [|by eexists]. simpl.
      destruct (truthy (help node)) eqn:Eh; [by apply print_node_help_total|by eexists]. }
    rewrite bind_Ok.
    assert (is_Ok (if print_location self
                   then print_node_location self node file b else Ok b)) as [c ->].
    { destruct (print_location self); [by apply print_node_location_total|by eexists]. }
    by eexists _, _. }
  rewrite bind_Ok. cbv beta iota.
  assert (is_Ok (if print_comment self then print_node_comment self node file o1 else Ok o1))
    as [o2 ->].
  { destruct (print_comment self); [|by eexists]. unfold print_node_comment.
    destruct (config node); by eexists. }
  rewrite bind_Ok.
  destruct (_ || _ || _); [|by eexists].
  destruct (print_node_config_total self node file o2 Hd Hf) as [o3 ->]. by eexists.
Qed.

(** The printer returns on a tree that mirrors a menu, within a bound on
    the iterations that is the number of nodes. *)
Lemma print_node_tree_total (self : DefConfigPrinter) (menu : MenuNode) :
  ∀ pn lvl base ptr,
    mirrors (heap self) pn lvl base menu ptr →
    (∀ a n, base ≤ a < base + size menu → heap self !! a = Some n →
       derived n ∧ fillable self (level n)) →
    ∀ fuel force_print file out, size menu ≤ fuel →
      is_Ok (print_node_tree fuel self ptr force_print file out).
Proof.
  induction menu as [|d ml IHl mn IHn]; intros pn lvl base ptr; cbn [mirrors size].
  - intros -> _ fuel force_print file out _. destruct fuel; by eexists.
  - intros (-> & n & Hn & E1 & E2 & E3 & Ml & Mn) Hall fuel force_print file out Hfuel.
    destruct fuel as [|fuel]; [lia|]. cbn [print_node_tree]. rewrite Hn.
    destruct (Hall base n) as [Hd Hf]; [lia|done|].
    assert (Hrec : ∀ fp fl o, is_Ok (print_node_tree fuel self (list_ n) fp fl o)).
    { intros fp fl o. eapply IHl; [exact Ml| |lia].
      intros a m Ha. apply Hall. lia. }
    assert (is_Ok (if defined n || force_print then
                     if is_menu n
                     then print_menu_node (print_node_tree fuel self) self n force_print file out
                     else print_config_node (print_node_tree fuel self) self n force_print file out
                   else Ok out)) as [o1 ->].
    { destruct (defined n || force_print); [|by eexists].
      destruct (print_node_head_total self n force_print file out Hd Hf) as [o2 Ho2].
      destruct (is_menu n).
      - rewrite print_menu_node_head, Ho2, bind_Ok.
        assert (is_Ok (match list_ n with
                       | Some _ => print_node_tree fuel self (list_ n) (is_choice n) file o2
                       | None => Ok o2
                       end)) as [o3 ->].
        { destruct (list_ n); [apply Hrec|by eexists]. }
        rewrite bind_Ok. destruct (truthy (prompt n)); [|by eexists].
        destruct Hf as (_ & (t & Ht & Hft) & _).
        rewrite (index_Some _ _ _ Ht), bind_Ok.
        destruct (fills_singleton t "prompt" (text_of (prompt n)) Hft) as [text ->].
        by eexists.
      - rewrite print_config_node_head, Ho2, bind_Ok.
        destruct (list_ n); [apply Hrec|by eexists]. }
    rewrite bind_Ok. eapply IHn; [exact Mn| |lia].
    intros a m Ha. apply Hall. lia.
Qed.

(** *** Up-to-date templates *)

Lemma generate_print_format_again (params : list param) (self self' : DefConfigPrinter) :
  generate_print_format params self = Ok self' →
  generate_print_format [] self' = Ok self'.
Proof.
  unfold generate_print_format. cbv zeta. intros H.
  apply bind_Ok_inv in H as (ts & Hts & H). injection H as <-.
  simpl. by rewrite Hts.
Qed.

Lemma load_config_files_formats (files : list string) (replace : bool)
    (verbose : option bool) (self self' : DefConfigPrinter) :
  load_config_files files replace verbose self = Ok self' →
  generate_print_format [] self' = Ok self'.
Proof.
  unfold load_config_files. intros H.
  apply bind_Ok_inv in H as (k & _ & H). cbv zeta in H.
  apply bind_Ok_inv in H as (s0 & _ & H).
  apply bind_Ok_inv in H as ([s2 r] & _ & H).
  by eapply generate_print_format_again.
Qed.

Lemma generate_print_format_kconf (self : DefConfigPrinter) (k : Kconfig) :
  generate_print_format [] self = Ok self →
  generate_print_format [] (set_kconf self k) = Ok (set_kconf self k).
Proof.
  unfold generate_print_format. cbv zeta. intros H.
  apply bind_Ok_inv in H as (ts & Hts & H). simpl in *. rewrite Hts, bind_Ok.
  injection H as H. f_equal.
  assert (∀ f ts, set_formats (set_kconf self k) f ts = set_kconf (set_formats self f ts) k)
    as E by done.
  by rewrite E, H.
Qed.

Lemma usable_formats (self : DefConfigPrinter) :
  usable self → generate_print_format [] self = Ok self.
Proof.
  induction 1 as [top self Hi|files verbose self self' _ IH H
                 |files replace verbose self self' _ IH H
                 |params self self' _ IH H|fuel params file self self' out _ IH H].
  - by eapply generate_print_format_again.
  - unfold preload_config_files in H. apply bind_Ok_inv in H as (k & _ & H).
    injection H as <-. by apply generate_print_format_kconf.
  - by eapply load_config_files_formats.
  - by eapply generate_print_format_again.
  - apply print_state in H as [->|H]; [done|]. by eapply generate_print_format_again.
Qed.

Lemma print_up_to_date (fuel : nat) (params : list param) (file : stream)
    (self : DefConfigPrinter) :
  generate_print_format [] self = Ok self →
  print fuel params file self =
  (out ← (if (print_first_level self =? 1)%Z then
            match top_node self with
            | None => Err AttributeError
            | Some a =>
                match heap self !! a with
                | None => Err Dangling
                | Some top => print_node_tree fuel self (list_ top) false file []
                end
            end
          else print_node_tree fuel self (top_node self) false file []);
   Ok (self, out)).
Proof. intros H. unfold print. destruct params; by rewrite ?H. Qed.

(** X12.  In every state of the printer the templates are up to date:
    generating them again changes nothing.  Hence [print] leaves the
    printer as it is, and what it writes does not depend on its [params]
    argument. *)
Theorem print_ignores_params (self : DefConfigPrinter) :
  usable self →
  generate_print_format [] self = Ok self ∧
  ∀ fuel params file,
    print fuel params file self = print fuel [] file self ∧
    ∀ self' out, print fuel params file self = Ok (self', out) → self' = self.
Proof.
  intros Hu. pose proof (usable_formats self Hu) as Hg. split; [done|].
  intros fuel params file. rewrite !print_up_to_date by done. split; [done|].
  intros self' out H. apply bind_Ok_inv in H as (o & _ & H). by injection H as <- _.
Qed.

Lemma load_config_files_params (files : list string) (replace : bool)
    (verbose : option bool) (self self' : DefConfigPrinter) :
  load_config_files files replace verbose self = Ok self' →
  print_format_params self' = print_format_params self.
Proof.
  intros H. by apply load_config_files_inv in H
    as (k & self1 & self2 & ts & _ & _ & _ & _ & _ & -> & _).
Qed.

Lemma default_level_templates_fillable (self : DefConfigPrinter) (f : format_params)
    (n l : nat) :
  plain_params f → l < n →
  fillable (set_formats self f (default_level_templates f n)) l.
Proof.
  intros (Hd & Hp & Hs & Hi & Hcs) Hl.
  assert (default_level_templates f n !! l =
          Some (default_templates f (default "" (separator_chars f n !! l)) l)) as Ht.
  { unfold default_level_templates. rewrite list_lookup_fmap, lookup_seq_lt by done. done. }
  assert (brace_free (default "" (separator_chars f n !! l)) = true) as Hc.
  { destruct (separator_chars f n !! l) as [c|] eqn:Ec; [|done].
    by eapply separator_chars_brace_free. }
  destruct (default_templates_fills f _ l Hp Hs Hi Hc) as (F1 & F2 & F3 & F4 & F5 & F6).
  unfold fillable. simpl. rewrite !list_lookup_fmap, Ht. simpl.
  split_and!; eauto.
Qed.

Lemma mirrors_top (h : list Node) (menu : MenuNode) (base : nat) (ptr : option addr) :
  mirrors h None 0 base menu ptr → menu ≠ MNone →
  ∃ d ml mn n, menu = MNode d ml mn ∧ ptr = Some base ∧ h !! base = Some n ∧
               mirrors h (Some base) 1 (S base) ml (list_ n).
Proof.
  destruct menu as [|d ml mn]; [done|]. cbn [mirrors].
  intros (-> & n & Hn & _ & _ & _ & Ml & _) _. by exists d, ml, mn, n.
Qed.

Lemma print_total (files : list string) (replace : bool) (verbose : option bool)
    (params : list param) (self s1 s2 : DefConfigPrinter) :
  plain_params (update_params (print_format_params self) params) →
  kconf_top_node (kconf self) ≠ MNone →
  load_config_files files replace verbose self = Ok s1 →
  generate_print_format params s1 = Ok s2 →
  ∀ fuel ps file, size (kconf_top_node (kconf self)) ≤ fuel →
    ∃ out, print fuel ps file s2 = Ok (s2, out).
Proof.
  intros Hplain Htop H1 H2 fuel ps file Hfuel.
  pose proof (load_config_files_params _ _ _ _ _ H1) as Ep.
  pose proof (load_config_files_tree _ _ _ _ _ H1)
    as (_ & _ & Hlen & _ & _ & _ & Hmir & Hann & Hmax & Hsz).
  pose proof (generate_print_format_again _ _ _ H2) as Hg.
  rewrite generate_print_format_default in H2 by (rewrite Ep; apply Hplain).
  injection H2 as <-. rewrite Ep in *.
  set (f := update_params (print_format_params self) params) in *.
  set (s2 := set_formats s1 f _) in *.
  assert (Hall : ∀ a n, length (heap self) ≤ a <
                        length (heap self) + size (kconf_top_node (kconf self)) →
            heap s2 !! a = Some n → derived n ∧ fillable s2 (level n)).
  { intros a n Ha Hn. simpl in Hn. destruct (Hann a n Hn) as (Hd & _); [lia|].
    split; [done|]. apply default_level_templates_fillable; [done|].
    assert (reach (heap s1) (top_node s1) a) as Hr by (by eapply mirrors_reached).
    destruct (mirrors_reach _ _ _ Hr _ _ _ _ Hmir) as (_ & m & Hm & Hl).
    assert (m = n) as -> by congruence. lia. }
  rewrite print_up_to_date by done.
  assert (is_Ok (if (print_first_level s2 =? 1)%Z then
            match top_node s2 with
            | None => Err AttributeError
            | Some a =>
                match heap s2 !! a with
                | None => Err Dangling
                | Some top => print_node_tree fuel s2 (list_ top) false file []
                end
            end
          else print_node_tree fuel s2 (top_node s2) false file [])) as [out ->];
    [|by exists out].
  destruct (print_first_level s2 =? 1)%Z.
  - destruct (mirrors_top _ _ _ _ Hmir Htop) as (d & ml & mn & n & E & Et & Hn & Ml).
    change (top_node s2) with (top_node s1). change (heap s2) with (heap s1).
    rewrite Et, Hn. eapply (print_node_tree_total s2); [exact Ml| |].
    + intros a m Ha. apply Hall. rewrite E. simpl. lia.
    + rewrite E in Hfuel. simpl in Hfuel. lia.
  - eapply (print_node_tree_total s2); [exact Hmir|exact Hall|done].
Qed.

(** X13.  With the default format strings and indentation and separator
    characters without braces, [print] returns on the tree that
    [load_config_files] has built, within a number of iterations that is
    the number of nodes of the menu tree, and leaves the printer as it is;
    this also holds after the templates have been generated again with
    other flags, separator characters, first level or column limit. *)
Theorem print_returns (files : list string) (replace : bool) (verbose : option bool)
    (params : list param) (self s1 s2 : DefConfigPrinter) :
  plain_params (update_params (print_format_params self) params) →
  kconf_top_node (kconf self) ≠ MNone →
  load_config_files files replace verbose self = Ok s1 →
  generate_print_format params s1 = Ok s2 →
  ∀ fuel ps file, size (kconf_top_node (kconf self)) ≤ fuel →
    ∃ out, print fuel ps file s2 = Ok (s2, out).
Proof. apply print_total. Qed.

Lemma print_node_tree_skips (self : DefConfigPrinter) (menu : MenuNode) :
  ∀ pn lvl base ptr,
    mirrors (heap self) pn lvl base menu ptr →
    (∀ a n, base ≤ a < base + size menu → heap self !! a = Some n → defined n = false) →
    ∀ fuel file out, size menu ≤ fuel →
      print_node_tree fuel self ptr false file out = Ok out.
Proof.
  induction menu as [|d ml IHl mn IHn]; intros pn lvl base ptr; cbn [mirrors size].
  - intros -> _ fuel file out _. by destruct fuel.
  - intros (-> & n & Hn & E1 & E2 & E3 & Ml & Mn) Hall fuel file out Hfuel.
    destruct fuel as [|fuel]; [lia|]. cbn [print_node_tree]. rewrite Hn.
    rewrite (Hall base n) by (lia || done). cbn [orb]. rewrite bind_Ok.
    eapply IHn; [exact Mn| |lia]. intros a m Ha. apply Hall. lia.
Qed.

(** X14.  When no node of the tree that [load_config_files] has built
    carries an assignment, [print] writes nothing, whatever the templates,
    the flags and the file are. *)
Theorem print_nothing (files : list string) (replace : bool) (verbose : option bool)
    (self s1 : DefConfigPrinter) :
  kconf_top_node (kconf self) ≠ MNone →
  load_config_files files replace verbose self = Ok s1 →
  Forall (λ n, config n = None) (drop (length (heap self)) (heap s1)) →
  ∀ fuel ps file, size (kconf_top_node (kconf self)) ≤ fuel →
    print fuel ps file s1 = Ok (s1, []).
Proof.
  intros Htop H1 Hnone fuel ps file Hfuel.
  pose proof (load_config_files_tree _ _ _ _ _ H1)
    as (_ & _ & Hlen & Hwf & _ & Hj & Hmir & _).
  pose proof (load_config_files_formats _ _ _ _ _ H1) as Hg.
  assert (Hall : ∀ a n, length (heap self) ≤ a <
                        length (heap self) + size (kconf_top_node (kconf self)) →
            heap s1 !! a = Some n → defined n = false).
  { intros a n Ha Hn. destruct (defined n) eqn:Hd; [|done].
    destruct (justified_descendant _ _ Hwf Hj (length (heap s1)) a n)
      as (b & nb & Hkb & _ & Hnb & [ci Hci]); [lia|done|lia|done|].
    assert (config nb = None) as Hcn; [|congruence].
    eapply (proj1 (Forall_lookup _ _) Hnone (b - length (heap self))).
    rewrite lookup_drop. by replace (length (heap self) + (b - length (heap self))) with b by lia. }
  rewrite print_up_to_date by done.
  destruct (print_first_level s1 =? 1)%Z.
  - destruct (mirrors_top _ _ _ _ Hmir Htop) as (d & ml & mn & n & E & Et & Hn & Ml).
    rewrite Et, Hn. erewrite print_node_tree_skips; [done|exact Ml| |].
    + intros a m Ha. apply Hall. rewrite E. simpl. lia.
    + rewrite E in Hfuel. simpl in Hfuel. lia.
  - by erewrite print_node_tree_skips.
Qed.

(** X15.  Before any call of [load_config_files] there is no tree:
    [__init__] always returns and leaves no template and no top node, and
    [print] fails on the missing top node; with a first level other than 1
    it writes nothing instead. *)
Theorem print_before_load (top : MenuNode) (fuel : nat) (params : list param)
    (file : stream) :
  init top = Ok (blank top) ∧
  print fuel params file (blank top) = Err AttributeError ∧
  ∀ v self, v ≠ 1%Z →
    generate_print_format [P_print_first_level v] (blank top) = Ok self →
    print fuel params file self = Ok (self, []).
Proof.
  split_and!.
  - done.
  - unfold print. by destruct params.
  - intros v self Hv H. pose proof (generate_print_format_again _ _ _ H) as Hg.
    rewrite print_up_to_date by done.
    apply generate_print_format_inv in H as (ts & -> & _). simpl.
    destruct (Z.eqb_spec v 1) as [->|_]; [done|]. by destruct fuel.
Qed.

Ltac fmt_exact segs :=
  match goal with
  | |- context [format ?t ?kw] =>
      replace t with (render segs) by (cbn [render]; str_norm; reflexivity);
      rewrite (format_render kw segs)
        by (cbn [forallb seg_ok]; rewrite ?andb_true_r;
            repeat (apply andb_true_intro; split); try reflexivity; assumption);
      cbn [subst]; fmt_lookups; cbn [result_map]
  end.

(** X16.  The lines that the printing functions write under the default
    format strings, for a node whose level has templates: the banner of the
    prompt, the location, the help text of a node that has one and, for a
    symbol without an assignment, the configuration string of the symbol
    without its trailing whitespace and without the comment marker and
    blanks it begins with.  On a node without a help text,
    [print_node_help] fails. *)
Theorem default_output_lines (s0 : DefConfigPrinter) (f : format_params) (n : nat)
    (node : Node) (file : stream) (out : output) :
  plain_params f → level node < n →
  let self := set_formats s0 f (default_level_templates f n) in
  let separator :=
    separator_of f (default "" (separator_chars f n !! level node)) (level node) in
  let prompt_indent := str_repeat (fp_prompt_indent_char f) (level node) in
  let info_indent := str_repeat (fp_info_indent_char f) (level node) in
  print_node_prompt self node file out =
    Ok (out ++ [(file, "#" +:+ separator +:+ newline +:+
                       "#" +:+ prompt_indent +:+ " " +:+ text_of (prompt node) +:+ newline +:+
                       "#" +:+ separator +:+ newline)]) ∧
  print_node_location self node file out =
    Ok (out ++ [(file, "#" +:+ info_indent +:+ " " +:+ mn_filename (menu_node node) +:+
                       " : " +:+ pretty (mn_linenr (menu_node node)) +:+ newline +:+
                       "#" +:+ info_indent +:+ newline)]) ∧
  (∀ text, help node = Some text →
     print_node_help self node file out =
       Ok (out ++ [(file, "#" +:+ info_indent +:+ " help" +:+ newline +:+
                          join newline ((λ help_line, "#" +:+ info_indent +:+ "     " +:+ help_line)
                                          <$> splitlines text) +:+ newline +:+
                          "#" +:+ info_indent +:+ newline)])) ∧
  (help node = None → print_node_help self node file out = Err AttributeError) ∧
  (∀ sym, config node = None → is_symbol node = true →
     mn_item (menu_node node) = ItemSymbol sym →
     print_node_config self node file out =
       Ok (out ++ [(file, "#" +:+ info_indent +:+ " " +:+
                          lstrip "# " (rstrip (config_string (kconf_calls (kconf s0)) sym)) +:+
                          newline)])).
Proof.
  intros (Hd & Hp & Hs & Hi & Hcs) Hl self separator prompt_indent info_indent.
  assert (default_level_templates f n !! level node =
          Some (default_templates f (default "" (separator_chars f n !! level node))
                  (level node))) as Ht.
  { unfold default_level_templates. rewrite list_lookup_fmap, lookup_seq_lt by done. done. }
  assert (brace_free (default "" (separator_chars f n !! level node)) = true) as Hc.
  { destruct (separator_chars f n !! level node) as [c|] eqn:Ec; [|done].
    by eapply separator_chars_brace_free. }
  assert (brace_free separator = true) as Hsep.
  { unfold separator, separator_of. apply brace_free_slice_to, brace_free_app;
      [by apply brace_free_repeat|]. apply brace_free_app; [done|].
    unfold str_mul. by apply brace_free_repeat. }
  pose proof (brace_free_repeat _ (level node) Hp : brace_free prompt_indent = true) as Hpi.
  pose proof (brace_free_repeat _ (level node) Hi : brace_free info_indent = true) as Hii.
  assert (Hidx : ∀ (g : templates → string),
            index (g <$> default_level_templates f n) (level node) =
            Ok (g (default_templates f (default "" (separator_chars f n !! level node))
                     (level node)))).
  { intros g. unfold index. by rewrite list_lookup_fmap, Ht. }
  unfold default_templates in Hidx. cbv zeta in Hidx.
  fold separator prompt_indent info_indent in Hidx.
  clearbody separator prompt_indent info_indent.
  split_and!.
  - unfold print_node_prompt. simpl print_prompt_format. rewrite Hidx, bind_Ok.
    cbn [t_prompt]. generalize (text_of (prompt node)). intros p.
    fmt_exact [Lit "#"; Lit separator; Lit (newline +:+ "#"); Lit prompt_indent; Lit " ";
               Field "prompt"; Lit (newline +:+ "#"); Lit separator].
    rewrite bind_Ok. unfold print_to. do 3 f_equal. str_norm. reflexivity.
  - unfold print_node_location. cbv zeta. simpl print_location_format.
    rewrite Hidx, bind_Ok. cbn [t_location].
    generalize (mn_filename (menu_node node)), (pretty (mn_linenr (menu_node node))).
    intros fn ln.
    fmt_exact [Lit "#"; Lit info_indent; Lit " "; Field "filename"; Lit " : ";
               Field "linenr"; Lit (newline +:+ "#"); Lit info_indent].
    rewrite bind_Ok. unfold print_to. do 3 f_equal. str_norm. reflexivity.
  - intros text Hh. unfold print_node_help.
    simpl print_help_line_format. simpl print_help_format.
    rewrite !Hidx, !bind_Ok, Hh. cbn [t_help t_help_line].
    rewrite (mapM_fmap _ (λ help_line, "#" +:+ info_indent +:+ "     " +:+ help_line)).
    2:{ intros x _.
        fmt_exact [Lit "#"; Lit info_indent; Lit "     "; Field "help_line"].
        f_equal. str_norm. reflexivity. }
    rewrite bind_Ok. generalize (join newline ((λ help_line : string,
      "#" +:+ info_indent +:+ "     " +:+ help_line) <$> splitlines text)).
    intros body.
    fmt_exact [Lit "#"; Lit info_indent; Lit (" help" +:+ newline); Field "help";
               Lit (newline +:+ "#"); Lit info_indent].
    rewrite bind_Ok. unfold print_to. do 3 f_equal. str_norm. reflexivity.
  - intros Hh. unfold print_node_help.
    simpl print_help_line_format. simpl print_help_format.
    by rewrite !Hidx, !bind_Ok, Hh.
  - intros sym Hcfg Hsym Hitem. unfold print_node_config. rewrite Hcfg, Hsym, Hitem.
    cbv zeta. simpl print_orig_config_format. rewrite Hidx, bind_Ok. cbn [t_orig_config].
    change (kconf self) with (kconf s0).
    generalize (lstrip "# " (rstrip (config_string (kconf_calls (kconf s0)) sym))).
    intros cfg.
    fmt_exact [Lit "#"; Lit info_indent; Lit " "; Field "config"].
    rewrite bind_Ok. unfold print_to. do 3 f_equal. str_norm. reflexivity.
Qed.

(** ** The command-line driver *)

Section Main.
Variable argparse : gmap string string → list string → parsed command_line.
Variable new_Kconfig : gmap string string → string → result MenuNode.
Variable writable : string → bool.

Lemma source_arch_Some (s : option string) (a : string) : is_Some (source_arch s (Some a)).
Proof. unfold source_arch. destruct s; [by eexists|]. repeat case_bool_decide; by eexists. Qed.

Lemma prefix_app (p s : string) : String.prefix p (p +:+ s) = true.
Proof.
  induction p as [|c p IH]; [by destruct s|].
  rewrite str_app_cons. simpl. destruct (ascii_dec c c); [done|done].
Qed.

Lemma cross_tool_prefix (c t : string) :
  str_nonempty c = true → startswith (cross_tool c t) c = true.
Proof.
  intros Hc. unfold cross_tool. rewrite Hc.
  destruct (startswith t c) eqn:E; [done|]. apply prefix_app.
Qed.

Lemma cross_tool_own (c t : string) : cross_tool c (c +:+ t) = c +:+ t.
Proof.
  unfold cross_tool. destruct (str_nonempty c); [|done].
  unfold startswith. by rewrite prefix_app.
Qed.

(** What has happened when [main] returns. *)
Lemma main_body_Return (fuel : nat) (environ : gmap string string) (args : arguments)
    (environ' : gmap string string) (printer : DefConfigPrinter)
    (out : output) :
  main_body new_Kconfig writable fuel environ args = Return environ' printer out →
  ∃ arch srcarch top p0 p1 p2 p3 p4 printed,
    args_arch args = Some arch ∧
    source_arch (args_srcarch args) (Some arch) = Some srcarch ∧
    environ' = main_environ environ args arch srcarch ∧
    new_Kconfig environ' (path_join (args_srctree args) (args_kconfig args)) = Ok top ∧
    init top = Ok p0 ∧
    preload_config_files (or_empty (args_preload args)) None p0 = Ok p1 ∧
    load_config_files (or_empty (Some (args_load_files args))) true None p1 = Ok p2 ∧
    load_config_files (or_empty (args_merge args)) false None p2 = Ok p3 ∧
    generate_print_format
      (main_format_params (args_separator args) (args_with_help args)
         (args_with_orig_config args) (args_with_location args) (args_with_comment args))
      p3 = Ok p4 ∧
    print fuel [] (main_stream args) p4 = Ok (printer, printed) ∧
    (∀ name, args_output args = Some name → writable name = true) ∧
    out = (if args_verbose args then
             print_lines
               (verbose_lines arch (args_cross_compile args)
                  (cross_tool (args_cross_compile args) (args_cc args))
                  (cross_tool (args_cross_compile args) (args_ld args))
                  (Some srcarch) (args_srctree args) (args_kconfig args)
                  (or_empty (args_preload args)) (or_empty (Some (args_load_files args)))
                  (or_empty (args_merge args)) (args_output args)) []
           else []) ++ printed.
Proof.
  unfold main_body. cbv zeta.
  destruct (args_arch args) as [arch|] eqn:Ea; [|done].
  destruct (source_arch (args_srcarch args) (Some arch)) as [srcarch|] eqn:Es; [|done].
  fold (main_environ environ args arch srcarch).
  destruct (new_Kconfig _ _ ≫= _) as [[pr printed]|e] eqn:Hrun; [|done].
  intros [= <- <- <-].
  apply bind_Ok_inv in Hrun as (top & Ht & Hrun).
  apply bind_Ok_inv in Hrun as (p0 & H0 & Hrun).
  apply bind_Ok_inv in Hrun as (p1 & H1 & Hrun).
  apply bind_Ok_inv in Hrun as (p2 & H2 & Hrun).
  apply bind_Ok_inv in Hrun as (p3 & H3 & Hrun).
  apply bind_Ok_inv in Hrun as (p4 & H4 & Hrun).
  exists arch, srcarch, top, p0, p1, p2, p3, p4, printed.
  split_and!; try done.
  - unfold main_stream. destruct (args_output args) as [name|]; [|done].
    by destruct (writable name).
  - intros name Hn. rewrite Hn in Hrun. by destruct (writable name).
Qed.

Lemma main_Accepted (fuel : nat) (environ : gmap string string) (argv : list string)
    (cl : command_line) :
  argparse environ argv = Accepted cl →
  main argparse new_Kconfig writable fuel environ argv =
  main_body new_Kconfig writable fuel environ (main_args environ cl).
Proof. unfold main, parse_args. by intros ->. Qed.

Lemma main_Stopped (fuel : nat) (environ : gmap string string) (argv : list string)
    (code : Z) (out : output) :
  argparse environ argv = Stopped code out →
  main argparse new_Kconfig writable fuel environ argv = Exit code out.
Proof. unfold main, parse_args. by intros ->. Qed.

Lemma main_Return (fuel : nat) (environ : gmap string string) (argv : list string)
    (environ' : gmap string string) (printer : DefConfigPrinter) (out : output) :
  main argparse new_Kconfig writable fuel environ argv = Return environ' printer out →
  ∃ cl, argparse environ argv = Accepted cl ∧
        main_body new_Kconfig writable fuel environ (main_args environ cl) =
        Return environ' printer out.
Proof.
  destruct (argparse environ argv) as [cl|code o] eqn:E.
  - rewrite (main_Accepted _ _ _ _ E). intros H. by exists cl.
  - by rewrite (main_Stopped _ _ _ _ _ E).
Qed.

(** The exits of [main] itself. *)
Lemma main_body_exit (fuel : nat) (environ : gmap string string) (cl : command_line) :
  (main_body new_Kconfig writable fuel environ (main_args environ cl) =
     Exit 1 [(Stdout, "Error: Architecture is not specified." +:+ newline)] ↔
   cl_arch cl = None ∧ environ !! "ARCH" = None) ∧
  (∀ code out,
     main_body new_Kconfig writable fuel environ (main_args environ cl) = Exit code out →
     cl_arch cl = None ∧ environ !! "ARCH" = None ∧ code = 1%Z ∧
     out = [(Stdout, "Error: Architecture is not specified." +:+ newline)]) ∧
  main_body new_Kconfig writable fuel environ (main_args environ cl) ≠ RaiseTypeError.
Proof.
  unfold main_body. cbv zeta.
  assert (args_arch (main_args environ cl) = None ↔
          cl_arch cl = None ∧ environ !! "ARCH" = None) as Ha.
  { simpl. destruct (cl_arch cl); [|by split; [|intros [_ ?]]].
    split; [done|by intros [? _]]. }
  destruct (args_arch (main_args environ cl)) as [arch|] eqn:Ea.
  - destruct (source_arch_Some (args_srcarch (main_args environ cl)) arch) as [s ->].
    split_and!.
    + split; [|intros H; apply Ha in H; done].
      by destruct (_ ≫= _) as [[? ?]|?].
    + intros code out. by destruct (_ ≫= _) as [[? ?]|?].
    + by destruct (_ ≫= _) as [[? ?]|?].
  - split_and!; [split; [intros _; by apply Ha|done]| |done].
    intros code out [= <- <-]. destruct Ha as [Ha _]. destruct (Ha eq_refl). done.
Qed.

(** X17.  Once argparse has accepted the command line, [main] stops with
    exit status 1, after the one error line, exactly when neither the
    command line nor the environment gives the architecture.  The only
    other exits are those of argparse itself, for [-h] and for a command
    line that it rejects; [main] never assigns [None] to an environment
    variable. *)
Theorem main_needs_arch (fuel : nat) (environ : gmap string string) (argv : list string) :
  (∀ cl, argparse environ argv = Accepted cl →
     (main argparse new_Kconfig writable fuel environ argv =
        Exit 1 [(Stdout, "Error: Architecture is not specified." +:+ newline)] ↔
      cl_arch cl = None ∧ environ !! "ARCH" = None)) ∧
  (∀ code out, main argparse new_Kconfig writable fuel environ argv = Exit code out →
     argparse environ argv = Stopped code out ∨
     ∃ cl, argparse environ argv = Accepted cl ∧
           cl_arch cl = None ∧ environ !! "ARCH" = None ∧ code = 1%Z ∧
           out = [(Stdout, "Error: Architecture is not specified." +:+ newline)]) ∧
  (∀ code out, argparse environ argv = Stopped code out →
     main argparse new_Kconfig writable fuel environ argv = Exit code out) ∧
  main argparse new_Kconfig writable fuel environ argv ≠ RaiseTypeError.
Proof.
  split_and!.
  - intros cl E. rewrite (main_Accepted _ _ _ _ E). apply main_body_exit.
  - intros code out H. destruct (argparse environ argv) as [cl|c o] eqn:E.
    + right. exists cl. split; [done|]. rewrite (main_Accepted _ _ _ _ E) in H.
      by apply main_body_exit in H.
    + left. rewrite (main_Stopped _ _ _ _ _ E) in H. by injection H as <- <-.
  - intros code out E. by apply main_Stopped.
  - destruct (argparse environ argv) as [cl|c o] eqn:E.
    + rewrite (main_Accepted _ _ _ _ E). apply main_body_exit.
    + by rewrite (main_Stopped _ _ _ _ _ E).
Qed.

(** X18.  When [main] returns, argparse has accepted the command line and
    [main] has set the five variables [ARCH], [SRCARCH], [CC], [LD] and
    [srctree] and no other; [SRCARCH] is the option of that name or else
    the source architecture of [ARCH]; with a cross-compiler prefix, [CC]
    and [LD] begin with it; and when neither the command line nor the
    environment names the compiler or the linker, they are the prefix of
    the environment followed by [gcc] and [ld]. *)
Theorem main_environment (fuel : nat) (environ : gmap string string) (argv : list string)
    (environ' : gmap string string) (printer : DefConfigPrinter)
    (out : output) :
  main argparse new_Kconfig writable fuel environ argv = Return environ' printer out →
  ∃ cl, argparse environ argv = Accepted cl ∧
  let args := main_args environ cl in
  ∃ arch cc ld,
    args_arch args = Some arch ∧
    environ' !! "ARCH" = Some arch ∧
    environ' !! "SRCARCH" = source_arch (args_srcarch args) (Some arch) ∧
    environ' !! "CC" = Some cc ∧ environ' !! "LD" = Some ld ∧
    environ' !! "srctree" = Some (args_srctree args) ∧
    (args_cross_compile args ≠ "" →
     startswith cc (args_cross_compile args) = true ∧
     startswith ld (args_cross_compile args) = true) ∧
    (cl_cross_compile cl = None → cl_cc cl = None → environ !! "CC" = None →
     cc = default "" (environ !! "CROSS_COMPILE") +:+ "gcc") ∧
    (cl_cross_compile cl = None → cl_ld cl = None → environ !! "LD" = None →
     ld = default "" (environ !! "CROSS_COMPILE") +:+ "ld") ∧
    ∀ name, name ∉ ["ARCH"; "SRCARCH"; "CC"; "LD"; "srctree"] →
      environ' !! name = environ !! name.
Proof.
  intros H. apply main_Return in H as (cl & Hcl & H). exists cl. split; [done|].
  intros args. apply main_body_Return in H
    as (arch & srcarch & top & p0 & p1 & p2 & p3 & p4 & printed & Ha & Hs & -> & _).
  fold args in Ha, Hs |- *.
  exists arch, (cross_tool (args_cross_compile args) (args_cc args)),
    (cross_tool (args_cross_compile args) (args_ld args)).
  unfold main_environ. split_and!; try done.
  - by rewrite !lookup_insert_ne, lookup_insert_eq by done.
  - by rewrite Hs, !lookup_insert_ne, lookup_insert_eq by done.
  - by rewrite !lookup_insert_ne, lookup_insert_eq by done.
  - by rewrite !lookup_insert_ne, lookup_insert_eq by done.
  - by rewrite lookup_insert_eq.
  - intros Hc. assert (str_nonempty (args_cross_compile args) = true) as Hn
      by (by destruct (args_cross_compile args)).
    split; by apply cross_tool_prefix.
  - intros E1 E2 E3. subst args. simpl. rewrite E1, E2, E3. simpl. apply cross_tool_own.
  - intros E1 E2 E3. subst args. simpl. rewrite E1, E2, E3. simpl. apply cross_tool_own.
  - intros name Hn. rewrite !lookup_insert_ne; [done|..];
      intros <-; apply Hn; set_solver.
Qed.

Lemma init_state (top : MenuNode) (p0 : DefConfigPrinter) :
  init top = Ok p0 → p0 = blank top.
Proof. by intros [= <-]. Qed.

Lemma preload_state (files : list string) (verbose : option bool)
    (self self' : DefConfigPrinter) :
  preload_config_files files verbose self = Ok self' →
  self' = set_kconf self (kconf self') ∧
  kconf_top_node (kconf self') = kconf_top_node (kconf self) ∧
  kconf_calls (kconf self') = kconf_calls (kconf self) ++ preload_calls files verbose.
Proof.
  unfold preload_config_files. intros H. apply bind_Ok_inv in H as (k & Hk & H).
  injection H as <-. apply preload_loop_calls in Hk as [Ht Hc]. by split_and!.
Qed.

Lemma load_config_files_calls (files : list string) (replace : bool)
    (verbose : option bool) (self self' : DefConfigPrinter) :
  load_config_files files replace verbose self = Ok self' →
  kconf_calls (kconf self') =
  kconf_calls (kconf self) ++ ((λ f, KCall f replace verbose) <$> files).
Proof.
  intros H. apply load_config_files_inv in H
    as (k & self1 & self2 & ts & _ & Hc & E1 & _ & A & -> & _).
  simpl. assert (kconf self2 = kconf self1) as -> by (by rewrite <- A).
  by subst self1.
Qed.

Lemma generate_print_format_state (params : list param) (self self' : DefConfigPrinter) :
  generate_print_format params self = Ok self' →
  kconf self' = kconf self ∧ defined_config_list self' = defined_config_list self ∧
  defined_config_dict self' = defined_config_dict self ∧
  print_format_params self' = update_params (print_format_params self) params ∧
  print_first_level self' = fp_print_first_level (print_format_params self') ∧
  print_comment self' = fp_print_comment (print_format_params self') ∧
  print_help self' = fp_print_help (print_format_params self') ∧
  print_orig_config self' = fp_print_orig_config (print_format_params self') ∧
  print_location self' = fp_print_location (print_format_params self').
Proof. intros H. by apply generate_print_format_inv in H as (ts & -> & _). Qed.

Lemma print_same_state (fuel : nat) (params : list param) (file : stream)
    (p self' s0 : DefConfigPrinter) (ps : list param) (out : output) :
  generate_print_format ps s0 = Ok p →
  print fuel params file p = Ok (self', out) → self' = p.
Proof.
  intros Hg H. apply generate_print_format_again in Hg.
  rewrite print_up_to_date in H by done.
  apply bind_Ok_inv in H as (o & _ & H). by injection H as <- _.
Qed.

(** X19.  When [main] returns, argparse has accepted the command line and
    the Kconfig object has received the preload files (the first with
    [replace] true, the others with false), then the load files with
    [replace] true, then the merge files with [replace] false; the list of
    the printer holds the records of the load files followed by those of
    the merge files, and the table holds the last record of each name
    among them. *)
Theorem main_loads (fuel : nat) (environ : gmap string string) (argv : list string)
    (environ' : gmap string string) (printer : DefConfigPrinter)
    (out : output) :
  main argparse new_Kconfig writable fuel environ argv = Return environ' printer out →
  ∃ cl, argparse environ argv = Accepted cl ∧
  let args := main_args environ cl in
  let preload_files := or_empty (args_preload args) in
  let load_files := or_empty (Some (args_load_files args)) in
  let merge_files := or_empty (args_merge args) in
  kconf_calls (kconf printer) =
    preload_calls preload_files None ++
    ((λ f, KCall f true None) <$> load_files) ++
    ((λ f, KCall f false None) <$> merge_files) ∧
  defined_config_list printer = records_of (load_files ++ merge_files) ∧
  ∀ name, defined_config_dict printer !! name =
          last_record name (records_of (load_files ++ merge_files)).
Proof.
  intros H. apply main_Return in H as (cl & Hcl & H). exists cl. split; [done|].
  intros args preload_files load_files merge_files. apply main_body_Return in H
    as (arch & srcarch & top & p0 & p1 & p2 & p3 & p4 & printed & _ & _ & _ & _ &
        H0 & H1 & H2 & H3 & H4 & H5 & _).
  fold args preload_files load_files merge_files in H1, H2, H3, H4, H5.
  apply init_state in H0 as ->.
  apply (print_same_state _ _ _ _ _ _ _ _ H4) in H5 as ->.
  apply generate_print_format_state in H4 as (-> & -> & -> & _).
  apply preload_state in H1 as (E1 & _ & C1).
  split_and!.
  - rewrite (load_config_files_calls _ _ _ _ _ H3), (load_config_files_calls _ _ _ _ _ H2), C1.
    simpl. by rewrite <- app_assoc.
  - rewrite (load_config_files_list _ _ _ _ _ H3), (load_config_files_list _ _ _ _ _ H2).
    rewrite E1. simpl. by rewrite records_of_app.
  - intros name.
    rewrite (load_config_files_dict _ _ _ _ _ H3), (load_config_files_dict _ _ _ _ _ H2).
    rewrite E1. simpl. rewrite lookup_empty, records_of_app, last_record_app.
    by destruct (last_record name (records_of merge_files)),
                (last_record name (records_of load_files)).
Qed.

Lemma print_lines_stdout (lines : list string) :
  ∀ out, print_lines lines out = out ++ ((λ line, (Stdout, line +:+ newline)) <$> lines).
Proof.
  induction lines as [|l lines IH]; intros out; [by rewrite app_nil_r|].
  unfold print_lines in *. cbn [foldl]. rewrite IH. unfold print_to.
  by rewrite <- app_assoc.
Qed.

Lemma main_params_flags (f : format_params) (sep hlp orig loc com : bool) :
  let f' := update_params f (main_format_params sep hlp orig loc com) in
  fp_print_first_level f' = fp_print_first_level f ∧
  fp_print_help f' = (hlp || fp_print_help f) ∧
  fp_print_orig_config f' = (orig || fp_print_orig_config f) ∧
  fp_print_location f' = (loc || fp_print_location f) ∧
  fp_print_comment f' = (com || fp_print_comment f) ∧
  fp_separator_char_list f' = (if sep then ["="; "-"] else fp_separator_char_list f) ∧
  (default_formats f → default_formats f') ∧
  fp_prompt_indent_char f' = fp_prompt_indent_char f ∧
  fp_separator_indent_char f' = fp_separator_indent_char f ∧
  fp_info_indent_char f' = fp_info_indent_char f.
Proof. destruct f, sep, hlp, orig, loc, com; cbv; done. Qed.

Lemma default_formats_default : default_formats default_format_params.
Proof. by repeat split. Qed.

Lemma main_printer_params (top : MenuNode) (p1 p2 p3 : DefConfigPrinter)
    (f1 f2 f3 : list string) (r2 r3 : bool) (v1 v2 v3 : option bool) :
  preload_config_files f1 v1 (blank top) = Ok p1 →
  load_config_files f2 r2 v2 p1 = Ok p2 →
  load_config_files f3 r3 v3 p2 = Ok p3 →
  print_format_params p2 = default_format_params ∧
  print_format_params p3 = default_format_params ∧
  kconf_top_node (kconf p2) = top.
Proof.
  intros H1 H2 H3. apply preload_state in H1 as (E1 & T1 & _).
  pose proof (load_config_files_params _ _ _ _ _ H2) as E2.
  pose proof (load_config_files_params _ _ _ _ _ H3) as E3.
  apply load_config_files_tree in H2 as (T2 & _).
  assert (print_format_params p1 = default_format_params) as D1 by (by rewrite E1).
  simpl in T1. split_and!; congruence.
Qed.

(** X20.  When [main] returns, the flags of the printer are those of the
    command line, the first printed level is 1 and the separator characters
    are those of [--separator].  With [--verbose] the eleven lines of the
    settings are written first, to [sys.stdout], and nothing without it.
    Then comes what [print] writes: this is what the printer writes with
    its comments switched off, all of which goes to the output file when
    one is given and to [sys.stdout] otherwise, with the comment lines in
    between, which go to [sys.stdout]; the output file receives exactly
    what is written without comments. *)
Theorem main_output (fuel : nat) (environ : gmap string string) (argv : list string)
    (environ' : gmap string string) (printer : DefConfigPrinter)
    (out : output) :
  main argparse new_Kconfig writable fuel environ argv = Return environ' printer out →
  ∃ cl, argparse environ argv = Accepted cl ∧
  let args := main_args environ cl in
  (print_first_level printer = 1%Z ∧
   print_help printer = args_with_help args ∧
   print_orig_config printer = args_with_orig_config args ∧
   print_location printer = args_with_location args ∧
   print_comment printer = args_with_comment args ∧
   fp_separator_char_list (print_format_params printer) =
     (if args_separator args then ["="; "-"] else [])) ∧
  ∃ arch printed plain,
    args_arch args = Some arch ∧
    out = (if args_verbose args then
             (λ line, (Stdout, line +:+ newline)) <$>
               verbose_lines arch (args_cross_compile args)
                 (cross_tool (args_cross_compile args) (args_cc args))
                 (cross_tool (args_cross_compile args) (args_ld args))
                 (source_arch (args_srcarch args) (Some arch))
                 (args_srctree args) (args_kconfig args)
                 (or_empty (args_preload args)) (or_empty (Some (args_load_files args)))
                 (or_empty (args_merge args)) (args_output args)
           else []) ++ printed ∧
    print fuel [] (main_stream args) (comments_off printer) =
      Ok (comments_off printer, plain) ∧
    Forall (λ w, w.1 = main_stream args) plain ∧
    with_comments printer printed plain ∧
    (args_with_comment args = false → printed = plain) ∧
    (is_Some (args_output args) → filter (λ w, w.1 = OutFile) printed = plain).
Proof.
  intros H. apply main_Return in H as (cl & Hcl & H). exists cl. split; [done|].
  intros args. apply main_body_Return in H
    as (arch & srcarch & top & p0 & p1 & p2 & p3 & p4 & printed & Ha & Hs & _ & _ &
        H0 & H1 & H2 & H3 & H4 & H5 & _ & ->).
  fold args in Ha, Hs, H1, H2, H3, H4, H5 |- *.
  apply init_state in H0 as ->.
  destruct (main_printer_params _ _ _ _ _ _ _ _ _ _ _ _ H1 H2 H3) as (_ & E3 & _).
  pose proof (print_same_state _ _ _ _ _ _ _ _ H4 H5) as ->.
  apply generate_print_format_state in H4 as (_ & _ & _ & Ef & F1 & F2 & F3 & F4 & F5).
  rewrite E3 in Ef.
  destruct (main_params_flags default_format_params (args_separator args)
              (args_with_help args) (args_with_orig_config args)
              (args_with_location args) (args_with_comment args))
    as (G1 & G2 & G3 & G4 & G5 & G6 & _).
  rewrite <- Ef in G1, G2, G3, G4, G5, G6.
  assert (print_comment p4 = args_with_comment args) as Ec.
  { rewrite F2, G5. simpl. by rewrite orb_false_r. }
  split.
  { split_and!.
    - by rewrite F1, G1.
    - rewrite F3, G2. simpl. by rewrite orb_false_r.
    - rewrite F4, G3. simpl. by rewrite orb_false_r.
    - rewrite F5, G4. simpl. by rewrite orb_false_r.
    - done.
    - rewrite G6. by destruct (args_separator args). }
  destruct (print_comments _ _ _ _ _ _ H5) as (plain & Hp & T & C).
  exists arch, printed, plain. split_and!; try done.
  - rewrite Hs. destruct (args_verbose args); [|done].
    by rewrite print_lines_stdout, app_nil_l.
  - intros Hc. eapply with_comments_off; [|done]. by rewrite Ec.
  - intros [name Hn]. assert (main_stream args = OutFile) as Em.
    { unfold main_stream. by rewrite Hn. }
    rewrite Em in T. by eapply with_comments_filter.
Qed.

Lemma preload_config_files_readable (files : list string) (verbose : option bool)
    (self : DefConfigPrinter) :
  Forall readable files → is_Ok (preload_config_files files verbose self).
Proof.
  intros Hr. unfold preload_config_files.
  assert (∀ replace k, is_Ok (preload_loop files replace verbose k)) as Hl.
  { induction Hr as [|g files Hg _ IH]; intros replace k; [by eexists|].
    cbn [preload_loop]. rewrite (kconf_load_config_readable _ _ _ _ Hg), bind_Ok. apply IH. }
  destruct (Hl true (kconf self)) as [k ->]. by eexists.
Qed.

(** X21.  [main] returns, provided that argparse accepts the command line,
    that the architecture is given, that kconfiglib parses the Kconfig file
    into a tree, that every preload, load and merge file can be read, that
    is opened and decoded as UTF-8, and that the output file, if any, can
    be opened for writing, within a number of iterations of the printer
    that is the number of nodes of the menu tree. *)
Theorem main_returns (fuel : nat) (environ : gmap string string) (argv : list string)
    (cl : command_line) (arch srcarch : string) (top : MenuNode) :
  argparse environ argv = Accepted cl →
  let args := main_args environ cl in
  args_arch args = Some arch →
  source_arch (args_srcarch args) (Some arch) = Some srcarch →
  new_Kconfig (main_environ environ args arch srcarch)
    (path_join (args_srctree args) (args_kconfig args)) = Ok top →
  top ≠ MNone →
  Forall readable (or_empty (args_preload args) ++ or_empty (Some (args_load_files args)) ++
                   or_empty (args_merge args)) →
  (∀ name, args_output args = Some name → writable name = true) →
  size top ≤ fuel →
  ∃ printer out,
    main argparse new_Kconfig writable fuel environ argv =
    Return (main_environ environ args arch srcarch) printer out.
Proof.
  intros Hcl args Ha Hs Hk Htop Hfiles Hw Hfuel.
  apply Forall_app in Hfiles as [Hpre Hfiles]. apply Forall_app in Hfiles as [Hload Hmerge].
  rewrite (main_Accepted _ _ _ _ Hcl).
  unfold main_body. cbv zeta. fold args. rewrite Ha, Hs.
  fold (main_environ environ args arch srcarch). rewrite Hk, bind_Ok.
  change (init top) with (Ok (blank top)). rewrite bind_Ok.
  destruct (preload_config_files_readable _ None (blank top) Hpre) as [p1 H1].
  rewrite H1, bind_Ok.
  pose proof (preload_state _ _ _ _ H1) as (E1 & _).
  assert (default_formats (print_format_params p1)) as D1.
  { rewrite E1. apply default_formats_default. }
  destruct (load_config_files_readable (or_empty (Some (args_load_files args)))
              true None p1 D1 Hload) as [p2 H2].
  rewrite H2, bind_Ok.
  assert (∃ p3, load_config_files (or_empty (args_merge args)) false None p2 = Ok p3)
    as [p3 H3].
  { apply load_config_files_readable; [|done].
    rewrite (load_config_files_params _ _ _ _ _ H2). by rewrite E1. }
  rewrite H3, bind_Ok.
  destruct (main_printer_params _ _ _ _ _ _ _ _ _ _ _ _ H1 H2 H3) as (E2 & E3 & T2).
  set (ps := main_format_params _ _ _ _ _).
  destruct (main_params_flags default_format_params (args_separator args)
              (args_with_help args) (args_with_orig_config args)
              (args_with_location args) (args_with_comment args))
    as (_ & _ & _ & _ & _ & G6 & GD & GP & GS & GI).
  fold ps in G6, GD, GP, GS, GI.
  specialize (GD default_formats_default).
  assert (∃ p4, generate_print_format ps p3 = Ok p4) as [p4 H4].
  { rewrite generate_print_format_default; [by eexists|]. by rewrite E3. }
  rewrite H4, bind_Ok.
  assert (∀ file, ∃ o, print fuel [] file p4 = Ok (p4, o)) as Hp.
  { intros file. eapply (print_total _ _ _ ps p2 p3 p4); try done.
    - rewrite E2. split_and!; try done.
      + by rewrite GP.
      + by rewrite GS.
      + by rewrite GI.
      + rewrite G6. destruct (args_separator args); [|done]. by repeat constructor.
    - by rewrite T2.
    - by rewrite T2. }
  destruct (args_output args) as [name|] eqn:Eo.
  - rewrite (Hw name eq_refl). destruct (Hp OutFile) as [o ->]. by eexists _, _.
  - destruct (Hp Stdout) as [o ->]. by eexists _, _.
Qed.

End Main.

End More.

(** * The statements on the concrete run *)

#[local] Existing Instance Example.kconfiglib.

Import Example.

(** The string functions on small inputs. *)
Example rstrip_line : rstrip (line "CONFIG_A=y  ") = "CONFIG_A=y".
Proof. reflexivity. Qed.

Example lstrip_not_set : lstrip "# " "# CONFIG_C is not set" = "CONFIG_C is not set".
Proof. reflexivity. Qed.

Example splitlines_help : splitlines (line "one" +:+ line "" +:+ "two") = ["one"; ""; "two"].
Proof. reflexivity. Qed.

Example format_menu_end :
  format "#{prompt_indent} end of {prompt}" {[ "prompt_indent" := "#"; "prompt" := "{prompt}" ]}
  = Ok "## end of {prompt}".
Proof. vm_compute. reflexivity. Qed.

Example format_unknown_field : format "{separator}" {[ "prompt" := "x" ]} = Err (KeyError "separator").
Proof. vm_compute. reflexivity. Qed.

Example slice_assign_separators :
  slice_assign [""; ""; ""; ""] 1 3 ["="; "-"] = [""; "="; "-"; ""].
Proof. reflexivity. Qed.

Example classify_lines :
  classify <$> [line "CONFIG_A=y"; line "# CONFIG_B is not set"; line "# note"; line ""; line "CONFIG_=1"]
  = [Assignment "A"; Assignment "B"; CommentLine; OtherLine; OtherLine].
Proof. vm_compute. reflexivity. Qed.

(** C1 as stated fails after a second load with [replace] true: the table
    still has the entry of [A] from ["a.conf"], and the only record of the
    file just loaded, ["b.conf"], is for [C]. *)
Lemma load_replace_keeps_entries :
  load_config_files ["a.conf"] true None p0 = Ok p1 ∧
  load_config_files ["b.conf"] true None p1 = Ok p2 ∧
  defined_config_dict p2 !! "A" = Some (ConfigInfo "A" "CONFIG_A=y" (Some "A") "# note") ∧
  ci_name <$> records_of ["b.conf"] = ["C"].
Proof. split_and!; vm_compute; reflexivity. Qed.

(** C1, as amended, on the first load of the concrete run. *)
Lemma load_config_files_table_witness :
  (∀ name, defined_config_dict p1 !! name =
           match last_record name (records_of ["a.conf"]) with
           | Some ci => Some ci
           | None => defined_config_dict p0 !! name
           end) ∧
  (defined_config_dict p0 = ∅ →
   ∀ name, is_Some (defined_config_dict p1 !! name) ↔
           ∃ ci, ci ∈ records_of ["a.conf"] ∧ ci_name ci = name).
Proof.
  apply (load_config_files_table ["a.conf"] true None p0 p1).
  vm_compute. reflexivity.
Defined.

(** C3 as stated fails on two preload files: the second one is applied with
    [replace] false, and what the first one gave to [P] is still in the
    table of the Kconfig object. *)
Lemma preload_later_files_merge :
  preload_config_files ["pre.conf"; "a.conf"] None p0 = Ok q1 ∧
  kconf_calls (kconf q1) = [KCall "pre.conf" true None; KCall "a.conf" false None] ∧
  kconf_table content (kconf_calls (kconf q1)) !! "P" = Some "y".
Proof. split_and!; vm_compute; reflexivity. Qed.

(** C3, as amended, on the two preload files of the concrete run. *)
Lemma preload_config_files_calls_witness :
  kconf_calls (kconf q1) =
    kconf_calls (kconf p0) ++ preload_calls ["pre.conf"; "a.conf"] None ∧
  ∀ (V : Type) (content : string → list (string * V)) f rest name,
    kconf_calls (kconf p0) = [] → ["pre.conf"; "a.conf"] = f :: rest →
    (∀ g, g ∈ rest → name ∉ (content g).*1) →
    kconf_table content (kconf_calls (kconf q1)) !! name =
    table_load (content f) true ∅ !! name.
Proof.
  apply (preload_config_files_calls ["pre.conf"; "a.conf"] None p0 q1).
  vm_compute. reflexivity.
Defined.

(** C5 as stated fails on a comment line that ends in blanks: the comment
    of the record is the line without them. *)
Lemma comment_not_verbatim :
  scan [line "# note  "; line "CONFIG_A=y"] =
    [ConfigInfo "A" "CONFIG_A=y" (Some "A") "# note"] ∧
  join newline (chomp <$> [line "# note  "]) = "# note  " ∧
  "# note" ≠ "# note  ".
Proof. split_and!; [vm_compute; reflexivity|vm_compute; reflexivity|discriminate]. Qed.

(** C5, as amended, on a comment line that an assignment follows. *)
Lemma comment_attachment_witness :
  (∀ name, classify (line "CONFIG_A=y  ") = Assignment name →
     scan ([] ++ [line "# note  "] ++ line "CONFIG_A=y  " :: [line "CONFIG_C=1"]) =
     scan [] ++
     ConfigInfo name (rstrip (line "CONFIG_A=y  ")) (symbol_of name)
       (join newline (rstrip <$> [line "# note  "])) ::
     scan [line "CONFIG_C=1"]) ∧
  (Forall (λ c, rstrip (chomp c) = chomp c) [line "# note  "] →
   rstrip <$> [line "# note  "] = chomp <$> [line "# note  "]) ∧
  (classify (line "CONFIG_A=y  ") = OtherLine →
     scan ([] ++ [line "# note  "] ++ line "CONFIG_A=y  " :: [line "CONFIG_C=1"]) =
       scan [] ++ scan [line "CONFIG_C=1"] ∧
     ∀ l' post' name, [line "CONFIG_C=1"] = l' :: post' →
       classify l' = Assignment name →
       scan [line "CONFIG_C=1"] =
       ConfigInfo name (rstrip l') (symbol_of name) "" :: scan post').
Proof.
  apply (comment_attachment [] [line "# note  "] [line "CONFIG_C=1"] (line "CONFIG_A=y  ")).
  - intros x Hx. discriminate Hx.
  - repeat constructor.
Defined.

(** C6 as stated fails on an assignment line that ends in blanks: the node
    of [A] carries the record of the line [CONFIG_A=y] followed by two
    blanks, and the line written for it has no blanks. *)
Lemma config_line_not_byte_for_byte :
  (∃ lines, open_config "a.conf" = Lines lines ∧
            lines !! 1 = Some (line "CONFIG_A=y  ")) ∧
  ∃ node ci,
    heap p1 !! 2 = Some node ∧ config node = Some ci ∧
    ci ∈ scan [line "# note  "; line "CONFIG_A=y  "] ∧
    print_node_config p1 node OutFile [] = Ok [(OutFile, line "CONFIG_A=y")] ∧
    line "CONFIG_A=y" ≠ line "CONFIG_A=y  ".
Proof.
  split; [eexists; split; vm_compute; reflexivity|].
  eexists. exists (@ConfigInfo kconfiglib "A" "CONFIG_A=y" (Some "A") "# note").
  split_and!; [vm_compute; reflexivity|reflexivity| |vm_compute; reflexivity|discriminate].
  apply list_elem_of_here.
Qed.

(** C6 on the first load of the concrete run. *)
Lemma config_line_echo_witness :
  from_files p1 ∧
  ∀ a node ci,
    reach (heap p1) (top_node p1) a → heap p1 !! a = Some node →
    config node = Some ci →
    ∃ f lines raw,
      open_config f = Lines lines ∧ raw ∈ lines ∧
      classify raw = Assignment (ci_name ci) ∧ ci_line ci = rstrip raw ∧
      (∀ file out, print_node_config p1 node file out =
                   Ok (out ++ [(file, rstrip raw +:+ newline)])) ∧
      (rstrip (chomp raw) = chomp raw → raw = chomp raw +:+ newline →
       rstrip raw +:+ newline = raw).
Proof.
  apply (config_line_echo ["a.conf"] true None p0 p1).
  - intros name ci Hl. vm_compute in Hl. discriminate Hl.
  - vm_compute. reflexivity.
Defined.


(** C8.  [print_node_comment] writes nothing to the file it is given: the
    comment goes to [sys.stdout].  On the node of [A] of the concrete run,
    with comments enabled and the output file as the sink, the comment is
    written to [sys.stdout] and nothing of it reaches the file; a whole
    print pass writes both comments (an empty one for [B]) to
    [sys.stdout]. *)
Theorem comment_written_to_stdout :
  (∀ (KL : Kconfiglib) (self : DefConfigPrinter) (node : Node) (out : output),
     ∃ out', print_node_comment self node OutFile out = Ok out' ∧
             written OutFile out' = written OutFile out) ∧
  print_comment p1c = true ∧
  (∃ node,
     heap p1c !! 2 = Some node ∧
     config node = Some (ConfigInfo "A" "CONFIG_A=y" (Some "A") "# note") ∧
     print_node_comment p1c node OutFile [] = Ok [(Stdout, line "# note")] ∧
     written OutFile [(Stdout, line "# note")] = "") ∧
  result_map (λ r, written Stdout r.2) (print 20 [] OutFile p1c) =
    Ok (line "# note" +:+ line "").
Proof.
  split_and!; [|reflexivity| |vm_compute; reflexivity].
  - intros KL self node out. unfold print_node_comment.
    destruct (config node) as [ci|]; [|by exists out].
    eexists. split; [reflexivity|].
    unfold written, print_to. rewrite filter_app. simpl. by rewrite app_nil_r.
  - eexists. split_and!; vm_compute; reflexivity.
Qed.

(** An option that only a preload file assigns: after
    [preload_config_files(["pre.conf", "a.conf"])] and
    [load_config_files(["b.conf"])], the node of [P] is not defined and
    carries no assignment, nor do those of [A] and [B]. *)
Lemma preload_only_option_unmatched :
  preload_config_files ["pre.conf"; "a.conf"] None p0 = Ok q1 ∧
  load_config_files ["b.conf"] true None q1 = Ok q2 ∧
  (λ n, (prompt n, defined n, ci_name <$> config n)) <$> heap q2 =
    [ (Some "Main menu", true, None); (Some "Choice", true, None);
      (Some "A", false, None); (Some "C", true, Some "C");
      (Some "E", false, None); (Some "B", false, None);
      (Some "P", false, None) ].
Proof. split_and!; vm_compute; reflexivity. Qed.

(** C9 as stated fails on an option that only a preload file assigns.
    After [preload_config_files(["pre.conf"])] and
    [load_config_files(["q.conf"], replace=False)] no node carries a record
    of [P]; but the node of [P] is printed, being above that of [Q], and
    with the original configuration switched on and written as it is, the
    printer writes the line of the preload file, which it has from the
    Kconfig object. *)
Lemma preload_only_line_written :
  Preloaded.preloaded = Lines [line "CONFIG_P=y"] ∧
  Preloaded.loaded = [("Q", "CONFIG_Q=y")] ∧
  Preloaded.nodes =
    Ok [ (Some "Main menu", true, None); (Some "P", true, None);
         (Some "Q", true, Some "Q") ] ∧
  Preloaded.printed =
    Ok [ (Stdout, line "## " +:+ line "## P" +:+ line "## ");
         (Stdout, line "CONFIG_P=y");
         (Stdout, line "");
         (Stdout, line "### " +:+ line "### Q" +:+ line "### ");
         (Stdout, line "CONFIG_Q=y");
         (Stdout, line "") ].
Proof. split_and!; vm_compute; reflexivity. Qed.

(** C9, as amended, on the two preload files of the concrete run. *)
Lemma preload_config_files_frame_witness :
  (q1 = set_kconf p0 (kconf q1) ∧
   kconf_top_node (kconf q1) = kconf_top_node (kconf p0) ∧
   defined_config_list q1 = defined_config_list p0 ∧
   defined_config_dict q1 = defined_config_dict p0 ∧
   top_node q1 = top_node p0 ∧
   heap q1 = heap p0) ∧
  ∀ files replace verbose' self2,
    load_config_files files replace verbose' q1 = Ok self2 →
    defined_config_list self2 = defined_config_list p0 ++ records_of files ∧
    (∀ name, defined_config_dict self2 !! name =
             match last_record name (records_of files) with
             | Some ci => Some ci
             | None => defined_config_dict p0 !! name
             end) ∧
    (∀ a n ci, reach (heap self2) (top_node self2) a →
       heap self2 !! a = Some n → config n = Some ci →
       ci ∈ records_of files ∨ ∃ name, defined_config_dict p0 !! name = Some ci) ∧
    (∀ a n, reach (heap self2) (top_node self2) a →
       heap self2 !! a = Some n → defined n = true →
       ∃ b nb ci, (b = a ∨ ancestor (heap self2) a b) ∧
                  heap self2 !! b = Some nb ∧ config nb = Some ci ∧
                  (ci ∈ records_of files ∨
                   ∃ name, defined_config_dict p0 !! name = Some ci)) ∧
    (∀ a n file out out', reach (heap self2) (top_node self2) a →
       heap self2 !! a = Some n →
       print_node_config self2 n file out = Ok out' →
       (∃ ci, config n = Some ci ∧
              (ci ∈ records_of files ∨
               ∃ name, defined_config_dict p0 !! name = Some ci) ∧
              out' = print_to file (ci_line ci) out) ∨
       (config n = None ∧ is_symbol n = false ∧ out' = out) ∨
       (config n = None ∧
        ∃ sym fmt text,
          mn_item (menu_node n) = ItemSymbol sym ∧
          print_orig_config_format self2 !! level n = Some fmt ∧
          format fmt {[ "config" :=
            lstrip "# " (rstrip (config_string (kconf_calls (kconf self2)) sym)) ]} = Ok text ∧
          out' = print_to file text out)).
Proof.
  apply (preload_config_files_frame ["pre.conf"; "a.conf"] None p0 q1).
  vm_compute. reflexivity.
Defined.

(** C10 on the first load of the concrete run. *)
Lemma template_lookups_in_bounds_witness :
  lookups_ok p1 ∧
  ∀ params self'', generate_print_format params p1 = Ok self'' → lookups_ok self''.
Proof.
  apply (template_lookups_in_bounds ["a.conf"] true None p0 p1).
  vm_compute. reflexivity.
Defined.

(** * The further statements on the concrete run *)

Import Run.

Example list_repr_quotes :
  list_repr ["pre.conf"; "it's"; "a" +:+ newline] =
  "['pre.conf', " +:+ String double_quote ("it's" +:+ String double_quote "") +:+
  ", 'a\n']".
Proof. vm_compute. reflexivity. Qed.

Example main_run : main argparse new_Kconfig writable 7 environ argv =
                   Return environ_of_main printer_of_main out_of_main.
Proof. vm_compute. reflexivity. Qed.

Example main_run_without_arch :
  main argparse new_Kconfig writable 7 ∅ argv =
  Exit 1 [(Stdout, line "Error: Architecture is not specified.")].
Proof. vm_compute. reflexivity. Qed.

Example main_run_rejected :
  main argparse new_Kconfig writable 7 environ ["--frobnicate"] = Exit 2 [].
Proof. vm_compute. reflexivity. Qed.

Example main_run_written :
  written Stdout out_of_main =
    line "## export ARCH=x86_64" +:+ line "## export CROSS_COMPILE=arm-" +:+
    line "## export CC=arm-gcc" +:+ line "## export LD=arm-ld" +:+
    line "## export SRCARCH=x86" +:+ line "## export srctree=." +:+
    line "## kconfig file = Kconfig" +:+
    line "## preload defconfig files = ['pre.conf']" +:+
    line "## load defconfig files    = ['a.conf']" +:+
    line "## merge defconfig files   = ['b.conf']" +:+
    line "## output file = out.config" +:+
    line "# note" +:+ line "" +:+ line "".
Proof. vm_compute. reflexivity. Qed.

Lemma usable_p1 : usable p1.
Proof.
  eapply (usable_load ["a.conf"] true None p0 p1).
  - apply (usable_init top). vm_compute. reflexivity.
  - vm_compute. reflexivity.
Qed.

(** X1 on the concrete run, with the separators of [--separator]. *)
Lemma default_templates_generated_witness :
  generate_print_format [P_separator_char_list ["="; "-"]] p1 =
    Ok (set_formats p1
          (update_params (print_format_params p1) [P_separator_char_list ["="; "-"]])
          (default_level_templates
             (update_params (print_format_params p1) [P_separator_char_list ["="; "-"]])
             (level_size p1))) ∧
  ((0 ≤ fp_print_first_level
          (update_params (print_format_params p1) [P_separator_char_list ["="; "-"]]))%Z →
   ∀ lvl, lvl < level_size p1 →
     separator_chars
       (update_params (print_format_params p1) [P_separator_char_list ["="; "-"]])
       (level_size p1) !! lvl =
     Some (if decide (Z.to_nat (fp_print_first_level
                        (update_params (print_format_params p1)
                           [P_separator_char_list ["="; "-"]])) ≤ lvl <
                      Z.to_nat (fp_print_first_level
                        (update_params (print_format_params p1)
                           [P_separator_char_list ["="; "-"]])) +
                      length (fp_separator_char_list
                        (update_params (print_format_params p1)
                           [P_separator_char_list ["="; "-"]])))
           then default "" (fp_separator_char_list
                              (update_params (print_format_params p1)
                                 [P_separator_char_list ["="; "-"]]) !!
                              (lvl - Z.to_nat (fp_print_first_level
                                 (update_params (print_format_params p1)
                                    [P_separator_char_list ["="; "-"]]))))
           else "")).
Proof.
  apply (default_templates_generated [P_separator_char_list ["="; "-"]] p1).
  vm_compute. by repeat split.
Defined.

(** X2 on the concrete run, with a separator format that uses the
    separator after a field that is offered. *)
Lemma separator_format_unknown_field_witness :
  (level_size p1 = 0 →
   generate_print_format [P_separator_format "{separator_indent} {separator}"] p1 =
   Ok (set_formats p1
         (update_params (print_format_params p1)
            [P_separator_format "{separator_indent} {separator}"]) [])) ∧
  (0 < level_size p1 →
   generate_print_format [P_separator_format "{separator_indent} {separator}"] p1 =
   Err (KeyError "separator")).
Proof.
  apply (separator_format_unknown_field
           [P_separator_format "{separator_indent} {separator}"] p1
           [Field "separator_indent"; Lit " "] "separator" "");
    try (vm_compute; reflexivity).
  - intros n Hn. apply list_elem_of_singleton in Hn as ->. set_solver.
  - intros H. repeat (apply elem_of_cons in H as [H|H]; [discriminate|]).
    by apply elem_of_nil in H.
Defined.

Example separator_format_fails :
  generate_print_format [P_separator_format "{{{separator_line}}} {separator}"] p1 =
  Err (KeyError "separator").
Proof. vm_compute. reflexivity. Qed.

Example separator_format_unnoticed :
  is_Ok (generate_print_format [P_separator_format "{separator_indent} {separator}"] p0).
Proof. vm_compute. by eexists. Qed.

(** X3 on the first load of the concrete run. *)
Lemma node_config_rule_witness :
  load_config_files ["a.conf"] true None p0 = Ok p1 ∧
  ∀ a n, reach (heap p1) (top_node p1) a → heap p1 !! a = Some n →
    config n = matched p1 (menu_node n) ∧
    (∀ ci, config n = Some ci ↔
       (0 < expr_value (kconf_calls (kconf p1)) (mn_dep (menu_node n)))%Z ∧
       ∃ name, item_name (mn_item (menu_node n)) = Some name ∧
               defined_config_dict p1 !! name = Some ci).
Proof.
  assert (load_config_files ["a.conf"] true None p0 = Ok p1) as H
    by (vm_compute; reflexivity).
  split; [exact H|]. exact (node_config_rule ["a.conf"] true None p0 p1 H).
Defined.

(** X4 on the first load of the concrete run. *)
Lemma node_defined_iff_witness :
  load_config_files ["a.conf"] true None p0 = Ok p1 ∧
  ∀ a n, reach (heap p1) (top_node p1) a → heap p1 !! a = Some n →
    (defined n = true ↔
     ∃ b nb, reach (heap p1) (top_node p1) b ∧
             (b = a ∨ ancestor (heap p1) a b) ∧
             heap p1 !! b = Some nb ∧ is_Some (config nb)).
Proof.
  assert (load_config_files ["a.conf"] true None p0 = Ok p1) as H
    by (vm_compute; reflexivity).
  split; [exact H|]. exact (node_defined_iff ["a.conf"] true None p0 p1 H).
Defined.

(** X5 on the first load of the concrete run: the deepest node, for the
    symbol [E], has level 3. *)
Lemma max_level_is_deepest_witness :
  level_size p1 = max_level p1 + 1 ∧
  (∀ a n, reach (heap p1) (top_node p1) a → heap p1 !! a = Some n →
     level n ≤ max_level p1) ∧
  (∃ a n, reach (heap p1) (top_node p1) a ∧ heap p1 !! a = Some n ∧
          level n = max_level p1).
Proof.
  apply (max_level_is_deepest ["a.conf"] true None p0 p1).
  - vm_compute. reflexivity.
  - vm_compute. discriminate.
Defined.

(** X6 on the state after the first load of the concrete run. *)
Lemma table_is_last_of_list_witness :
  tables_agree p1 ∧
  ∀ name ci, defined_config_dict p1 !! name = Some ci →
    ci ∈ defined_config_list p1 ∧ ci_name ci = name.
Proof. apply (table_is_last_of_list p1). exact usable_p1. Defined.

(** X7 on the two loads of the concrete run. *)
Lemma load_config_files_twice_witness :
  (∀ r v self12, load_config_files (["a.conf"] ++ ["b.conf"]) r v p0 = Ok self12 →
     defined_config_dict self12 = defined_config_dict p2 ∧
     defined_config_list self12 = defined_config_list p2) ∧
  (∀ name, defined_config_dict p2 !! name =
           match last_record name (records_of ["b.conf"]) with
           | Some ci => Some ci
           | None => defined_config_dict p1 !! name
           end) ∧
  (["b.conf"] = ["a.conf"] →
   defined_config_dict p2 = defined_config_dict p1 ∧
   defined_config_list p2 = defined_config_list p1 ++ records_of ["a.conf"]).
Proof.
  apply (load_config_files_twice ["a.conf"] ["b.conf"] true true None None p0 p1 p2).
  - vm_compute. reflexivity.
  - vm_compute. reflexivity.
Defined.

(** X8 on a list whose second file is not UTF-8 and whose third file does
    not exist. *)
Lemma unreadable_file_fails_witness :
  let e := match open_config "latin1.conf" with
           | NotText => KconfigError "latin1.conf"
           | _ => OSError "latin1.conf"
           end in
  load_config_files (["a.conf"] ++ "latin1.conf" :: ["missing.conf"]) true None p0 = Err e ∧
  preload_config_files (["a.conf"] ++ "latin1.conf" :: ["missing.conf"]) None p0 = Err e.
Proof.
  apply (unreadable_file_fails ["a.conf"] "latin1.conf" ["missing.conf"] true None p0).
  - repeat constructor. vm_compute. by eexists.
  - intros [lines H]. vm_compute in H. discriminate.
Defined.

Example unreadable_file_errors :
  load_config_files ["a.conf"; "latin1.conf"; "missing.conf"] true None p0 =
    Err (KconfigError "latin1.conf") ∧
  load_config_files ["a.conf"; "missing.conf"; "latin1.conf"] true None p0 =
    Err (OSError "missing.conf") ∧
  load_config "latin1.conf" p0 = Err UnicodeDecodeError.
Proof. split_and!; vm_compute; reflexivity. Qed.

(** X9 on the new printer of the concrete run. *)
Lemma load_config_files_returns_witness :
  is_Ok (load_config_files ["a.conf"; "b.conf"] false None p0) ↔
  Forall readable ["a.conf"; "b.conf"].
Proof.
  apply (load_config_files_returns ["a.conf"; "b.conf"] false None p0).
  vm_compute. by repeat split.
Defined.

(** X10 on the record of [A] of the concrete run, whose input line ends in
    blanks. *)
Lemma stored_line_reads_back_witness :
  rstrip "CONFIG_A=y" = "CONFIG_A=y" ∧
  scan [line "CONFIG_A=y"] = [ConfigInfo "A" "CONFIG_A=y" (Some "A") ""].
Proof.
  apply (stored_line_reads_back
           [line "# note  "; line "CONFIG_A=y  "; line ""; line "# stray"; line "";
            line "# CONFIG_B is not set"]
           (@ConfigInfo kconfiglib "A" "CONFIG_A=y" (Some "A") "# note")).
  vm_compute. apply list_elem_of_here.
Defined.

(** X11 on the concrete run with comments and an output file. *)
Lemma print_writes_to_file_witness :
  ∃ plain,
    print 7 [] OutFile (comments_off p1c) = Ok (comments_off p1c, plain) ∧
    Forall (λ w, w.1 = OutFile) plain ∧
    with_comments p1c written_p1c plain ∧
    (print_comment p1c = false → written_p1c = plain) ∧
    (OutFile ≠ Stdout → filter (λ w, w.1 = OutFile) written_p1c = plain).
Proof.
  apply (print_writes_to_file 7 [] OutFile p1c p1c written_p1c).
  vm_compute. reflexivity.
Defined.

(** The comments of [A] and [B] are the only writes of that run that do not
    go to the file. *)
Example print_comments_run :
  print 7 [] OutFile p1c = Ok (p1c, written_p1c) ∧
  filter (λ w, w.1 = Stdout) written_p1c = [(Stdout, line "# note"); (Stdout, line "")] ∧
  print 7 [] OutFile (comments_off p1c) =
    Ok (comments_off p1c, filter (λ w, w.1 = OutFile) written_p1c).
Proof. split_and!; vm_compute; reflexivity. Qed.

(** X12 on the state after the first load of the concrete run. *)
Lemma print_ignores_params_witness :
  generate_print_format [] p1 = Ok p1 ∧
  ∀ fuel params file,
    print fuel params file p1 = print fuel [] file p1 ∧
    ∀ self' out, print fuel params file p1 = Ok (self', out) → self' = p1.
Proof. apply (print_ignores_params p1). exact usable_p1. Defined.

(** X13 on the concrete run, with the separators of [--separator]. *)
Lemma print_returns_witness :
  ∃ out, print 7 [] OutFile p1s = Ok (p1s, out).
Proof.
  apply (print_returns ["a.conf"] true None [P_separator_char_list ["="; "-"]] p0 p1 p1s).
  - vm_compute. repeat split; repeat constructor.
  - vm_compute. discriminate.
  - vm_compute. reflexivity.
  - vm_compute. reflexivity.
  - vm_compute. lia.
Defined.

(** X14 on a printer that has loaded no file. *)
Lemma print_nothing_witness : print 7 [] Stdout e1 = Ok (e1, []).
Proof.
  apply (print_nothing [] true None p0 e1).
  - vm_compute. discriminate.
  - vm_compute. reflexivity.
  - vm_compute. repeat constructor.
  - vm_compute. lia.
Defined.

(** X16 on a node at level 2 that has a help text of two lines and carries
    no assignment. *)
Lemma default_output_lines_witness :
  let self := set_formats p1 default_format_params
                (default_level_templates default_format_params 4) in
  let separator :=
    separator_of default_format_params
      (default "" (separator_chars default_format_params 4 !! level node_H)) (level node_H) in
  let prompt_indent := str_repeat (fp_prompt_indent_char default_format_params) (level node_H) in
  let info_indent := str_repeat (fp_info_indent_char default_format_params) (level node_H) in
  print_node_prompt self node_H OutFile [] =
    Ok ([] ++ [(OutFile, "#" +:+ separator +:+ newline +:+
                       "#" +:+ prompt_indent +:+ " " +:+ text_of (prompt node_H) +:+ newline +:+
                       "#" +:+ separator +:+ newline)]) ∧
  print_node_location self node_H OutFile [] =
    Ok ([] ++ [(OutFile, "#" +:+ info_indent +:+ " " +:+ mn_filename (menu_node node_H) +:+
                       " : " +:+ pretty (mn_linenr (menu_node node_H)) +:+ newline +:+
                       "#" +:+ info_indent +:+ newline)]) ∧
  (∀ text, help node_H = Some text →
     print_node_help self node_H OutFile [] =
       Ok ([] ++ [(OutFile, "#" +:+ info_indent +:+ " help" +:+ newline +:+
                          join newline ((λ help_line, "#" +:+ info_indent +:+ "     " +:+ help_line)
                                          <$> splitlines text) +:+ newline +:+
                          "#" +:+ info_indent +:+ newline)])) ∧
  (help node_H = None → print_node_help self node_H OutFile [] = Err AttributeError) ∧
  (∀ sym, config node_H = None → is_symbol node_H = true →
     mn_item (menu_node node_H) = ItemSymbol sym →
     print_node_config self node_H OutFile [] =
       Ok ([] ++ [(OutFile, "#" +:+ info_indent +:+ " " +:+
                          lstrip "# " (rstrip (config_string (kconf_calls (kconf p1)) sym)) +:+
                          newline)])).
Proof.
  apply (default_output_lines p1 default_format_params 4 node_H OutFile []).
  - vm_compute. repeat split; repeat constructor.
  - vm_compute. lia.
Defined.

Example default_output_lines_run :
  let self := set_formats p1 default_format_params
                (default_level_templates default_format_params 4) in
  print_node_help self node_H OutFile [] =
    Ok [(OutFile, line "### help" +:+ line "###     one" +:+ line "###     two" +:+
                  line "###")] ∧
  print_node_config self node_H OutFile [] = Ok [(OutFile, line "### CONFIG_H is not set")] ∧
  print_node_help self node_C OutFile [] = Err AttributeError.
Proof. split_and!; vm_compute; reflexivity. Qed.

(** X18 on the concrete run of [main]. *)
Lemma main_environment_witness :
  ∃ cl, argparse environ argv = Accepted cl ∧
  let args := main_args environ cl in
  ∃ arch cc ld,
    args_arch args = Some arch ∧
    environ_of_main !! "ARCH" = Some arch ∧
    environ_of_main !! "SRCARCH" = source_arch (args_srcarch args) (Some arch) ∧
    environ_of_main !! "CC" = Some cc ∧ environ_of_main !! "LD" = Some ld ∧
    environ_of_main !! "srctree" = Some (args_srctree args) ∧
    (args_cross_compile args ≠ "" →
     startswith cc (args_cross_compile args) = true ∧
     startswith ld (args_cross_compile args) = true) ∧
    (cl_cross_compile cl = None → cl_cc cl = None → environ !! "CC" = None →
     cc = default "" (environ !! "CROSS_COMPILE") +:+ "gcc") ∧
    (cl_cross_compile cl = None → cl_ld cl = None → environ !! "LD" = None →
     ld = default "" (environ !! "CROSS_COMPILE") +:+ "ld") ∧
    ∀ name, name ∉ ["ARCH"; "SRCARCH"; "CC"; "LD"; "srctree"] →
      environ_of_main !! name = environ !! name.
Proof.
  apply (main_environment argparse new_Kconfig writable 7 environ argv
           environ_of_main printer_of_main out_of_main).
  vm_compute. reflexivity.
Defined.

(** X19 on the concrete run of [main]. *)
Lemma main_loads_witness :
  ∃ cl, argparse environ argv = Accepted cl ∧
  let args := main_args environ cl in
  let preload_files := or_empty (args_preload args) in
  let load_files := or_empty (Some (args_load_files args)) in
  let merge_files := or_empty (args_merge args) in
  kconf_calls (kconf printer_of_main) =
    preload_calls preload_files None ++
    ((λ f, KCall f true None) <$> load_files) ++
    ((λ f, KCall f false None) <$> merge_files) ∧
  defined_config_list printer_of_main = records_of (load_files ++ merge_files) ∧
  ∀ name, defined_config_dict printer_of_main !! name =
          last_record name (records_of (load_files ++ merge_files)).
Proof.
  apply (main_loads argparse new_Kconfig writable 7 environ argv
           environ_of_main printer_of_main out_of_main).
  vm_compute. reflexivity.
Defined.

(** X20 on the concrete run of [main], which has [--with-comment], [-v]
    and an output file. *)
Lemma main_output_witness :
  ∃ cl, argparse environ argv = Accepted cl ∧
  let args := main_args environ cl in
  (print_first_level printer_of_main = 1%Z ∧
   print_help printer_of_main = args_with_help args ∧
   print_orig_config printer_of_main = args_with_orig_config args ∧
   print_location printer_of_main = args_with_location args ∧
   print_comment printer_of_main = args_with_comment args ∧
   fp_separator_char_list (print_format_params printer_of_main) =
     (if args_separator args then ["="; "-"] else [])) ∧
  ∃ arch printed plain,
    args_arch args = Some arch ∧
    out_of_main =
      (if args_verbose args then
         (λ line, (Stdout, line +:+ newline)) <$>
           verbose_lines arch (args_cross_compile args)
             (cross_tool (args_cross_compile args) (args_cc args))
             (cross_tool (args_cross_compile args) (args_ld args))
             (source_arch (args_srcarch args) (Some arch))
             (args_srctree args) (args_kconfig args)
             (or_empty (args_preload args)) (or_empty (Some (args_load_files args)))
             (or_empty (args_merge args)) (args_output args)
       else []) ++ printed ∧
    print 7 [] (main_stream args) (comments_off printer_of_main) =
      Ok (comments_off printer_of_main, plain) ∧
    Forall (λ w, w.1 = main_stream args) plain ∧
    with_comments printer_of_main printed plain ∧
    (args_with_comment args = false → printed = plain) ∧
    (is_Some (args_output args) → filter (λ w, w.1 = OutFile) printed = plain).
Proof.
  apply (main_output argparse new_Kconfig writable 7 environ argv
           environ_of_main printer_of_main out_of_main).
  vm_compute. reflexivity.
Defined.

(** X21 on the concrete run of [main]. *)
Lemma main_returns_witness :
  ∃ printer out,
    main argparse new_Kconfig writable 7 environ argv =
    Return (main_environ environ (main_args environ cl) "x86_64" "x86") printer out.
Proof.
  apply (main_returns argparse new_Kconfig writable 7 environ argv cl "x86_64" "x86" top).
  - vm_compute. reflexivity.
  - vm_compute. reflexivity.
  - vm_compute. reflexivity.
  - vm_compute. reflexivity.
  - discriminate.
  - repeat constructor; vm_compute; by eexists.
  - intros name _. reflexivity.
  - vm_compute. lia.
Defined.
